(** * nr1-victory-visualizations: data validation and transformation

    A shallow embedding of the three visualizations' data pipelines:

    - the circular progress bar (gauge): [Gauge.nrqlInputIsValid],
      [Gauge.getColor], [Gauge.transformData];
    - the stacked bar chart: [StackedBar.validateNRQLInput],
      [StackedBar.getFacetLabels], [StackedBar.transformData],
      [StackedBar.getBarCount], [StackedBar.legendItems];
    - the scatter plot: [Scatter.getAggregatesData],
      [Scatter.getNonAggregatesData], [Scatter.entryHasNulls],
      [Scatter.transformData], [Scatter.nrqlInputIsValid],
      [Scatter.getAxisLabelProps], [Scatter.tooltipLabel],
      [Scatter.valueLabel], [Scatter.legendItems];

    and, for each of them, of the function that [render] gives to
    [NrqlQuery]: [renderQuery] maps the state of the query (loading,
    error, data) to the element shown, described by the component at its
    root and the data it is given.

    JavaScript numbers are IEEE 754 doubles and are modelled by Rocq's
    primitive binary64 floats, whose operations round exactly as the
    JavaScript ones do.  Objects used as dictionaries are association lists
    in property-creation order.  Functions imported from modules that are
    not part of the embedded sources (the grouping classifier of
    [utils/nrql-validation-helper], [getFacetLabel] of [utils/facets],
    [typeToUnit] of [utils/units], the palette of [colors]) and the
    JavaScript built-ins that read numbers out of strings or print values
    are section variables: every general theorem holds for all of them.
    Rows and props are records: the properties the code reads off them
    without a guard are always there. *)

From Stdlib Require Import List String Ascii Bool Arith NArith ZArith Lia.
From Stdlib Require Import Permutation Sorted.
From Stdlib Require Import Floats DecimalString.
Import ListNotations.

Set Implicit Arguments.
Set Default Proof Using "Type".

Local Open Scope string_scope.
Local Open Scope list_scope.

(* ================================================================== *)
(** * JavaScript values *)

Module Js.

(** The values a query result carries: numbers, strings and [null];
    [Undefined] is what reading an absent property yields. *)
Inductive value : Type :=
| Undefined
| Null
| Num (n : float)
| Str (s : string).

(** [v === null || v === undefined] *)
Definition is_nullish (v : value) : bool :=
  match v with
  | Undefined | Null => true
  | _ => false
  end.

(** ToBoolean: [undefined], [null], [0], [-0], [NaN] and [''] are falsy. *)
Definition truthy (v : value) : bool :=
  match v with
  | Undefined | Null => false
  | Num n => negb (PrimFloat.is_zero n || PrimFloat.is_nan n)
  | Str s => negb (String.eqb s "")
  end.

(** [a || b] *)
Definition or (a b : value) : value := if truthy a then a else b.

(** [a ?? b] *)
Definition coalesce (a b : value) : value := if is_nullish a then b else a.

(** ToNumber.  Reading a number out of a string is the built-in
    StringToNumber, a parameter of the model. *)
Definition ToNumber (StringToNumber : string -> float) (v : value) : float :=
  match v with
  | Undefined => PrimFloat.nan
  | Null => PrimFloat.zero
  | Num n => n
  | Str s => StringToNumber s
  end.

(** The relational operators on numbers: [a < b], [a > b], [a == b]. *)
Definition lt (a b : float) : bool := PrimFloat.ltb a b.
Definition gt (a b : float) : bool := PrimFloat.ltb b a.
Definition eq (a b : float) : bool := PrimFloat.eqb a b.

Definition is_neg_zero (n : float) : bool :=
  PrimFloat.is_zero n && PrimFloat.get_sign n.
Definition is_pos_zero (n : float) : bool :=
  PrimFloat.is_zero n && negb (PrimFloat.get_sign n).

(** [Math.min(...l)]: [NaN] as soon as one argument is [NaN]; otherwise
    the running lowest value starts at [+Infinity] and [-0] counts as
    lower than [+0]. *)
Definition Math_min (l : list float) : float :=
  if existsb PrimFloat.is_nan l then PrimFloat.nan
  else fold_left
         (fun lowest n =>
            if lt n lowest || (is_neg_zero n && is_pos_zero lowest)
            then n else lowest)
         l PrimFloat.infinity.

(** [Math.max(...l)], symmetrically from [-Infinity]. *)
Definition Math_max (l : list float) : float :=
  if existsb PrimFloat.is_nan l then PrimFloat.nan
  else fold_left
         (fun highest n =>
            if gt n highest || (is_pos_zero n && is_neg_zero highest)
            then n else highest)
         l PrimFloat.neg_infinity.

(** What running a function body ends in: a returned value or a thrown
    exception.  [TypeError] is the exception of reading a property of
    [undefined].  [PrototypeKey] is not a JavaScript exception and the
    code does not throw it: it marks the inputs on which this model stops
    following the code.  They are those in which a label or an attribute
    name of the query is used as a property key and names a member that
    every object inherits from [Object.prototype], so that the code reads
    the inherited member, or writes onto it, where the dictionaries of
    the model hold own properties only. *)
Inductive error : Type := TypeError | PrototypeKey.

Inductive outcome (A : Type) : Type :=
| Returns (a : A)
| Throws (e : error).
Arguments Throws {A} e.

Definition bind {A B : Type} (m : outcome A) (k : A -> outcome B) : outcome B :=
  match m with
  | Returns a => k a
  | Throws e => Throws e
  end.

(** ** Objects used as dictionaries *)

(** Own enumerable string-keyed properties, in creation order. *)
Definition object (V : Type) : Type := list (string * V).

(** [o[k]] restricted to own properties *)
Fixpoint get {V : Type} (o : object V) (k : string) : option V :=
  match o with
  | [] => None
  | (k', v) :: o' => if String.eqb k' k then Some v else get o' k
  end.

(** [o[k] = v]: an existing property keeps its place, a new one goes
    last. *)
Fixpoint set {V : Type} (o : object V) (k : string) (v : V) : object V :=
  match o with
  | [] => [(k, v)]
  | (k', v') :: o' =>
      if String.eqb k' k then (k', v) :: o' else (k', v') :: set o' k v
  end.

(** Reading a property of an object whose values are JavaScript values:
    an absent property reads as [undefined]. *)
Definition prop (o : object value) (k : string) : value :=
  match get o k with
  | Some v => v
  | None => Undefined
  end.

(** The members every object inherits from [Object.prototype]. *)
Definition inherited_keys : list string :=
  [ "constructor"; "__proto__"; "hasOwnProperty"; "isPrototypeOf";
    "propertyIsEnumerable"; "toLocaleString"; "toString"; "valueOf";
    "__defineGetter__"; "__defineSetter__"; "__lookupGetter__";
    "__lookupSetter__" ].

Definition inherited_key (k : string) : bool :=
  existsb (String.eqb k) inherited_keys.

(** *** Property enumeration order

    [Object.entries] lists the array-index keys first, in ascending
    numeric order, then the other string keys in creation order.  An
    array index is a canonical decimal numeral below [2^32 - 1]. *)

Definition digit_of (c : ascii) : option N :=
  let n := N_of_ascii c in
  if (48 <=? n)%N && (n <=? 57)%N then Some (n - 48)%N else None.

Fixpoint digits_value (s : string) (acc : N) : option N :=
  match s with
  | EmptyString => Some acc
  | String c s' =>
      match digit_of c with
      | Some d => digits_value s' (10 * acc + d)%N
      | None => None
      end
  end.

Definition array_index (k : string) : option N :=
  match k with
  | EmptyString => None
  | String c rest =>
      if Ascii.eqb c "0"%char
      then match rest with EmptyString => Some 0%N | _ => None end
      else if (String.length k <=? 10)%nat
           then match digits_value k 0 with
                | Some n => if (n <? 4294967295)%N then Some n else None
                | None => None
                end
           else None
  end.

Definition is_array_index (k : string) : bool :=
  match array_index k with Some _ => true | None => false end.

Definition index_of (k : string) : N :=
  match array_index k with Some n => n | None => 0%N end.

Fixpoint insert_by_index {V : Type} (e : string * V) (l : list (string * V))
  : list (string * V) :=
  match l with
  | [] => [e]
  | e' :: l' =>
      if (index_of (fst e) <=? index_of (fst e'))%N
      then e :: l
      else e' :: insert_by_index e l'
  end.

Definition sort_by_index {V : Type} (l : list (string * V)) : list (string * V) :=
  fold_right insert_by_index [] l.

Definition Object_entries {V : Type} (o : object V) : list (string * V) :=
  sort_by_index (filter (fun e => is_array_index (fst e)) o)
  ++ filter (fun e => negb (is_array_index (fst e))) o.

(** The keys of a dictionary are pairwise distinct: the invariant of
    objects built by assignments from the empty object. *)
Definition wf {V : Type} (o : object V) : Prop := NoDup (map fst o).

(** [a === b]: no conversion; [NaN] differs from itself and the two zeros
    are equal. *)
Definition strict_eq (a b : value) : bool :=
  match a, b with
  | Undefined, Undefined => true
  | Null, Null => true
  | Num m, Num n => PrimFloat.eqb m n
  | Str s, Str t => String.eqb s t
  | _, _ => false
  end.

(** [k in o], for a key [k] that names no inherited member. *)
Definition has {V : Type} (o : object V) (k : string) : bool :=
  match get o k with
  | Some _ => true
  | None => false
  end.

(** ToString, as a template literal applies it to an interpolated value.
    Printing a number is the built-in Number::toString, a parameter of the
    model. *)
Definition ToString (NumberToString : float -> string) (v : value) : string :=
  match v with
  | Undefined => "undefined"
  | Null => "null"
  | Num n => NumberToString n
  | Str s => s
  end.

(** ToNumber of an array length or a [Set] size. *)
Definition of_nat (n : nat) : float :=
  PrimFloat.of_uint63 (Uint63.of_Z (Z.of_nat n)).

End Js.

Arguments Js.Returns {A} a.
Arguments Js.Throws {A} e.

(* ================================================================== *)
(** * Doubles *)

Module Double.

Local Open Scope Z_scope.

(** A double that is not zero and has the sign [s]: a finite number or an
    infinity. *)
Definition nonzero_with_sign (s : bool) (x : spec_float) : Prop :=
  match x with
  | S754_finite s' _ _ | S754_infinity s' => s' = s
  | S754_zero _ | S754_nan => False
  end.

(** The bits a right shift by [n] drops from [M], as the rounding sees
    them: the highest dropped bit, and whether a lower one is set. *)
Definition round_bit (M n : Z) : bool := Z.odd (M / 2 ^ (n - 1)).
Definition sticky_bit (M n : Z) : bool := negb (M mod 2 ^ (n - 1) =? 0).

(** [M / 2 ^ n] rounded to nearest, ties to even. *)
Definition rne (M n : Z) : Z :=
  let q := M / 2 ^ n in
  if n <=? 0 then M
  else if round_bit M n
       then (if sticky_bit M n then q + 1
             else if Z.even q then q else q + 1)
       else q.

(** The place of a double in the order of the numbers, as a triple of
    integers compared lexicographically: the infinities and the signs
    first, then the exponent, then the mantissa.  The two zeros share a
    place. *)
Definition key (x : spec_float) : Z * Z * Z :=
  match x with
  | S754_infinity true => (-2, 0, 0)
  | S754_finite true m e => (-1, - e, - Z.pos m)
  | S754_zero _ => (0, 0, 0)
  | S754_nan => (0, 0, 0)
  | S754_finite false m e => (1, e, Z.pos m)
  | S754_infinity false => (2, 0, 0)
  end.

Definition lt_key (k k' : Z * Z * Z) : Prop :=
  let '(a, b, c) := k in
  let '(a', b', c') := k' in
  a < a' \/ (a = a' /\ (b < b' \/ (b = b' /\ c < c'))).

End Double.

(* ================================================================== *)
(** * The query result: rows with data points and metadata *)

Module Nrql.

(** An entry of [metadata.groups]. *)
Record Group : Type := mkGroup {
  type : string;
  value : string;
  displayName : string
}.

Record Metadata : Type := mkMetadata {
  color : string;
  name : string;
  groups : list Group;
  units_data : Js.object string
}.

(** A data point maps field names to values. *)
Definition DataPoint : Type := Js.object Js.value.

Record ResultRow : Type := mkRow {
  data : list DataPoint;
  metadata : Metadata
}.

(** [units_data[k]], [undefined] when the field has no unit. *)
Definition unit_of (m : Metadata) (k : string) : Js.value :=
  match Js.get (units_data m) k with
  | Some u => Js.Str u
  | None => Js.Undefined
  end.

Definition is_function (g : Group) : bool := String.eqb (type g) "function".
Definition is_facet (g : Group) : bool := String.eqb (type g) "facet".

(** A JavaScript [Set] of strings, as the list of its elements in
    insertion order: [size] is its length and [Array.from] the list. *)
Definition StringSet : Type := list string.
Definition size (s : StringSet) : nat := List.length s.

End Nrql.
Import Nrql.

(** The argument of the function that a visualization gives to the
    [NrqlQuery] component as its child: [{data, loading, error}].  [data]
    is the array of result rows, or [null]; [error] is the message of the
    error object when there is one. *)
Module NrqlQuery.

Record RenderProps : Type := mkRenderProps {
  data : option (list ResultRow);
  loading : bool;
  error : option string
}.

End NrqlQuery.

(** An entry of the [items] given to the [Legend] component:
    [{label, color}]. *)
Module Legend.

Record Item : Type := mkItem {
  label : Js.value;
  color : Js.value
}.

End Legend.

(* ================================================================== *)
(** * The circular progress bar (gauge) *)

Module Gauge.
Section CircularProgressBar.

(** [getUniqueAggregatesAndFacets] of [utils/nrql-validation-helper]: the
    pair [(uniqueAggregates, uniqueFacets)]. *)
Variable getUniqueAggregatesAndFacets : list ResultRow -> StringSet * StringSet.

(** The built-ins [parseFloat] and StringToNumber. *)
Variable parseFloat : Js.value -> float.
Variable StringToNumber : string -> float.

(** [Colors.base.red6] and [Colors.base.green6] of [colors]. *)
Variables red6 green6 : string.

(** [this.props.thresholds] *)
Record Thresholds : Type := mkThresholds {
  criticalThreshold : Js.value;
  highValuesAreSuccess : bool
}.

Record Props : Type := mkProps {
  thresholds : Thresholds
}.

(** An entry of the series handed to the pie chart. *)
Record Slice : Type := mkSlice {
  x : string;
  y : float;
  color : string
}.

Record Transformed : Type := mkTransformed {
  percent : float;
  label : string;
  series : list Slice
}.

Variable props : Props.

Definition getColor (value : float) (colorFromData : string) : string :=
  let red := red6 in
  let green := green6 in
  let threshold := parseFloat (criticalThreshold (thresholds props)) in
  if PrimFloat.is_nan threshold then colorFromData
  else if highValuesAreSuccess (thresholds props)
       then (if Js.gt value threshold then green else red)
       else (if Js.lt value threshold then green else red).

(** [data[0]] of an empty result is [undefined], and so is the first entry
    of an empty [data] array: destructuring the former and reading [y] of
    the latter throw. *)
Definition transformData (rows : list ResultRow) : Js.outcome Transformed :=
  match rows with
  | [] => Js.Throws Js.TypeError
  | row :: _ =>
      let colorFromData := Nrql.color (metadata row) in
      let label := name (metadata row) in
      match data row with
      | [] => Js.Throws Js.TypeError
      | series :: _ =>
          let percent :=
            (Js.ToNumber StringToNumber (Js.prop series "y") * 100)%float in
          let color := getColor percent colorFromData in
          Js.Returns
            {| percent := percent;
               label := label;
               series :=
                 [ {| x := "progress"; y := percent; color := color |};
                   {| x := "remainder"; y := (100 - percent)%float;
                      color := "transparent" |} ] |}
      end
  end.

Definition nrqlInputIsValid (rows : list ResultRow) : Js.outcome bool :=
  match rows with
  | [] => Js.Throws Js.TypeError
  | row :: _ =>
      let seriesEntries := data row in
      let '(uniqueAggregates, uniqueFacets) :=
        getUniqueAggregatesAndFacets rows in
      let isNonTimeseries := Nat.eqb (List.length seriesEntries) 1 in
      Js.Returns
        (Nat.eqb (size uniqueAggregates) 1
         && Nat.eqb (size uniqueFacets) 0
         && isNonTimeseries)
  end.

(** ** Rendering *)

(** The element that the function given to [NrqlQuery] returns, by the
    component at its root and the values computed from the query result
    that the element is given.  [Svg] is the chart: the [data] of the pie,
    the [data] of the animated percentage and the [text] of the label
    under the pie. *)
Inductive View : Type :=
| Spinner
| NrqlQueryError (title description : string)
| NoDataState
| Svg (pie : list Slice) (animated : float) (text : string).

(** The function [({ data, loading, error }) => ...] of [render].
    [data.length] of a [null] result throws. *)
Definition renderQuery (result : NrqlQuery.RenderProps) : Js.outcome View :=
  if NrqlQuery.loading result then Js.Returns Spinner
  else
    match NrqlQuery.error result, NrqlQuery.data result with
    | Some message, None =>
        Js.Returns (NrqlQueryError "NRQL Syntax Error" message)
    | None, None => Js.Throws Js.TypeError
    | _, Some rows =>
        if Nat.eqb (List.length rows) 0 then Js.Returns NoDataState
        else
          Js.bind (nrqlInputIsValid rows) (fun valid =>
          if negb valid
          then Js.Returns
                 (NrqlQueryError "Unsupported NRQL query"
                    "The provided NRQL query is not supported by this visualization. Please make sure to have exactly 1 aggregate function in the SELECT clause and no FACET or TIMESERIES clauses.")
          else
            Js.bind (transformData rows) (fun transformed =>
            Js.Returns (Svg (series transformed) (percent transformed)
                            (label transformed))))
    end.

End CircularProgressBar.
End Gauge.

(* ================================================================== *)
(** * The stacked bar chart *)

Module StackedBar.

(** A bar segment handed to the chart:
    [{label, segmentLabel, x, y, color}]. *)
Record BarSegment : Type := mkBarSegment {
  label : list string;
  segmentLabel : string;
  x : string;
  y : Js.value;
  color : Js.value
}.

(** [this.props.other] *)
Record Other : Type := mkOther {
  visible : bool
}.

Record Props : Type := mkProps {
  other : Other
}.

(** The result [{barLabel, segmentLabel}] of [getFacetLabels]; its second
    field is named apart from the [segmentLabel] of a bar segment. *)
Record FacetLabels : Type := mkFacetLabels {
  barLabel : string;
  facetSegmentLabel : string
}.

(** [this.props.yAxisConfig] *)
Module YAxisConfig.

Record t : Type := mk {
  label : Js.value;
  min : Js.value;
  max : Js.value
}.

End YAxisConfig.

(** The chart that the function given to [NrqlQuery] returns for a
    supported query, by the values computed from the query result and
    the size of the chart that its elements are given: the fields are the
    constants of that function. *)
Module Chart.

Record t : Type := mk {
  width : float;
  height : float;
  transformedData : list (list BarSegment);
  unitType : Js.value;
  legendItems : list Legend.Item;
  barCount : nat;
  xDomainWidth : float;
  barWidth : float;
  minDomain : option float;
  maxDomain : option float;
  label : Js.value
}.

End Chart.

(** The element that the function given to [NrqlQuery] returns, by the
    component at its root. *)
Inductive View : Type :=
| Spinner
| ErrorState
| NrqlQueryError (title description : string)
| VictoryChart (chart : Chart.t).

Definition validateNRQLInput (rows : list ResultRow) : Js.outcome bool :=
  match rows with
  | [] => Js.Throws Js.TypeError
  | row :: _ =>
      let groups := groups (metadata row) in
      let numOfAggregates := List.length (filter is_function groups) in
      let numOfFacets := List.length (filter is_facet groups) in
      Js.Returns (Nat.eqb numOfAggregates 1 && Nat.ltb 0 numOfFacets)
  end.

(** [acc.add(k)] on a [Set] *)
Definition set_add (acc : StringSet) (k : string) : StringSet :=
  if existsb (String.eqb k) acc then acc else acc ++ [k].

Definition getBarCount (rows : list (list BarSegment)) : nat :=
  size
    (fold_left
       (fun acc series =>
          fold_left (fun acc barSegment => set_add acc (x barSegment))
                    series acc)
       rows []).

Section StackedBarChart.

(** [getFacetLabel] of [utils/facets] *)
Variable getFacetLabel : list Group -> string.

(** The text [typeToUnit(unitType)] of [utils/units] contributes to a
    label, and the built-in [toLocaleString] of a value. *)
Variable typeToUnit : Js.value -> string.
Variable toLocaleString : Js.value -> string.

Variable props : Props.

(** [facetGroups[facetGroups.length - 1]] is [undefined] when the row has
    no facet group, and reading its [value] throws. *)
Definition getFacetLabels (groups : list Group) : Js.outcome FacetLabels :=
  let facetGroups := filter is_facet groups in
  match nth_error facetGroups (List.length facetGroups - 1) with
  | None => Js.Throws Js.TypeError
  | Some lastGroup =>
      Js.Returns
        {| barLabel := getFacetLabel (removelast facetGroups);
           facetSegmentLabel := value lastGroup |}
  end.

(** The state of the reduction: the two-level dictionary [acc] and the
    map [colorsBySegmentLabel] the callback updates on the side. *)
Definition Breakdown : Type :=
  (Js.object (Js.object Js.value) * Js.object string)%type.

(** The callback of the reduction.  [acc[segmentLabel]] is tested for
    truthiness and [acc[segmentLabel][barLabel]] is assigned.  For a
    segment label that names a member that [acc] inherits, the code finds
    this member and assigns to a property of it, and for the bar label
    [__proto__] the assignment runs the setter of the prototype: what
    comes of it depends on the built-in objects, which the model does not
    hold, and there the model stops with [PrototypeKey]. *)
Definition breakdownStep (st : Breakdown) (curr : ResultRow)
  : Js.outcome Breakdown :=
  let '(acc, colorsBySegmentLabel) := st in
  Js.bind (getFacetLabels (groups (metadata curr))) (fun labels =>
  let barLabel := barLabel labels in
  let segmentLabel := facetSegmentLabel labels in
  if negb (visible (other props)) && String.eqb barLabel "Other"
  then Js.Returns (acc, colorsBySegmentLabel)
  else
    if Js.inherited_key segmentLabel || String.eqb barLabel "__proto__"
    then Js.Throws Js.PrototypeKey
    else
      let colorsBySegmentLabel :=
        match Js.get colorsBySegmentLabel segmentLabel with
        | Some _ => colorsBySegmentLabel
        | None => Js.set colorsBySegmentLabel segmentLabel
                         (Nrql.color (metadata curr))
        end in
      match data curr with
      | [] => Js.Throws Js.TypeError
      | point :: _ =>
          let y := Js.prop point "y" in
          match Js.get acc segmentLabel with
          | Some entry =>
              Js.Returns (Js.set acc segmentLabel (Js.set entry barLabel y),
                          colorsBySegmentLabel)
          | None =>
              Js.Returns (Js.set acc segmentLabel [(barLabel, y)],
                          colorsBySegmentLabel)
          end
      end).

(** [rawData.reduce(..., {})] *)
Fixpoint facetBreakdown (st : Breakdown) (rawData : list ResultRow)
  : Js.outcome Breakdown :=
  match rawData with
  | [] => Js.Returns st
  | curr :: rest =>
      Js.bind (breakdownStep st curr) (fun st' => facetBreakdown st' rest)
  end.

Definition segmentSeries (colorsBySegmentLabel : Js.object string)
  (unitType : Js.value) (segmentLabel : string) (entry : Js.object Js.value)
  : list BarSegment :=
  map (fun '(barLabel, value) =>
         {| label :=
              [ segmentLabel;
                String.append
                  (if Js.is_nullish value then "" else toLocaleString value)
                  (typeToUnit unitType) ];
            segmentLabel := segmentLabel;
            x := barLabel;
            y := value;
            color := match Js.get colorsBySegmentLabel segmentLabel with
                     | Some c => Js.Str c
                     | None => Js.Undefined
                     end |})
      (Js.Object_entries entry).

Definition transformData (rawData : list ResultRow)
  : Js.outcome (list (list BarSegment)) :=
  Js.bind (facetBreakdown ([], []) rawData) (fun '(acc, colors) =>
  match rawData with
  | [] => Js.Throws Js.TypeError
  | first :: _ =>
      let unitType := unit_of (metadata first) "y" in
      Js.Returns
        (map (fun '(segmentLabel, entry) =>
                segmentSeries colors unitType segmentLabel entry)
             (Js.Object_entries acc))
  end).

(** ** What the rows say, for stating the properties of the transform *)

Definition labelsOf (row : ResultRow) : Js.outcome FacetLabels :=
  getFacetLabels (groups (metadata row)).

(** The bar label of a row: the label of all its facet groups but the
    last. *)
Definition barLabelOf (row : ResultRow) : string :=
  getFacetLabel (removelast (filter is_facet (groups (metadata row)))).

(** The [y] of the first data point of a row. *)
Definition valueOf (row : ResultRow) : Js.value :=
  match data row with
  | [] => Js.Undefined
  | point :: _ => Js.prop point "y"
  end.

(** The rows that take part in the chart: all of them when the overflow
    bucket is visible, and otherwise those whose bar label is not
    ["Other"]. *)
Definition shown (row : ResultRow) : bool :=
  visible (other props) || negb (String.eqb (barLabelOf row) "Other").



Definition hasLabels (row : ResultRow) (segment bar : string) : bool :=
  match labelsOf row with
  | Js.Returns labels =>
      String.eqb (facetSegmentLabel labels) segment
      && String.eqb (barLabel labels) bar
  | Js.Throws _ => false
  end.

(** The rows the transform is followed on: a row has a facet group and,
    when it takes part in the chart, a data point and labels that name no
    inherited member. *)
Definition supported (row : ResultRow) : bool :=
  match labelsOf row with
  | Js.Returns labels =>
      negb (shown row)
      || (negb (Js.inherited_key (facetSegmentLabel labels))
          && negb (String.eqb (barLabel labels) "__proto__")
          && match data row with [] => false | _ :: _ => true end)
  | Js.Throws _ => false
  end.

(** The value the dictionary ends up with for a pair of labels: that of
    the last row with these labels that takes part in the chart, or
    [earlier] when there is none. *)
Fixpoint lastValue (rows : list ResultRow) (segment bar : string)
  (earlier : option Js.value) : option Js.value :=
  match rows with
  | [] => earlier
  | row :: rest =>
      lastValue rest segment bar
        (if shown row && hasLabels row segment bar
         then Some (valueOf row) else earlier)
  end.

(** The segment label of a row: the value of its last facet group. *)
Definition segmentLabelOf (row : ResultRow) : string :=
  match labelsOf row with
  | Js.Returns labels => facetSegmentLabel labels
  | Js.Throws _ => ""
  end.

(** The colour the side map ends up with for a segment label: that of
    the first row with this label that takes part in the chart. *)
Fixpoint firstColor (rows : list ResultRow) (segment : string)
  : option string :=
  match rows with
  | [] => None
  | row :: rest =>
      if shown row && String.eqb (segmentLabelOf row) segment
      then Some (Nrql.color (metadata row))
      else firstColor rest segment
  end.

(** ** Rendering *)

(** The built-in [parseFloat] and [this.props.yAxisConfig]. *)
Variable parseFloat : Js.value -> float.
Variable yAxisConfig : YAxisConfig.t.

(** The legend of the chart, collected in [render] from the chart data:
    one item per segment label, with the colour of the first segment that
    carries it. *)
Definition legendItems (transformedData : list (list BarSegment))
  : list Legend.Item :=
  fold_left
    (fun acc curr =>
       fold_left
         (fun acc s =>
            if existsb
                 (fun item =>
                    Js.strict_eq (Legend.label item) (Js.Str (segmentLabel s)))
                 acc
            then acc
            else acc ++ [ {| Legend.label := Js.Str (segmentLabel s);
                             Legend.color := color s |} ])
         curr acc)
    transformedData [].

(** The function [({ data, loading, error }) => ...] of [render], inside
    the function of the size [{ width, height }] that [AutoSizer] calls.
    [data[0]] of a [null] result throws, and so does reading
    [displayName] off the result of [find] when the first row has no
    aggregate. *)
Definition renderQuery (width height : float) (result : NrqlQuery.RenderProps)
  : Js.outcome View :=
  if NrqlQuery.loading result then Js.Returns Spinner
  else
    match NrqlQuery.error result with
    | Some _ => Js.Returns ErrorState
    | None =>
        match NrqlQuery.data result with
        | None => Js.Throws Js.TypeError
        | Some rows =>
            Js.bind (validateNRQLInput rows) (fun isInputValid =>
            if negb isInputValid
            then Js.Returns
                   (NrqlQueryError "Unsupported NRQL query"
                      "The provided NRQL query is not supported by this visualization. Please make sure to have 1 aggregate function and 1-2 facets.")
            else
              Js.bind (transformData rows) (fun transformedData =>
              match rows with
              | [] => Js.Throws Js.TypeError
              | first :: _ =>
                  let unitType := unit_of (metadata first) "y" in
                  match find is_function (groups (metadata first)) with
                  | None => Js.Throws Js.TypeError
                  | Some aggregate =>
                      let yAxisLabel := displayName aggregate in
                      let legendItems := legendItems transformedData in
                      let chartLeftPadding := 100%float in
                      let chartRightPadding := 25%float in
                      let barCount := getBarCount transformedData in
                      let xDomainWidth :=
                        (width - chartLeftPadding - chartRightPadding)%float in
                      let barWidth :=
                        (xDomainWidth * 0x1.3333333333333p-1
                         / Js.of_nat barCount)%float in
                      let maxDomain :=
                        if Js.truthy (YAxisConfig.max yAxisConfig)
                        then Some (parseFloat (YAxisConfig.max yAxisConfig))
                        else None in
                      let minDomain :=
                        if Js.truthy (YAxisConfig.min yAxisConfig)
                        then Some (parseFloat (YAxisConfig.min yAxisConfig))
                        else None in
                      let label :=
                        Js.or (YAxisConfig.label yAxisConfig)
                              (Js.Str (String.append yAxisLabel
                                                     (typeToUnit unitType))) in
                      Js.Returns
                        (VictoryChart
                           {| Chart.width := width;
                              Chart.height := height;
                              Chart.transformedData := transformedData;
                              Chart.unitType := unitType;
                              Chart.legendItems := legendItems;
                              Chart.barCount := barCount;
                              Chart.xDomainWidth := xDomainWidth;
                              Chart.barWidth := barWidth;
                              Chart.minDomain := minDomain;
                              Chart.maxDomain := maxDomain;
                              Chart.label := label |})
                  end
              end))
        end
    end.

End StackedBarChart.

(** [acc[segment][bar]] *)
Definition lookup2 (acc : Js.object (Js.object Js.value))
  (segment bar : string) : option Js.value :=
  match Js.get acc segment with
  | Some entry => Js.get entry bar
  | None => None
  end.

(** [acc[segment][bar] = y], creating [acc[segment]] when it is missing. *)
Definition record (acc : Js.object (Js.object Js.value))
  (segment bar : string) (y : Js.value) : Js.object (Js.object Js.value) :=
  match Js.get acc segment with
  | Some entry => Js.set acc segment (Js.set entry bar y)
  | None => Js.set acc segment [(bar, y)]
  end.

(** Both levels of the dictionary have pairwise distinct keys. *)
Definition wf2 (acc : Js.object (Js.object Js.value)) : Prop :=
  Js.wf acc /\
  forall segment entry, Js.get acc segment = Some entry -> Js.wf entry.

(** The chart data [out] shows the value [v] in the segment [segment] of
    the bar [bar]. *)
Definition shows (out : list (list BarSegment)) (segment bar : string)
  (v : Js.value) : Prop :=
  exists series s,
    In series out /\ In s series /\
    segmentLabel s = segment /\ x s = bar /\ y s = v.

(** The bar labels of the chart data, series after series. *)
Definition barLabels (out : list (list BarSegment)) : list string :=
  flat_map (map x) out.

(** The segment label of a series of the chart data: that of its first
    segment. *)
Definition segmentLabels (out : list (list BarSegment)) : list string :=
  flat_map (fun series =>
              match series with
              | [] => []
              | s :: _ => [segmentLabel s]
              end) out.

End StackedBar.

(* ================================================================== *)
(** * The scatter plot *)

Module Scatter.

(** A point of the series is an object whose properties are among
    [facetGroupName], [color], [x], [y], [z] and the unit types and
    display names of the three axes. *)
Definition Point : Type := Js.object Js.value.

Record Range : Type := mkRange {
  xMin : Js.value;
  xMax : Js.value;
  yMin : Js.value;
  yMax : Js.value
}.

Record Transformed : Type := mkTransformed {
  series : list Point;
  range : Range
}.

(** [this.props.other] *)
Record Other : Type := mkOther {
  visible : bool
}.

Record Props : Type := mkProps {
  other : Other
}.

(** The result [{label, tickCount, tickFormat}] of [getAxisLabelProps]. *)
Module AxisLabelProps.

Record t : Type := mk {
  label : string;
  tickCount : float;
  tickFormat : float -> string
}.

End AxisLabelProps.

(** The chart that the function given to [NrqlQuery] returns when there
    is something to plot, by the values computed from the query result and
    the size of the chart that its elements are given: the points, the
    text of their tooltips, the props of the two axes, the items of the
    legend and whether the legend is there at all. *)
Module Chart.

Record t : Type := mk {
  width : float;
  height : float;
  series : list Point;
  labels : Point -> list Js.value;
  xAxisLabelProps : AxisLabelProps.t;
  yAxisLabelProps : AxisLabelProps.t;
  legendItems : list Legend.Item;
  legendShown : bool
}.

End Chart.

(** The element that the function given to [NrqlQuery] returns, by the
    component at its root. *)
Inductive View : Type :=
| Spinner
| NrqlQueryError (title description : string)
| NoDataState
| VictoryChart (chart : Chart.t).

Definition entryHasNulls (entry : Point) (queryHasZField : bool) : bool :=
  let axisValues := [Js.prop entry "x"; Js.prop entry "y"] in
  let axisValues :=
    if queryHasZField then axisValues ++ [Js.prop entry "z"] else axisValues in
  existsb Js.is_nullish axisValues.

(** [names.indexOf(v)]: strict equality, so [undefined] is never found. *)
Fixpoint indexOf (names : list string) (v : Js.value) : option nat :=
  match names with
  | [] => None
  | n :: rest =>
      match v with
      | Js.Str s =>
          if String.eqb n s then Some 0
          else option_map S (indexOf rest v)
      | _ => None
      end
  end.

(** [o[k].p = v] for each [(p, v)] of [ps], in order, on the entry [k] of
    the dictionary [o]. *)
Definition assign (o : Js.object Point) (k : string)
  (ps : list (string * Js.value)) : Js.object Point :=
  match Js.get o k with
  | Some entry =>
      Js.set o k (fold_left (fun e '(p, v) => Js.set e p v) ps entry)
  | None => o
  end.

(** An attribute name read off [Array.from(uniqueNonAggregates)]: past the
    end it is [undefined], and as a property key [undefined] reads the
    property named ["undefined"]. *)
Definition attribute_key (a : option string) : string :=
  match a with Some s => s | None => "undefined" end.

Definition attribute_value (a : option string) : Js.value :=
  match a with Some s => Js.Str s | None => Js.Undefined end.

Section ScatterPlotChart.

(** The grouping classifier of [utils/nrql-validation-helper] and
    [getFacetLabel] of [utils/facets]. *)
Variable getUniqueAggregatesAndFacets : list ResultRow -> StringSet * StringSet.
Variable getUniqueNonAggregates : list ResultRow -> StringSet.
Variable getFacetLabel : list Group -> string.

(** The built-in StringToNumber, behind [Math.min] and [Math.max]. *)
Variable StringToNumber : string -> float.

Variable props : Props.

Definition Math_min (l : list Js.value) : Js.value :=
  Js.Num (Js.Math_min (map (Js.ToNumber StringToNumber) l)).

Definition Math_max (l : list Js.value) : Js.value :=
  Js.Num (Js.Math_max (map (Js.ToNumber StringToNumber) l)).

(** The callback of the reduction in [getAggregatesData].
    [facetGroupName in acc] also finds the members that [acc] inherits
    from [Object.prototype].  For a facet label that names one, no entry
    is created, and the assignments of the [switch] land on the inherited
    member: a built-in function, whose new properties nothing reads, so
    that the dictionary is left as it was.  The label [__proto__] is the
    exception: it names [Object.prototype] itself, the assignments change
    what every object inherits, and the model does not follow them. *)
Definition facetGroupStep (functionDisplayNames : list string)
  (acc : Js.object Point) (row : ResultRow) : Js.outcome (Js.object Point) :=
  let showOther := visible (other props) in
  let facetGroupName := getFacetLabel (groups (metadata row)) in
  if negb showOther && String.eqb facetGroupName "Other"
  then Js.Returns acc
  else
    let dataValue :=
      match data row with
      | [] => Js.Undefined
      | point :: _ => Js.prop point "y"
      end in
    let unitType := unit_of (metadata row) "y" in
    let aggregateFunction := hd_error (filter is_function (groups (metadata row))) in
    let functionDisplayName :=
      match aggregateFunction with
      | Some g => Js.Str (displayName g)
      | None => Js.Undefined
      end in
    let functionPosition := indexOf functionDisplayNames functionDisplayName in
    if Js.inherited_key facetGroupName
    then if String.eqb facetGroupName "__proto__"
         then Js.Throws Js.PrototypeKey
         else Js.Returns acc
    else
      let acc :=
        match Js.get acc facetGroupName with
        | Some _ => acc
        | None => Js.set acc facetGroupName []
        end in
      Js.Returns
        match functionPosition with
        | Some 0 =>
            assign acc facetGroupName
              [ ("color", Js.Str (color (metadata row)));
                ("x", dataValue);
                ("xUnitType", unitType);
                ("xDisplayName", functionDisplayName) ]
        | Some 1 =>
            assign acc facetGroupName
              [ ("y", dataValue);
                ("yUnitType", unitType);
                ("yDisplayName", functionDisplayName) ]
        | Some 2 =>
            assign acc facetGroupName
              [ ("z", dataValue);
                ("zUnitType", unitType);
                ("zDisplayName", functionDisplayName) ]
        | _ => acc
        end.

(** [rawData.reduce(..., {})] *)
Fixpoint facetGroupData (functionDisplayNames : list string)
  (acc : Js.object Point) (rawData : list ResultRow)
  : Js.outcome (Js.object Point) :=
  match rawData with
  | [] => Js.Returns acc
  | row :: rest =>
      Js.bind (facetGroupStep functionDisplayNames acc row)
              (fun acc' => facetGroupData functionDisplayNames acc' rest)
  end.

(** [{facetGroupName, ...facetGroupData}]: the spread properties are
    among [color], [x], [y], [z] and their unit types and display names,
    so they follow [facetGroupName]. *)
Definition groupSeries (grouped : Js.object Point) : list Point :=
  map (fun '(facetGroupName, facetGroupData) =>
         ("facetGroupName", Js.Str facetGroupName) :: facetGroupData)
      (Js.Object_entries grouped).

Definition rangeOf (seriesWithoutNulls : list Point) : Range :=
  let xValues := map (fun e => Js.prop e "x") seriesWithoutNulls in
  let yValues := map (fun e => Js.prop e "y") seriesWithoutNulls in
  {| xMin := Math_min xValues;
     xMax := Math_max xValues;
     yMin := Math_min yValues;
     yMax := Math_max yValues |}.

Definition getAggregatesData (rawData : list ResultRow)
  (functionDisplayNames : list string) : Js.outcome Transformed :=
  let queryHasZField := Nat.ltb 2 (List.length functionDisplayNames) in
  Js.bind (facetGroupData functionDisplayNames [] rawData) (fun grouped =>
  let series := groupSeries grouped in
  let seriesWithoutNulls :=
    filter (fun entry => negb (entryHasNulls entry queryHasZField)) series in
  Js.Returns
    {| series := seriesWithoutNulls;
       range := rangeOf seriesWithoutNulls |}).

(** The callback of [data.map] in [getNonAggregatesData] returns the
    datapoint and widens the four running bounds on the side.  The
    datapoint: *)
Definition datapointOf (xAttributeName yAttributeName zAttributeName : option string)
  (xUnitType yUnitType zUnitType : Js.value) (color : string)
  (point : DataPoint) : Point :=
  let x := Js.prop point (attribute_key xAttributeName) in
  let y := Js.prop point (attribute_key yAttributeName) in
  let datapoint :=
    [ ("x", x);
      ("y", y);
      ("xDisplayName", attribute_value xAttributeName);
      ("yDisplayName", attribute_value yAttributeName);
      ("xUnitType", xUnitType);
      ("yUnitType", yUnitType);
      ("color", Js.Str color) ] in
  let z := Js.prop point (attribute_key zAttributeName) in
  if Js.truthy z
  then datapoint ++ [ ("z", z);
                      ("zDisplayName", attribute_value zAttributeName);
                      ("zUnitType", zUnitType) ]
  else datapoint.

(** The bounds after a point: [xMin = Math.min(xMin || x, x)] and so on. *)
Definition widen (xAttributeName yAttributeName : option string)
  (bounds : Range) (point : DataPoint) : Range :=
  let x := Js.prop point (attribute_key xAttributeName) in
  let y := Js.prop point (attribute_key yAttributeName) in
  {| xMin := Math_min [Js.or (xMin bounds) x; x];
     xMax := Math_max [Js.or (xMax bounds) x; x];
     yMin := Math_min [Js.or (yMin bounds) y; y];
     yMax := Math_max [Js.or (yMax bounds) y; y] |}.

Definition pointStep (xAttributeName yAttributeName zAttributeName : option string)
  (xUnitType yUnitType zUnitType : Js.value) (color : string)
  (bounds : Range) (point : DataPoint) : Point * Range :=
  (datapointOf xAttributeName yAttributeName zAttributeName
               xUnitType yUnitType zUnitType color point,
   widen xAttributeName yAttributeName bounds point).

(** [data.map(...)], threading the running bounds. *)
Fixpoint mapPoints (step : Range -> DataPoint -> Point * Range)
  (bounds : Range) (points : list DataPoint) : list Point * Range :=
  match points with
  | [] => ([], bounds)
  | point :: rest =>
      let '(datapoint, bounds') := step bounds point in
      let '(series, bounds'') := mapPoints step bounds' rest in
      (datapoint :: series, bounds'')
  end.

(** [rawData[0]] of an empty result is [undefined] and destructuring it
    throws.  The attribute names are used as property keys of the data
    points and of [units_data].  For a name of a member that these objects
    inherit, the code reads the inherited member, a built-in object that
    is none of the values of the model, and there the model stops with
    [PrototypeKey]. *)
Definition getNonAggregatesData (rawData : list ResultRow)
  : Js.outcome Transformed :=
  let uniqueNonAggregates := getUniqueNonAggregates rawData in
  let queryHasZField := Nat.ltb 2 (size uniqueNonAggregates) in
  let attributeNames := uniqueNonAggregates in
  let xAttributeName := nth_error attributeNames 0 in
  let yAttributeName := nth_error attributeNames 1 in
  let zAttributeName := nth_error attributeNames 2 in
  match rawData with
  | [] => Js.Throws Js.TypeError
  | row :: _ =>
      if existsb Js.inherited_key
           [ attribute_key xAttributeName; attribute_key yAttributeName;
             attribute_key zAttributeName ]
      then Js.Throws Js.PrototypeKey
      else
        let xUnitType := unit_of (metadata row) (attribute_key xAttributeName) in
        let yUnitType := unit_of (metadata row) (attribute_key yAttributeName) in
        let zUnitType := unit_of (metadata row) (attribute_key zAttributeName) in
        let color := color (metadata row) in
        let '(series, bounds) :=
          mapPoints
            (pointStep xAttributeName yAttributeName zAttributeName
                       xUnitType yUnitType zUnitType color)
            {| xMin := Js.Undefined; xMax := Js.Undefined;
               yMin := Js.Undefined; yMax := Js.Undefined |}
            (data row) in
        let seriesWithoutNulls :=
          filter (fun entry => negb (entryHasNulls entry queryHasZField))
                 series in
        Js.Returns {| series := seriesWithoutNulls; range := bounds |}
  end.

(** [null] is [None]. *)
Definition transformData (rows : list ResultRow)
  : Js.outcome (option Transformed) :=
  let uniqueNonAggregates := getUniqueNonAggregates rows in
  if Nat.ltb 1 (size uniqueNonAggregates)
  then Js.bind (getNonAggregatesData rows) (fun r => Js.Returns (Some r))
  else
    let uniqueAggregates := fst (getUniqueAggregatesAndFacets rows) in
    if Nat.ltb 1 (size uniqueAggregates)
    then Js.bind (getAggregatesData rows uniqueAggregates)
                 (fun r => Js.Returns (Some r))
    else Js.Returns None.

Definition nrqlInputIsValid (rows : list ResultRow) : bool :=
  let uniqueAggregates := fst (getUniqueAggregatesAndFacets rows) in
  let uniqueNonAggregates := getUniqueNonAggregates rows in
  Nat.leb 2 (size uniqueAggregates) || Nat.leb 2 (size uniqueNonAggregates).

(** ** What the rows say, for stating the properties of the transform *)

(** The rows that take part in the aggregate chart: all of them when the
    overflow bucket is visible, and otherwise those whose facet label is
    not ["Other"]. *)
Definition shown (row : ResultRow) : bool :=
  visible (other props)
  || negb (String.eqb (getFacetLabel (groups (metadata row))) "Other").

(** The rows that the grouping gives an entry to: the facet label of a
    row that takes part in the chart names no inherited member. *)
Definition supported (row : ResultRow) : bool :=
  negb (shown row)
  || negb (Js.inherited_key (getFacetLabel (groups (metadata row)))).

(** The value of a row of an aggregate query: the [y] of its first data
    point. *)
Definition dataValueOf (row : ResultRow) : Js.value :=
  match data row with
  | [] => Js.Undefined
  | point :: _ => Js.prop point "y"
  end.

(** The place of the aggregate of a row among the declared display
    names. *)
Definition positionOf (functionDisplayNames : list string) (row : ResultRow)
  : option nat :=
  indexOf functionDisplayNames
    match hd_error (filter is_function (groups (metadata row))) with
    | Some g => Js.Str (displayName g)
    | None => Js.Undefined
    end.

(** The properties that the callback of the reduction assigns to the
    entry of the facet label of a row, in order. *)
Definition assigned (functionDisplayNames : list string) (row : ResultRow)
  : list (string * Js.value) :=
  let functionDisplayName :=
    match hd_error (filter is_function (groups (metadata row))) with
    | Some g => Js.Str (displayName g)
    | None => Js.Undefined
    end in
  match positionOf functionDisplayNames row with
  | Some 0 =>
      [ ("color", Js.Str (color (metadata row)));
        ("x", dataValueOf row);
        ("xUnitType", unit_of (metadata row) "y");
        ("xDisplayName", functionDisplayName) ]
  | Some 1 =>
      [ ("y", dataValueOf row);
        ("yUnitType", unit_of (metadata row) "y");
        ("yDisplayName", functionDisplayName) ]
  | Some 2 =>
      [ ("z", dataValueOf row);
        ("zUnitType", unit_of (metadata row) "y");
        ("zDisplayName", functionDisplayName) ]
  | _ => []
  end.

(** The row takes part in the chart, has the facet label [facet] and the
    aggregate declared at [position]. *)
Definition plots (functionDisplayNames : list string) (facet : string)
  (position : nat) (row : ResultRow) : bool :=
  shown row
  && String.eqb (getFacetLabel (groups (metadata row))) facet
  && match positionOf functionDisplayNames row with
     | Some p => Nat.eqb p position
     | None => false
     end.

(** The last row of a facet label and an aggregate. *)
Definition lastRow (functionDisplayNames : list string)
  (rows : list ResultRow) (facet : string) (position : nat)
  : option ResultRow :=
  find (plots functionDisplayNames facet position) (rev rows).

(** ** Tooltips, axes, legend and rendering *)

(** [typeToUnit] and [formatNumberTicks] of [utils/units], and the
    built-ins [toLocaleString], Number::toString and [Math.round]. *)
Variable typeToUnit : Js.value -> Js.value.
Variable formatNumberTicks : Js.value -> float -> float -> string.
Variable toLocaleString : Js.value -> string.
Variable NumberToString : float -> string.
Variable Math_round : float -> float.

(** [getAxisLabelProps({ displayName, unitType, min, max, tickCount })];
    [formatNumberTicks] is given [{ unitType, tick, tickIncrement }]. *)
Definition getAxisLabelProps (displayName unitType min max : Js.value)
  (tickCount : float) : AxisLabelProps.t :=
  {| AxisLabelProps.label :=
       String.append
         (Js.ToString NumberToString displayName)
         (Js.ToString NumberToString
            (typeToUnit (Js.or unitType (Js.Str "UNKNOWN"))));
     AxisLabelProps.tickCount := tickCount;
     AxisLabelProps.tickFormat :=
       fun tick =>
         formatNumberTicks unitType tick
           ((Js.ToNumber StringToNumber max - Js.ToNumber StringToNumber min)
            / tickCount)%float |}.

Definition valueLabel (displayName value unitType : Js.value) : string :=
  String.append
    (Js.ToString NumberToString displayName)
    (String.append ": "
       (String.append
          (if Js.is_nullish value then "" else toLocaleString value)
          (Js.ToString NumberToString
             (Js.coalesce (typeToUnit unitType) (Js.Str ""))))).

Definition tooltipLabel (datum : Point) : list Js.value :=
  let lines := [] in
  let lines :=
    if Js.has datum "facetGroupName"
    then lines ++ [Js.prop datum "facetGroupName"]
    else lines in
  let lines :=
    lines ++ [Js.Str (valueLabel (Js.prop datum "xDisplayName")
                                 (Js.prop datum "x")
                                 (Js.prop datum "xUnitType"))] in
  let lines :=
    lines ++ [Js.Str (valueLabel (Js.prop datum "yDisplayName")
                                 (Js.prop datum "y")
                                 (Js.prop datum "yUnitType"))] in
  if Js.has datum "z"
  then lines ++ [Js.Str (valueLabel (Js.prop datum "zDisplayName")
                                    (Js.prop datum "z")
                                    (Js.prop datum "zUnitType"))]
  else lines.

(** The legend of the chart, collected in [render] from the series: one
    item per facet group name, with the colour of the first point that
    carries it. *)
Definition legendItems (series : list Point) : list Legend.Item :=
  fold_left
    (fun acc curr =>
       if existsb
            (fun item =>
               Js.strict_eq (Legend.label item) (Js.prop curr "facetGroupName"))
            acc
       then acc
       else acc ++ [ {| Legend.label := Js.prop curr "facetGroupName";
                        Legend.color := Js.prop curr "color" |} ])
    series [].

(** The function [({ data, loading, error }) => ...] of [render], inside
    the function of the size [{ width, height }] that [AutoSizer] calls.
    [data.length] of a [null] result throws, and so does destructuring a
    [null] output of the transform. *)
Definition renderQuery (width height : float) (result : NrqlQuery.RenderProps)
  : Js.outcome View :=
  if NrqlQuery.loading result then Js.Returns Spinner
  else
    match NrqlQuery.error result, NrqlQuery.data result with
    | Some message, None =>
        Js.Returns (NrqlQueryError "NRQL Syntax Error" message)
    | None, None => Js.Throws Js.TypeError
    | _, Some rows =>
        if Nat.eqb (List.length rows) 0 then Js.Returns NoDataState
        else if negb (nrqlInputIsValid rows)
        then Js.Returns
               (NrqlQueryError "Unsupported NRQL query"
                  "The provided NRQL query is not supported by this visualization. This chart supports non-aggregate and aggregate queries with an optional FACET clause. Please make sure to have 2-3 aggregate functions or 2-3 attributes in the SELECT clause.")
        else
          let uniqueAggregates := fst (getUniqueAggregatesAndFacets rows) in
          Js.bind (transformData rows) (fun transformed =>
          match transformed with
          | None => Js.Throws Js.TypeError
          | Some transformed =>
              let series := series transformed in
              let range := range transformed in
              match series with
              | [] => Js.Returns NoDataState
              | first :: _ =>
                  let legendItems := legendItems series in
                  let yTickLabelWidth := 45%float in
                  let yAxisPadding := 16%float in
                  let chartLeftPadding :=
                    (yTickLabelWidth + yAxisPadding + 25)%float in
                  let chartRightPadding := 25%float in
                  let legendHeight := 50%float in
                  let xAxisLabelProps :=
                    getAxisLabelProps
                      (Js.prop first "xDisplayName")
                      (Js.prop first "xUnitType")
                      (xMin range) (xMax range)
                      (Math_round
                         ((width - chartLeftPadding - chartRightPadding)
                          / 100)%float) in
                  let yAxisLabelProps :=
                    getAxisLabelProps
                      (Js.prop first "yDisplayName")
                      (Js.prop first "yUnitType")
                      (yMin range) (yMax range)
                      (Math_round ((height - legendHeight) / 70)%float) in
                  Js.Returns
                    (VictoryChart
                       {| Chart.width := width;
                          Chart.height := height;
                          Chart.series := series;
                          Chart.labels := tooltipLabel;
                          Chart.xAxisLabelProps := xAxisLabelProps;
                          Chart.yAxisLabelProps := yAxisLabelProps;
                          Chart.legendItems := legendItems;
                          Chart.legendShown :=
                            Nat.ltb 1 (size uniqueAggregates) |})
              end
          end)
    end.

End ScatterPlotChart.
End Scatter.

(* ================================================================== *)
(** * The imported helpers, for the worked examples *)

Module Helpers.

(** [acc.add(k)] on a [Set] of strings *)
Definition add (acc : StringSet) (k : string) : StringSet :=
  if existsb (String.eqb k) acc then acc else acc ++ [k].

(** Modelled from the spec: [getFacetLabel] of [utils/facets] is not among
    the embedded sources; the label of a row is the comma-joined values of
    its facet groups. *)
Definition getFacetLabel (groups : list Group) : string :=
  String.concat ", " (map value (filter is_facet groups)).

(** Modelled from the spec: [getUniqueAggregatesAndFacets] of
    [utils/nrql-validation-helper] is not among the embedded sources; it
    scans the groups of every row and keeps one identity per distinct
    function-typed group and one per distinct facet-typed group.  The
    identity of a group is its display name, which is what the scatter plot
    looks up in [uniqueAggregates]. *)
Definition getUniqueAggregatesAndFacets (rows : list ResultRow)
  : StringSet * StringSet :=
  let allGroups := flat_map (fun row => groups (metadata row)) rows in
  (fold_left add (map displayName (filter is_function allGroups)) [],
   fold_left add (map displayName (filter is_facet allGroups)) []).

(** Modelled from the spec: [getUniqueNonAggregates] of
    [utils/nrql-validation-helper] is not among the embedded sources; it
    keeps one identity per distinct attribute key present in the data
    points when no aggregation is used. *)
Definition getUniqueNonAggregates (rows : list ResultRow) : StringSet :=
  let allGroups := flat_map (fun row => groups (metadata row)) rows in
  if existsb is_function allGroups then []
  else fold_left add (map fst (flat_map (fun row => List.concat (data row)) rows)) [].

(** The built-in [parseFloat] on the arguments the examples pass: a number
    reads back as itself, the numeral ["50"] as [50], and [undefined] or
    text that starts with no numeral as [NaN]. *)
Definition parseFloat (v : Js.value) : float :=
  match v with
  | Js.Num n => n
  | Js.Str "50" => 50%float
  | _ => PrimFloat.nan
  end.

(** The built-in StringToNumber on text that holds no numeral: [0] for the
    empty string and [NaN] otherwise. *)
Definition StringToNumber (s : string) : float :=
  if String.eqb s "" then PrimFloat.zero else PrimFloat.nan.

(** Modelled from the spec: [typeToUnit] of [utils/units] is not among the
    embedded sources; for a unit type it does not know, like the missing
    unit types of the examples, it gives the empty string. *)
Definition typeToUnit (unitType : Js.value) : string := "".

(** The decimal numeral of a natural number. *)
Definition decimal (n : N) : string := NilZero.string_of_uint (N.to_uint n).

(** The digits of an integer in groups of three, from the right:
    ["1234567"] becomes ["1,234,567"]. *)
Fixpoint grouped (digits : string) : string :=
  match digits with
  | EmptyString => EmptyString
  | String c rest =>
      String c
        (if (0 <? String.length rest)%nat
            && (String.length rest mod 3 =? 0)%nat
         then String ","%char (grouped rest)
         else grouped rest)
  end.

(** The fraction of a number of thousandths, without trailing zeros. *)
Definition fraction (thousandths : N) : string :=
  let f := (thousandths mod 1000)%N in
  let two n := String.append (if (n <? 10)%N then "0" else "") (decimal n) in
  if (f =? 0)%N then ""
  else if negb (f mod 10 =? 0)%N
       then String.append "." (String.append (if (f <? 100)%N then "0" else "") (two f))
       else if negb (f mod 100 =? 0)%N
            then String.append "." (two (f / 10)%N)
            else String.append "." (decimal (f / 100)%N).

(** The number of thousandths nearest to [m * 2 ^ e], a half counting
    up. *)
Definition thousandths (m : positive) (e : Z) : N :=
  Z.to_N
    (if (0 <=? e)%Z then 1000 * Z.pos m * 2 ^ e
     else (2 * 1000 * Z.pos m + 2 ^ (- e)) / (2 * 2 ^ (- e)))%Z.

(** The built-in [toLocaleString] without arguments, for the locale
    [en-US].  A string prints as itself.  A number prints with at most
    three fraction digits, rounded from its exact value with a half going
    away from zero, the integer digits in groups of three; the sign of a
    negative number stays when it rounds to zero.  The code calls it on no
    [null] or [undefined] value. *)
Definition toLocaleString (v : Js.value) : string :=
  match v with
  | Js.Undefined | Js.Null => ""
  | Js.Str s => s
  | Js.Num n =>
      match Prim2SF n with
      | S754_nan => "NaN"
      | S754_infinity sign => if sign then "-∞" else "∞"
      | S754_zero sign => if sign then "-0" else "0"
      | S754_finite sign m e =>
          let t := thousandths m e in
          String.append (if sign then "-" else "")
            (String.append (grouped (decimal (t / 1000)%N)) (fraction t))
      end
  end.

(** Modelled from the spec: [typeToUnit] of [utils/units] is not among the
    embedded sources; where the scatter plot reads it, it may give
    nothing, and for a unit type it does not know, like the missing unit
    types of the examples, it gives the empty string. *)
Definition unitText (unitType : Js.value) : Js.value := Js.Str "".

(** The built-in Number::toString plays no part in the examples, whose
    interpolated values are strings. *)
Definition NumberToString (n : float) : string := "".

(** A result row of an aggregate query: its groups, colour and the [y] of
    its single data point. *)
Definition aggregateRow (color : string) (groups : list Group) (y : Js.value)
  : ResultRow :=
  {| data := [[("y", y)]];
     metadata := {| color := color; name := ""; groups := groups;
                    units_data := [] |} |}.

Definition fn (displayName : string) : Group :=
  {| type := "function"; value := displayName; displayName := displayName |}.

Definition facet (field value : string) : Group :=
  {| type := "facet"; value := value; displayName := field |}.

End Helpers.


(* ================================================================== *)
(** * Query results of the worked examples *)

Module Examples.

Import Helpers.

(** ** Gauge *)

Definition gaugeProps (criticalThreshold : Js.value) (highValuesAreSuccess : bool)
  : Gauge.Props :=
  {| Gauge.thresholds :=
       {| Gauge.criticalThreshold := criticalThreshold;
          Gauge.highValuesAreSuccess := highValuesAreSuccess |} |}.

(** The result of [SELECT percentage(...)]: one row, one data point. *)
Definition gaugeRows (y : float) : list ResultRow :=
  [ aggregateRow "blue" [fn "percentage"] (Js.Num y) ].

(** A second row of the same aggregate that holds two data points. *)
Definition gaugeRowsWithLongerRow : list ResultRow :=
  [ aggregateRow "blue" [fn "count"] (Js.Num 1);
    {| data := [[("y", Js.Num 1)]; [("y", Js.Num 2)]];
       metadata := {| color := "grey"; name := ""; groups := [fn "count"];
                      units_data := [] |} |} ].

(** The double nearest to [-1.1]. *)
Definition minus_1_1 : float := (-0x1.199999999999ap+0)%float.

(** ** Stacked bar *)

Definition otherVisible (visible : bool) : StackedBar.Props :=
  {| StackedBar.other := {| StackedBar.visible := visible |} |}.

Definition facetRow (color region host : string) (y : float) : ResultRow :=
  aggregateRow color
    [fn "avg(duration)"; facet "region" region; facet "host" host]
    (Js.Num y).

(** [avg(duration)] by [region] and [host]: the rows
    [{region: "us", host: "a", y: 5}] and [{region: "us", host: "b", y: 7}]. *)
Definition twoHosts : list ResultRow :=
  [ facetRow "red" "us" "a" 5; facetRow "green" "us" "b" 7 ].

(** Two rows that derive the same pair of labels. *)
Definition sameLabels : list ResultRow :=
  [ facetRow "red" "us" "a" 5; facetRow "green" "us" "a" 7 ].

(** Two rows of the overflow bucket that derive the same pair of
    labels. *)
Definition overflowPair : list ResultRow :=
  [ facetRow "red" "Other" "a" 5; facetRow "green" "Other" "a" 7 ].

(** Rows of the overflow bucket among others. *)
Definition withOverflow : list ResultRow :=
  [ facetRow "red" "us" "a" 5;
    facetRow "grey" "Other" "a" 1;
    facetRow "green" "eu" "b" 7;
    facetRow "grey" "Other" "b" 2 ].

(** Hosts named by numbers among others: [b], [10], [9]. *)
Definition numberedHosts : list ResultRow :=
  [ facetRow "red" "us" "b" 1;
    facetRow "green" "us" "10" 2;
    facetRow "blue" "us" "9" 3 ].

(** Two rows of the host [a] with different colours. *)
Definition repainted : list ResultRow :=
  [ facetRow "red" "us" "a" 5; facetRow "green" "eu" "a" 7 ].

(** A count by response status alone: the rows of [404] and [200]. *)
Definition statusRow (color status : string) (y : float) : ResultRow :=
  aggregateRow color [fn "count"; facet "status" status] (Js.Num y).

Definition byStatus : list ResultRow :=
  [ statusRow "red" "404" 7; statusRow "green" "200" 5 ].

(** The segment of the bar [bar] in the series [segment], with the text
    of its value in the tooltip. *)
Definition segment (color segment bar : string) (y : float) (text : string)
  : StackedBar.BarSegment :=
  {| StackedBar.label := [segment; text];
     StackedBar.segmentLabel := segment;
     StackedBar.x := bar;
     StackedBar.y := Js.Num y;
     StackedBar.color := Js.Str color |}.

(** ** Scatter plot *)

Definition scatterOther (visible : bool) : Scatter.Props :=
  {| Scatter.other := {| Scatter.visible := visible |} |}.

(** A non-aggregate result: one row that holds all the data points. *)
Definition attributeRow (points : list DataPoint) : ResultRow :=
  {| data := points;
     metadata := {| color := "blue"; name := ""; groups := [];
                    units_data := [] |} |}.

Definition attributeRows (points : list DataPoint) : list ResultRow :=
  [ attributeRow points ].

(** The double nearest to [0.2]. *)
Definition zero_2 : float := 0x1.999999999999ap-3%float.

(** [SELECT duration, externalDuration]: the second point has no [y]. *)
Definition twoAttributes : list ResultRow :=
  attributeRows
    [ [("duration", Js.Num 1); ("externalDuration", Js.Num zero_2)];
      [("duration", Js.Num 2); ("externalDuration", Js.Null)] ].

(** [SELECT duration, externalDuration, databaseDuration]: the second
    point has [x] and [y] and a [null] third value. *)
Definition threeAttributes : list ResultRow :=
  attributeRows
    [ [("duration", Js.Num 1); ("externalDuration", Js.Num 2);
       ("databaseDuration", Js.Num 3)];
      [("duration", Js.Num 4); ("externalDuration", Js.Num 5);
       ("databaseDuration", Js.Null)] ].

(** The second point is dropped for its [null] [y]; its [x] is [100]. *)
Definition droppedPoint : list ResultRow :=
  attributeRows
    [ [("duration", Js.Num 1); ("externalDuration", Js.Num 2)];
      [("duration", Js.Num 100); ("externalDuration", Js.Null)] ].

(** Both points are retained; the first [x] is [0]. *)
Definition zeroFirst : list ResultRow :=
  attributeRows
    [ [("duration", Js.Num 0); ("externalDuration", Js.Num 1)];
      [("duration", Js.Num 5); ("externalDuration", Js.Num 2)] ].

(** Retained points with the [x] values [2], [5] and [1]. *)
Definition threePoints : list ResultRow :=
  attributeRows
    [ [("duration", Js.Num 2); ("externalDuration", Js.Num 10)];
      [("duration", Js.Num 5); ("externalDuration", Js.Num 30)];
      [("duration", Js.Num 1); ("externalDuration", Js.Num 20)] ].

Definition countRow (appName : string) (y : Js.value) : ResultRow :=
  aggregateRow "blue" [fn "count"; facet "appName" appName] y.

Definition averageRow (appName : string) (y : Js.value) : ResultRow :=
  aggregateRow "blue" [fn "average"; facet "appName" appName] y.

(** a count and an average by [appName] over three
    applications; the average of the third is [null]. *)
Definition threeFacets : list ResultRow :=
  [ countRow "a" (Js.Num 2); averageRow "a" (Js.Num 10);
    countRow "b" (Js.Num 5); averageRow "b" (Js.Num 30);
    countRow "c" (Js.Num 100); averageRow "c" Js.Null ].

(** A count and an average by method name, for the method [valueOf]. *)
Definition byMethod (method : string) : list ResultRow :=
  [ aggregateRow "blue" [fn "count"; facet "method" method] (Js.Num 2);
    aggregateRow "blue" [fn "average"; facet "method" method] (Js.Num 10) ].

(** [SELECT duration, externalDuration, databaseDuration]: the first
    point has a third value of [0]. *)
Definition zeroThird : list ResultRow :=
  attributeRows
    [ [("duration", Js.Num 1); ("externalDuration", Js.Num 2);
       ("databaseDuration", Js.Num 0)];
      [("duration", Js.Num 4); ("externalDuration", Js.Num 5);
       ("databaseDuration", Js.Num 6)] ].

(** A point of the aggregate mode without unit types. *)
Definition facetPoint (appName : string) (x y : float) : Scatter.Point :=
  [ ("facetGroupName", Js.Str appName);
    ("color", Js.Str "blue");
    ("x", Js.Num x);
    ("xUnitType", Js.Undefined);
    ("xDisplayName", Js.Str "count");
    ("y", Js.Num y);
    ("yUnitType", Js.Undefined);
    ("yDisplayName", Js.Str "average") ].

(** A point of the non-aggregate mode without unit types. *)
Definition attributePoint (x y : Js.value) : Scatter.Point :=
  [ ("x", x);
    ("y", y);
    ("xDisplayName", Js.Str "duration");
    ("yDisplayName", Js.Str "externalDuration");
    ("xUnitType", Js.Undefined);
    ("yUnitType", Js.Undefined);
    ("color", Js.Str "blue") ].

End Examples.

(* ================================================================== *)
(** * Doubles: what rounding does to the slices of the gauge *)

Module DoubleFacts.

Local Open Scope Z_scope.

(** ** Shifting a mantissa to the right *)

Lemma iter_pos_nat {A : Type} (f : A -> A) (p : positive) :
  forall x, iter_pos f p x = Nat.iter (Pos.to_nat p) f x.
Proof.
  induction p as [p IH|p IH|]; intros x; cbn [iter_pos].
  - rewrite !IH, Pos2Nat.inj_xI.
    replace (S (2 * Pos.to_nat p))
      with ((Pos.to_nat p + Pos.to_nat p) + 1)%nat by lia.
    now rewrite !Nat.iter_add.
  - rewrite !IH, Pos2Nat.inj_xO.
    replace (2 * Pos.to_nat p)%nat
      with (Pos.to_nat p + Pos.to_nat p)%nat by lia.
    now rewrite Nat.iter_add.
  - reflexivity.
Qed.

Lemma shr_1_m (mrs : shr_record) :
  0 <= shr_m mrs -> shr_m (shr_1 mrs) = shr_m mrs / 2.
Proof.
  destruct mrs as [m r s]. simpl. intros Hm.
  destruct m as [|[p|p|]|p]; simpl; try reflexivity; try lia.
  - rewrite Pos2Z.inj_xI.
    apply Z.div_unique with (r := 1); lia.
  - rewrite Pos2Z.inj_xO.
    apply Z.div_unique with (r := 0); lia.
Qed.

Lemma iter_shr_1_m (n : nat) :
  forall mrs,
    0 <= shr_m mrs ->
    shr_m (Nat.iter n shr_1 mrs) = shr_m mrs / 2 ^ Z.of_nat n.
Proof.
  induction n as [|n IH]; intros mrs Hm.
  - simpl. now rewrite Z.div_1_r.
  - rewrite Nat2Z.inj_succ, Z.pow_succ_r by lia.
    change (Nat.iter (S n) shr_1 mrs) with (shr_1 (Nat.iter n shr_1 mrs)).
    assert (H0 : 0 <= shr_m (Nat.iter n shr_1 mrs)).
    { rewrite IH by assumption. apply Z.div_pos; [assumption|]. lia. }
    rewrite shr_1_m by assumption. rewrite IH by assumption.
    rewrite Z.div_div by lia. f_equal. lia.
Qed.

(** The mantissa and exponent after [shr]. *)
Lemma shr_spec (mrs : shr_record) (e n : Z) :
  0 <= shr_m mrs ->
  shr_m (fst (shr mrs e n)) = shr_m mrs / 2 ^ Z.max 0 n /\
  snd (shr mrs e n) = e + Z.max 0 n.
Proof.
  intros Hm. destruct n as [|p|p]; simpl.
  - rewrite Z.div_1_r. split; [reflexivity | lia].
  - rewrite iter_pos_nat, iter_shr_1_m by assumption.
    rewrite positive_nat_Z. split; reflexivity.
  - rewrite Z.div_1_r. split; [reflexivity | lia].
Qed.

Lemma shr_record_of_loc_m (m : Z) (l : location) :
  shr_m (shr_record_of_loc m l) = m.
Proof. destruct l as [|[ | | ]]; reflexivity. Qed.

(** ** The number of digits of a mantissa *)

Lemma digits2_pos_size (m : positive) : digits2_pos m = Pos.size m.
Proof. induction m; simpl; congruence. Qed.

Lemma digits2_pos_bounds (m : positive) :
  2 ^ (Zpos (digits2_pos m) - 1) <= Zpos m < 2 ^ Zpos (digits2_pos m).
Proof.
  rewrite digits2_pos_size. split.
  - pose proof (Pos.size_le m) as H.
    apply Pos2Z.pos_le_pos in H. rewrite Pos2Z.inj_pow in H.
    change (Z.pos m~0) with (2 * Z.pos m) in H.
    replace (Zpos (Pos.size m)) with (Z.succ (Zpos (Pos.size m) - 1)) in H by lia.
    rewrite Z.pow_succ_r in H by lia. lia.
  - pose proof (Pos.size_gt m) as H.
    apply Pos2Z.pos_lt_pos in H. now rewrite Pos2Z.inj_pow in H.
Qed.


(** ** Rounding to nearest, ties to even *)

Lemma shr_1_bits (mrs : shr_record) :
  0 <= shr_m mrs ->
  shr_r (shr_1 mrs) = Z.odd (shr_m mrs) /\
  shr_s (shr_1 mrs) = shr_r mrs || shr_s mrs.
Proof.
  destruct mrs as [m r s]. simpl. intros Hm.
  destruct m as [|[p|p|]|p]; simpl; try lia; split; reflexivity.
Qed.

Lemma mod_pow2_succ (M k : Z) :
  0 <= M -> 0 <= k ->
  M mod 2 ^ (k + 1) = (if Z.odd (M / 2 ^ k) then 2 ^ k else 0) + M mod 2 ^ k.
Proof.
  intros HM Hk.
  assert (Hp : 0 < 2 ^ k) by (apply Z.pow_pos_nonneg; lia).
  rewrite Z.pow_add_r, Z.pow_1_r by lia.
  rewrite Z.rem_mul_r by lia.
  rewrite (Z.add_comm (M mod 2 ^ k)). f_equal.
  rewrite Zmod_odd. destruct (Z.odd (M / 2 ^ k)); lia.
Qed.

(** The record after [k] shifts of an exact mantissa. *)
Lemma iter_shr_1_bits (M : Z) (k : nat) :
  0 <= M ->
  let mrs := Nat.iter k shr_1 (shr_record_of_loc M loc_Exact) in
  shr_m mrs = M / 2 ^ Z.of_nat k /\
  (k = 0%nat -> shr_r mrs = false /\ shr_s mrs = false) /\
  (k <> 0%nat ->
   shr_r mrs = Double.round_bit M (Z.of_nat k) /\
   shr_s mrs = Double.sticky_bit M (Z.of_nat k)).
Proof.
  intros HM. induction k as [|k IH].
  - simpl. rewrite Z.div_1_r. repeat split; congruence.
  - cbv zeta in IH |- *.
    change (Nat.iter (S k) shr_1 (shr_record_of_loc M loc_Exact))
      with (shr_1 (Nat.iter k shr_1 (shr_record_of_loc M loc_Exact))).
    set (mrs := Nat.iter k shr_1 (shr_record_of_loc M loc_Exact)) in *.
    destruct IH as (Hm & H0 & Hk).
    assert (Hp : 0 < 2 ^ Z.of_nat k) by (apply Z.pow_pos_nonneg; lia).
    assert (Hnn : 0 <= shr_m mrs).
    { rewrite Hm. apply Z.div_pos; lia. }
    destruct (shr_1_bits mrs Hnn) as [Hr Hs].
    rewrite Nat2Z.inj_succ.
    split; [|split; [discriminate|]].
    + rewrite shr_1_m by assumption. rewrite Hm.
      rewrite Z.pow_succ_r by lia. rewrite Z.div_div by lia.
      f_equal. lia.
    + intros _. unfold Double.round_bit, Double.sticky_bit.
      replace (Z.succ (Z.of_nat k) - 1) with (Z.of_nat k) by lia.
      split.
      * now rewrite Hr, Hm.
      * rewrite Hs. destruct k as [|k'].
        -- destruct (H0 eq_refl) as [-> ->]. simpl.
           now rewrite Z.mod_1_r.
        -- destruct (Hk ltac:(discriminate)) as [-> ->].
           unfold Double.round_bit, Double.sticky_bit.
           set (j := Z.of_nat (S k') - 1).
           replace (Z.of_nat (S k')) with (j + 1) by lia.
           assert (Hj : 0 <= j) by lia.
           rewrite (mod_pow2_succ HM Hj).
           assert (Hpj : 0 < 2 ^ j) by (apply Z.pow_pos_nonneg; lia).
           pose proof (Z.mod_pos_bound M (2 ^ j) Hpj) as Hb.
           destruct (Z.odd (M / 2 ^ j)); simpl.
           ++ symmetry. apply negb_true_iff. apply Z.eqb_neq. lia.
           ++ reflexivity.
Qed.

(** Shifting an exact mantissa and rounding it is [rne]. *)
Lemma shr_round_rne (M e n : Z) :
  0 <= M ->
  let mrs := fst (shr (shr_record_of_loc M loc_Exact) e n) in
  round_nearest_even (shr_m mrs) (loc_of_shr_record mrs) = Double.rne M n /\
  snd (shr (shr_record_of_loc M loc_Exact) e n) = e + Z.max 0 n.
Proof.
  intros HM. destruct n as [|p|p]; cbv zeta.
  - simpl. split; [reflexivity | lia].
  - cbn [shr fst snd]. rewrite iter_pos_nat.
    destruct (iter_shr_1_bits (Pos.to_nat p) HM) as (Hm & _ & Hbits).
    destruct (Hbits ltac:(lia)) as [Hr Hs].
    rewrite positive_nat_Z in Hm, Hr, Hs.
    set (mrs := Nat.iter (Pos.to_nat p) shr_1 (shr_record_of_loc M loc_Exact)) in *.
    split; [|lia].
    unfold Double.rne. change (Zpos p <=? 0) with false. cbv iota.
    rewrite <- Hr, <- Hs, <- Hm.
    destruct mrs as [m r s]. simpl.
    destruct r, s; reflexivity.
  - simpl. split; [reflexivity | lia].
Qed.

(** The parts of [M] around a shift by [n]. *)
Lemma rne_parts (M n : Z) :
  0 <= M -> 1 <= n ->
  exists q b low,
    M = 2 * 2 ^ (n - 1) * q + 2 ^ (n - 1) * b + low /\
    0 <= q /\ 0 <= b <= 1 /\ 0 <= low < 2 ^ (n - 1) /\
    Double.rne M n =
    if b =? 1
    then (if 0 <? low then q + 1 else if Z.even q then q else q + 1)
    else q.
Proof.
  intros HM Hn.
  assert (Hp : 0 < 2 ^ (n - 1)) by (apply Z.pow_pos_nonneg; lia).
  assert (Hpn : 2 ^ n = 2 * 2 ^ (n - 1)).
  { replace n with (Z.succ (n - 1)) at 1 by lia. apply Z.pow_succ_r. lia. }
  exists (M / 2 ^ n), (if Z.odd (M / 2 ^ (n - 1)) then 1 else 0),
    (M mod 2 ^ (n - 1)).
  pose proof (Z.mod_pos_bound M (2 ^ (n - 1)) Hp) as Hlow.
  assert (Hq : 0 <= M / 2 ^ n) by (apply Z.div_pos; lia).
  split; [|split; [assumption|split; [|split; [assumption|]]]].
  - rewrite (Z.div_mod M (2 ^ n)) at 1 by lia.
    replace (M mod 2 ^ n) with (M mod 2 ^ ((n - 1) + 1))
      by (f_equal; f_equal; lia).
    rewrite mod_pow2_succ by lia. rewrite Hpn.
    destruct (Z.odd (M / 2 ^ (n - 1))); lia.
  - destruct (Z.odd _); lia.
  - unfold Double.rne, Double.round_bit, Double.sticky_bit.
    destruct (Z.leb_spec n 0) as [H0|_]; [lia|].
    destruct (Z.odd (M / 2 ^ (n - 1))); simpl; [|reflexivity].
    destruct (Z.eqb_spec (M mod 2 ^ (n - 1)) 0) as [->|Hne]; simpl.
    + reflexivity.
    + destruct (Z.ltb_spec 0 (M mod 2 ^ (n - 1))); [reflexivity | lia].
Qed.

(** Rounding is off by at most half a unit. *)
Lemma rne_error (M n : Z) :
  0 <= M -> 1 <= n ->
  - 2 ^ (n - 1) <= Double.rne M n * (2 * 2 ^ (n - 1)) - M <= 2 ^ (n - 1).
Proof.
  intros HM Hn.
  destruct (rne_parts HM Hn) as (q & b & low & HMeq & Hq & Hb & Hlow & ->).
  assert (Hp : 0 < 2 ^ (n - 1)) by (apply Z.pow_pos_nonneg; lia).
  set (B := 2 ^ (n - 1)) in *.
  destruct (Z.eqb_spec b 1) as [->|Hb1].
  - destruct (Z.ltb_spec 0 low).
    + nia.
    + assert (low = 0) by lia. subst low. destruct (Z.even q); nia.
  - assert (b = 0) by lia. subst b. nia.
Qed.

(** A value within half a unit of an even mantissa rounds to it. *)
Lemma rne_near (M n c t : Z) :
  0 <= M -> 1 <= n ->
  M = 2 * 2 ^ (n - 1) * c + t ->
  - 2 ^ (n - 1) <= t <= 2 ^ (n - 1) ->
  Z.even c = true ->
  Double.rne M n = c.
Proof.
  intros HM Hn HMc Ht Hc.
  destruct (rne_parts HM Hn) as (q & b & low & HMeq & Hq & Hb & Hlow & ->).
  assert (Hp : 0 < 2 ^ (n - 1)) by (apply Z.pow_pos_nonneg; lia).
  set (B := 2 ^ (n - 1)) in *.
  assert (Hqc : q = c \/ q = c - 1).
  { assert (2 * B * (q - c) = t - B * b - low) by lia.
    assert (-3 * B < 2 * B * (q - c) <= B) by nia.
    assert (-2 < q - c < 1) by nia. lia. }
  destruct Hqc as [-> | ->].
  - destruct (Z.eqb_spec b 1) as [->|Hb1]; [|reflexivity].
    assert (low = 0) by nia. subst low. simpl. now rewrite Hc.
  - assert (b = 1) by nia. subst b. simpl.
    destruct (Z.ltb_spec 0 low); [lia|].
    assert (low = 0) by lia.
    replace (Z.even (c - 1)) with false; [lia|].
    symmetry. rewrite Z.even_sub, Hc. reflexivity.
Qed.

(** ** Rounding to binary64 *)

#[local] Abbreviation fexp64 := (fexp prec emax).
#[local] Abbreviation emin64 := (emin prec emax).

Lemma fexp64_eq (e : Z) : fexp64 e = Z.max (e - 53) (-1074).
Proof. reflexivity. Qed.

Lemma shr_fexp_spec (M e : Z) (l : location) :
  0 <= M ->
  let n := Z.max 0 (fexp64 (Zdigits2 M + e) - e) in
  shr_m (fst (shr_fexp prec emax M e l)) = M / 2 ^ n /\
  snd (shr_fexp prec emax M e l) = e + n.
Proof.
  intros HM n. unfold shr_fexp.
  pose proof (shr_spec (shr_record_of_loc M l) e
                (fexp64 (Zdigits2 M + e) - e)) as H.
  rewrite shr_record_of_loc_m in H. now apply H.
Qed.

Lemma round_nearest_even_bounds (mx : Z) (lx : location) :
  mx <= round_nearest_even mx lx <= mx + 1.
Proof.
  destruct lx as [|[ | | ]]; simpl; try lia.
  destruct (Z.even mx); lia.
Qed.

(** What rounding an exact positive mantissa gives: the mantissa is
    shifted to the precision, rounded by at most one unit, and shifted
    once more when the rounding carried. *)
Lemma binary_round_aux_spec (s : bool) (M e : Z) :
  0 < M ->
  let n1 := Z.max 0 (fexp64 (Zdigits2 M + e) - e) in
  let m1 := M / 2 ^ n1 in
  let e1 := e + n1 in
  exists m2,
    m1 <= m2 <= m1 + 1 /\
    let n2 := Z.max 0 (fexp64 (Zdigits2 m2 + e1) - e1) in
    binary_round_aux prec emax s M e loc_Exact =
    match m2 / 2 ^ n2 with
    | Z0 => S754_zero s
    | Zpos m => if e1 + n2 <=? emax - prec
                then S754_finite s m (e1 + n2)
                else S754_infinity s
    | Zneg _ => S754_nan
    end.
Proof.
  intros HM n1 m1 e1. unfold binary_round_aux.
  destruct (shr_fexp_spec e loc_Exact (Z.lt_le_incl _ _ HM)) as [Hm1 He1].
  fold n1 in Hm1, He1. fold m1 in Hm1. fold e1 in He1.
  destruct (shr_fexp prec emax M e loc_Exact) as [mrs' e'].
  simpl in Hm1, He1. subst e'.
  set (m2 := round_nearest_even (shr_m mrs') (loc_of_shr_record mrs')).
  assert (Hm2 : m1 <= m2 <= m1 + 1).
  { rewrite <- Hm1. apply round_nearest_even_bounds. }
  assert (H0 : 0 <= m2).
  { assert (0 <= m1) by (apply Z.div_pos; lia). lia. }
  exists m2. split; [assumption|].
  destruct (shr_fexp_spec e1 loc_Exact H0) as [Hm3 He3].
  destruct (shr_fexp prec emax m2 e1 loc_Exact) as [mrs'' e''].
  simpl in Hm3, He3. subst e''. rewrite Hm3. reflexivity.
Qed.


Lemma pow2_le_digits (p : positive) (n : Z) :
  n <= Zpos (digits2_pos p) - 1 -> 2 ^ n <= Zpos p.
Proof.
  intros Hn. destruct (digits2_pos_bounds p) as [Hlow _].
  apply Z.le_trans with (2 ^ (Zpos (digits2_pos p) - 1)); [|assumption].
  destruct (Z.le_gt_cases 0 n) as [H0|H0].
  - apply Z.pow_le_mono_r; lia.
  - rewrite Z.pow_neg_r by lia. apply Z.pow_nonneg. lia.
Qed.

(** Rounding an exact non-zero value never gives a zero: the result keeps
    the sign.  The value must not lie below the least subnormal. *)
Lemma binary_round_aux_nonzero (s : bool) (m : positive) (e : Z) :
  -1074 <= e \/ 2 ^ (-1074 - e) <= Zpos m ->
  Double.nonzero_with_sign s (binary_round_aux prec emax s (Zpos m) e loc_Exact).
Proof.
  intros Hlow.
  destruct (binary_round_aux_spec s (M := Zpos m) e (Pos2Z.is_pos m))
    as (m2 & Hm2 & ->).
  set (n1 := Z.max 0 (fexp64 (Zdigits2 (Zpos m) + e) - e)) in *.
  assert (Hn1 : 2 ^ n1 <= Zpos m).
  { unfold n1. rewrite fexp64_eq. simpl Zdigits2.
    destruct (Z.max_spec 0 (Z.max (Zpos (digits2_pos m) + e - 53) (-1074) - e))
      as [[H1 ->]|[H1 ->]].
    - destruct (Z.max_spec (Zpos (digits2_pos m) + e - 53) (-1074))
        as [[H2 H3]|[H2 H3]]; rewrite H3 in *.
      + destruct Hlow as [Hlow|Hlow]; [lia | assumption].
      + apply pow2_le_digits. lia.
    - simpl. lia. }
  assert (Hm1 : 0 < Zpos m / 2 ^ n1).
  { apply Z.div_str_pos. split; [|assumption]. apply Z.pow_pos_nonneg; lia. }
  assert (He1 : -1074 <= e + n1).
  { unfold n1. rewrite fexp64_eq. lia. }
  destruct m2 as [|p2|p2]; try lia.
  set (e1 := e + n1) in *.
  set (n2 := Z.max 0 (fexp64 (Zdigits2 (Zpos p2) + e1) - e1)).
  assert (Hn2 : 2 ^ n2 <= Zpos p2).
  { unfold n2. rewrite fexp64_eq. simpl Zdigits2.
    destruct (Z.max_spec 0 (Z.max (Zpos (digits2_pos p2) + e1 - 53) (-1074) - e1))
      as [[H1 ->]|[H1 ->]].
    - apply pow2_le_digits. lia.
    - simpl. lia. }
  assert (Hm3 : 0 < Zpos p2 / 2 ^ n2).
  { apply Z.div_str_pos. split; [|assumption]. apply Z.pow_pos_nonneg; lia. }
  destruct (Zpos p2 / 2 ^ n2) as [|p3|p3]; try lia.
  destruct (_ <=? _); reflexivity.
Qed.


(** ** Valid doubles and the constants of the gauge *)

Lemma valid_finite (s : bool) (m : positive) (e : Z) :
  valid_binary (S754_finite s m e) = true ->
  -1074 <= e <= 971 /\
  Zpos (digits2_pos m) <= 53 /\
  (-1074 < e -> Zpos (digits2_pos m) = 53).
Proof.
  simpl. unfold bounded, canonical_mantissa. rewrite fexp64_eq.
  intros H. apply andb_true_iff in H. destruct H as [H1 H2].
  apply Z.eqb_eq in H1. apply Z.leb_le in H2.
  change (emax - prec) with 971 in H2. lia.
Qed.

Lemma Prim2SF_0 : Prim2SF 0 = S754_zero false.
Proof. vm_compute. reflexivity. Qed.

Lemma Prim2SF_1 : Prim2SF 1 = S754_finite false 4503599627370496 (-52).
Proof. vm_compute. reflexivity. Qed.

Lemma Prim2SF_100 : Prim2SF 100 = S754_finite false 7036874417766400 (-46).
Proof. vm_compute. reflexivity. Qed.

Lemma SFltb_zero (x : spec_float) :
  SFltb x (S754_zero false) = true <-> Double.nonzero_with_sign true x.
Proof.
  destruct x as [s|s| |s m e]; simpl; unfold SFltb; simpl;
    try (destruct s); simpl; intuition congruence.
Qed.

(** A negative double times [100] is negative. *)
Lemma mul_100_negative (y : float) :
  (y <? 0)%float = true -> (y * 100 <? 0)%float = true.
Proof.
  rewrite !ltb_spec, mul_spec, Prim2SF_0, Prim2SF_100, !SFltb_zero.
  pose proof (Prim2SF_valid y) as Hvalid.
  destruct (Prim2SF y) as [s|s| |s m e]; simpl; try tauto;
    intros ->; [reflexivity|].
  simpl xorb. apply valid_finite in Hvalid. destruct Hvalid as [He _].
  apply binary_round_aux_nonzero. right.
  apply Z.le_trans with (2 ^ 46).
  - destruct (Z.le_gt_cases 0 (-1074 - (e + -46))) as [H0|H0].
    + apply Z.pow_le_mono_r; lia.
    + rewrite Z.pow_neg_r by lia. lia.
  - rewrite Pos2Z.inj_mul. change (2 ^ 46) with 70368744177664. lia.
Qed.


(** ** Aligning mantissas *)

Lemma iter_xO (m d : positive) :
  Zpos (Pos.iter xO m d) = Zpos m * 2 ^ Zpos d.
Proof.
  induction d as [|d IH] using Pos.peano_ind.
  - simpl. lia.
  - rewrite Pos.iter_succ, Pos2Z.inj_xO, IH, Pos2Z.inj_succ.
    rewrite Z.pow_succ_r by lia. lia.
Qed.

Lemma shl_align_spec (mx : positive) (ex ex' : Z) :
  Zpos (fst (shl_align mx ex ex')) = Zpos mx * 2 ^ Z.max 0 (ex - ex') /\
  snd (shl_align mx ex ex') = Z.min ex ex'.
Proof.
  unfold shl_align. destruct (ex' - ex) as [|d|d] eqn:Hd; simpl.
  - replace (Z.max 0 (ex - ex')) with 0 by lia. simpl. lia.
  - replace (Z.max 0 (ex - ex')) with 0 by lia. simpl. lia.
  - rewrite iter_xO. replace (Z.max 0 (ex - ex')) with (Zpos d) by lia.
    split; [reflexivity | lia].
Qed.

Lemma binary_round_nonzero (s : bool) (m : positive) (e : Z) :
  -1074 <= e ->
  Double.nonzero_with_sign s (binary_round prec emax s m e).
Proof.
  intros He. unfold binary_round.
  destruct (shl_align_spec m e (fexp64 (Zpos (digits2_pos m) + e))) as [_ Hsnd].
  destruct (shl_align m e (fexp64 (Zpos (digits2_pos m) + e))) as [mz ez].
  simpl in Hsnd. apply binary_round_aux_nonzero. left.
  rewrite Hsnd, fexp64_eq. lia.
Qed.

Lemma binary_normalize_negative (D e : Z) :
  D < 0 -> -1074 <= e ->
  Double.nonzero_with_sign true (binary_normalize prec emax D e false).
Proof.
  intros HD He. destruct D as [|d|d]; try lia.
  simpl. now apply binary_round_nonzero.
Qed.

Lemma SFltb_finite_positive (m1 m2 : positive) (e1 e2 : Z) :
  SFltb (S754_finite false m1 e1) (S754_finite false m2 e2) = true <->
  e1 < e2 \/ (e1 = e2 /\ Zpos m1 < Zpos m2).
Proof.
  unfold SFltb, SFcompare.
  destruct (Z.compare_spec e1 e2) as [Heq|Hlt|Hgt].
  - change (Pos.compare_cont Eq m1 m2) with (Pos.compare m1 m2).
    destruct (Pos.compare_spec m1 m2) as [H|H|H].
    + subst. split; [discriminate | lia].
    + apply Pos2Z.pos_lt_pos in H. split; [lia | reflexivity].
    + apply Pos2Z.pos_lt_pos in H. split; [discriminate | lia].
  - split; [lia | reflexivity].
  - split; [discriminate | lia].
Qed.

Lemma SF64sub_finite (sx sy : bool) (mx my : positive) (ex ey : Z) :
  SF64sub (S754_finite sx mx ex) (S754_finite sy my ey) =
  binary_normalize prec emax
    (cond_Zopp sx (Zpos (fst (shl_align mx ex (Z.min ex ey))))
     - cond_Zopp sy (Zpos (fst (shl_align my ey (Z.min ex ey)))))
    (Z.min ex ey) false.
Proof. reflexivity. Qed.

(** [100] minus a double above [100] is negative. *)
Lemma sub_100_negative (p : float) :
  (100 <? p)%float = true -> (100 - p <? 0)%float = true.
Proof.
  rewrite !ltb_spec, sub_spec, Prim2SF_0, Prim2SF_100, SFltb_zero.
  pose proof (Prim2SF_valid p) as Hvalid.
  destruct (Prim2SF p) as [s|s| |s m e].
  - discriminate.
  - destruct s; [discriminate | reflexivity].
  - discriminate.
  - destruct s; [discriminate|].
    apply valid_finite in Hvalid. destruct Hvalid as (He & _ & Hnormal).
    rewrite SFltb_finite_positive, SF64sub_finite. intros Hcases.
    replace (Z.min (-46) e) with (-46) by lia.
    destruct (shl_align_spec m e (-46)) as [Hm _].
    change (fst (shl_align 7036874417766400 (-46) (-46)))
      with 7036874417766400%positive.
    apply binary_normalize_negative; [|lia].
    unfold cond_Zopp. rewrite Hm.
    destruct Hcases as [Hgt|[<- Hm100]].
    + replace (Z.max 0 (e - -46)) with (e + 46) by lia.
      assert (Hd : Zpos (digits2_pos m) = 53) by (apply Hnormal; lia).
      assert (Hm52 : 2 ^ 52 <= Zpos m).
      { apply pow2_le_digits. lia. }
      assert (H2 : 2 ^ 1 <= 2 ^ (e + 46)).
      { apply Z.pow_le_mono_r; lia. }
      change (2 ^ 52) with 4503599627370496 in Hm52.
      change (2 ^ 1) with 2 in H2. nia.
    + change (Z.max 0 (-46 - -46)) with 0. rewrite Z.pow_0_r. lia.
Qed.


Lemma SF64mul_finite (sx sy : bool) (mx my : positive) (ex ey : Z) :
  SF64mul (S754_finite sx mx ex) (S754_finite sy my ey) =
  binary_round_aux prec emax (xorb sx sy) (Zpos (mx * my)) (ex + ey) loc_Exact.
Proof. reflexivity. Qed.

Lemma digits_of_bounds (p : positive) (d : Z) :
  2 ^ (d - 1) <= Zpos p < 2 ^ d -> 0 < d -> Zpos (digits2_pos p) = d.
Proof.
  intros [Hlow Hhigh] Hd.
  destruct (digits2_pos_bounds p) as [Hl Hh].
  assert (H1 : d - 1 < Zpos (digits2_pos p)).
  { apply (Z.pow_lt_mono_r_iff 2); lia. }
  assert (H2 : Zpos (digits2_pos p) - 1 < d).
  { apply (Z.pow_lt_mono_r_iff 2); lia. }
  lia.
Qed.

(** A double above [1] times [100] is above [100]. *)
Lemma mul_100_above (y : float) :
  (1 <? y)%float = true -> (100 <? y * 100)%float = true.
Proof.
  rewrite !ltb_spec, mul_spec, Prim2SF_1, Prim2SF_100.
  pose proof (Prim2SF_valid y) as Hvalid.
  destruct (Prim2SF y) as [s|s| |s m e].
  - destruct s; discriminate.
  - destruct s; [discriminate | reflexivity].
  - discriminate.
  - destruct s; [discriminate|].
    apply valid_finite in Hvalid. destruct Hvalid as (He & _ & Hnormal).
    rewrite SFltb_finite_positive, SF64mul_finite. simpl xorb. intros Hy.
    assert (Hd : Zpos (digits2_pos m) = 53) by (apply Hnormal; lia).
    destruct (digits2_pos_bounds m) as [Hm52 Hm53]. rewrite Hd in Hm52, Hm53.
    change (2 ^ (53 - 1)) with 4503599627370496 in Hm52.
    change (2 ^ 53) with 9007199254740992 in Hm53.
    destruct (binary_round_aux_spec false (M := Zpos (m * 7036874417766400))
                (e + -46) (Pos2Z.is_pos _)) as (m2 & Hm2 & ->).
    set (M := Zpos (m * 7036874417766400)) in *.
    assert (HM : M = Zpos m * 7036874417766400) by apply Pos2Z.inj_mul.
    set (d := Zdigits2 M) in *.
    assert (Hdd : d = 105 \/ d = 106).
    { destruct (Z.lt_ge_cases M (2 ^ 105)) as [Hlt|Hge].
      - left. apply digits_of_bounds; [|lia]. split; [|assumption].
        change (2 ^ (105 - 1)) with 20282409603651670423947251286016. lia.
      - right. apply digits_of_bounds; [|lia]. split; [assumption|].
        change (2 ^ 106) with 81129638414606681695789005144064. lia. }
    assert (HMd : 2 ^ (d - 1) <= M < 2 ^ d).
    { apply digits2_pos_bounds. }
    set (n1 := Z.max 0 (fexp64 (d + (e + -46)) - (e + -46))) in *.
    assert (Hn1 : n1 = d - 53).
    { unfold n1. rewrite fexp64_eq. lia. }
    assert (Hm1 : 4503599627370496 <= M / 2 ^ n1 < 9007199254740992).
    { rewrite Hn1. destruct Hdd as [Hdd|Hdd]; rewrite Hdd in *.
      - change (2 ^ (105 - 53)) with 4503599627370496.
        change (2 ^ (105 - 1)) with 20282409603651670423947251286016 in HMd.
        change (2 ^ 105) with 40564819207303340847894502572032 in HMd.
        split.
        + apply Z.div_le_lower_bound; lia.
        + apply Z.div_lt_upper_bound; lia.
      - change (2 ^ (106 - 53)) with 9007199254740992.
        change (2 ^ (106 - 1)) with 40564819207303340847894502572032 in HMd.
        change (2 ^ 106) with 81129638414606681695789005144064 in HMd.
        split.
        + apply Z.div_le_lower_bound; lia.
        + apply Z.div_lt_upper_bound; lia. }
    destruct m2 as [|p2|p2]; try lia.
    set (e1 := e + -46 + n1) in *.
    set (d2 := Zdigits2 (Zpos p2)).
    assert (Hd2 : (d2 = 53 /\ Zpos p2 < 9007199254740992)
                  \/ (d2 = 54 /\ Zpos p2 = 9007199254740992)).
    { destruct (Z.lt_ge_cases (Zpos p2) 9007199254740992) as [Hlt|Hge].
      - left. split; [|assumption]. apply digits_of_bounds; [|lia].
        change (2 ^ (53 - 1)) with 4503599627370496.
        change (2 ^ 53) with 9007199254740992. lia.
      - right. split; [|lia]. apply digits_of_bounds; [|lia].
        change (2 ^ (54 - 1)) with 9007199254740992.
        change (2 ^ 54) with 18014398509481984. lia. }
    set (n2 := Z.max 0 (fexp64 (d2 + e1) - e1)).
    assert (Hn2 : n2 = d2 - 53).
    { unfold n2. rewrite fexp64_eq. unfold e1. lia. }
    assert (Hm3 : (n2 = 0 /\ Zpos p2 / 2 ^ n2 = Zpos p2)
                  \/ (n2 = 1 /\ Zpos p2 / 2 ^ n2 = 4503599627370496)).
    { destruct Hd2 as [[Hd2 Hp2]|[Hd2 Hp2]].
      - left. split; [lia|]. replace n2 with 0 by lia.
        now rewrite Z.pow_0_r, Z.div_1_r.
      - right. split; [lia|]. replace n2 with 1 by lia. now rewrite Hp2. }
    assert (Hgoal : forall q, Zpos p2 / 2 ^ n2 = Zpos q ->
                     -46 < e1 + n2 \/
                     (-46 = e1 + n2 /\ 7036874417766400 < Zpos q)).
    { intros q Hq. unfold e1.
      destruct Hy as [Hy|[Hy Hm]].
      - left. lia.
      - destruct (Z.eq_dec (d + n2) 105) as [Heq|Hne]; [|left; lia].
        right. split; [lia|].
        assert (Hd105 : d = 105) by lia. assert (Hn20 : n2 = 0) by lia.
        destruct Hm3 as [[_ Hm3]|[Hm3 _]]; [|lia].
        rewrite Hm3 in Hq. rewrite <- Hq.
        assert (Hlow : 7036874417766400 + 1 <= M / 2 ^ n1).
        { rewrite Hn1, Hd105.
          change (2 ^ (105 - 53)) with 4503599627370496.
          apply Z.div_le_lower_bound; lia. }
        lia. }
    destruct (Zpos p2 / 2 ^ n2) as [|q|q] eqn:Hq.
    + destruct Hm3 as [[_ Hm3]|[_ Hm3]]; lia.
    + destruct (e1 + n2 <=? emax - prec); [|reflexivity].
      apply SFltb_finite_positive. destruct (Hgoal q eq_refl) as [H|[H1 H2]].
      * now left.
      * right. split; [now symmetry | assumption].
    + destruct Hm3 as [[_ Hm3]|[_ Hm3]]; lia.
Qed.

(** For [y > 1] the remainder [100 - y * 100] is negative, and for
    [y < 0] the progress [y * 100] is. *)
Lemma gauge_signs (y : float) :
  ((1 <? y)%float = true -> (100 - y * 100 <? 0)%float = true) /\
  ((y <? 0)%float = true -> (y * 100 <? 0)%float = true).
Proof.
  split.
  - intros Hy. apply sub_100_negative. now apply mul_100_above.
  - apply mul_100_negative.
Qed.


(** ** The exact result of a rounding *)

Lemma shr_fexp_rne (M e : Z) :
  0 <= M ->
  let n := fexp64 (Zdigits2 M + e) - e in
  let mrs := fst (shr_fexp prec emax M e loc_Exact) in
  round_nearest_even (shr_m mrs) (loc_of_shr_record mrs) = Double.rne M n /\
  snd (shr_fexp prec emax M e loc_Exact) = e + Z.max 0 n.
Proof.
  intros HM. unfold shr_fexp. now apply shr_round_rne.
Qed.

Lemma binary_round_aux_exact (s : bool) (M e : Z) :
  0 < M ->
  let n1 := fexp64 (Zdigits2 M + e) - e in
  let m2 := Double.rne M n1 in
  let e1 := e + Z.max 0 n1 in
  let n2 := Z.max 0 (fexp64 (Zdigits2 m2 + e1) - e1) in
  0 <= m2 ->
  binary_round_aux prec emax s M e loc_Exact =
  match m2 / 2 ^ n2 with
  | Z0 => S754_zero s
  | Zpos m => if e1 + n2 <=? emax - prec
              then S754_finite s m (e1 + n2)
              else S754_infinity s
  | Zneg _ => S754_nan
  end.
Proof.
  intros HM n1 m2 e1 n2 H0. unfold binary_round_aux.
  destruct (shr_fexp_rne e (Z.lt_le_incl _ _ HM)) as [Hm2 He1].
  fold n1 in Hm2, He1. fold m2 in Hm2. fold e1 in He1.
  destruct (shr_fexp prec emax M e loc_Exact) as [mrs' e'].
  simpl in Hm2, He1. subst e'. rewrite Hm2.
  destruct (shr_fexp_spec e1 loc_Exact H0) as [Hm3 He3].
  fold n2 in Hm3, He3.
  destruct (shr_fexp prec emax m2 e1 loc_Exact) as [mrs'' e''].
  simpl in Hm3, He3. subst e''. rewrite Hm3. reflexivity.
Qed.

Lemma Zdigits2_of_bounds (M d : Z) :
  2 ^ (d - 1) <= M < 2 ^ d -> 0 < d -> Zdigits2 M = d.
Proof.
  intros HM Hd.
  assert (Hp : 0 < 2 ^ (d - 1)) by (apply Z.pow_pos_nonneg; lia).
  destruct M as [|p|p]; try lia.
  simpl. now apply digits_of_bounds.
Qed.

(** A value within half a unit in the last place of [100] rounds to
    [100]. *)
Lemma binary_round_100 (S : positive) (N T : Z) :
  0 <= N ->
  Zpos S = 7036874417766400 * 2 ^ N + T ->
  (N = 0 -> T = 0) ->
  (1 <= N -> - 2 ^ (N - 1) <= T <= 2 ^ (N - 1)) ->
  binary_round prec emax false S (-46 - N) =
  S754_finite false 7036874417766400 (-46).
Proof.
  intros HN HS H0 H1.
  assert (Hp : 0 < 2 ^ N) by (apply Z.pow_pos_nonneg; lia).
  assert (Hbounds : 2 ^ (53 + N - 1) <= Zpos S < 2 ^ (53 + N)).
  { replace (53 + N - 1) with (52 + N) by lia.
    rewrite !Z.pow_add_r by lia.
    change (2 ^ 52) with 4503599627370496.
    change (2 ^ 53) with 9007199254740992.
    destruct (Z.eq_dec N 0) as [->|Hne].
    - rewrite (H0 eq_refl) in HS. simpl in HS |- *. lia.
    - assert (HT := H1 ltac:(lia)).
      assert (Hhalf : 2 ^ N = 2 * 2 ^ (N - 1)).
      { replace N with (Z.succ (N - 1)) at 1 by lia.
        apply Z.pow_succ_r. lia. }
      lia. }
  assert (Hd : Zpos (digits2_pos S) = 53 + N).
  { apply digits_of_bounds; [assumption | lia]. }
  unfold binary_round. rewrite Hd, fexp64_eq.
  replace (Z.max (53 + N + (-46 - N) - 53) (-1074)) with (-46) by lia.
  destruct (shl_align_spec S (-46 - N) (-46)) as [Hfst Hsnd].
  destruct (shl_align S (-46 - N) (-46)) as [mz ez].
  cbn [fst snd] in Hfst, Hsnd.
  replace (Z.max 0 (-46 - N - -46)) with 0 in Hfst by lia.
  rewrite Z.pow_0_r, Z.mul_1_r in Hfst. injection Hfst as ->.
  replace (Z.min (-46 - N) (-46)) with (-46 - N) in Hsnd by lia. subst ez.
  assert (Hn1 : fexp64 (Zdigits2 (Zpos S) + (-46 - N)) - (-46 - N) = N).
  { simpl Zdigits2. rewrite Hd, fexp64_eq. lia. }
  assert (Hrne : Double.rne (Zpos S) N = 7036874417766400).
  { destruct (Z.eq_dec N 0) as [->|Hne].
    - unfold Double.rne. simpl. rewrite (H0 eq_refl) in HS. simpl in HS. lia.
    - apply rne_near with (t := T); try lia.
      + rewrite HS. f_equal.
        replace N with (Z.succ (N - 1)) at 1 by lia.
        rewrite Z.pow_succ_r by lia. lia.
      + reflexivity. }
  rewrite binary_round_aux_exact; rewrite ?Hn1, ?Hrne; try lia.
  replace (-46 - N + Z.max 0 N) with (-46) by lia.
  reflexivity.
Qed.


(** The double a positive value of at most seven integer digits rounds
    to: either the value itself on a finer exponent, or a mantissa on a
    coarser exponent that is off by at most half a unit. *)
Lemma binary_round_repr (dd : positive) (e : Z) :
  -1074 <= e ->
  Zpos (digits2_pos dd) + e <= 7 ->
  exists m_r e_r,
    binary_round prec emax false dd e = S754_finite false m_r e_r /\
    ((e_r < e /\ Zpos m_r = Zpos dd * 2 ^ (e - e_r)) \/
     (e <= e_r /\
      (Zpos m_r * 2 ^ (e_r - e) = Zpos dd \/
       exists k, 1 <= k <= -46 - e /\
                 - 2 ^ (k - 1) <= Zpos m_r * 2 ^ (e_r - e) - Zpos dd
                 <= 2 ^ (k - 1)))).
Proof.
  intros He Hdg.
  set (dg := Zpos (digits2_pos dd)) in *.
  destruct (digits2_pos_bounds dd) as [Hlow Hhigh]. fold dg in Hlow, Hhigh.
  assert (Hdg0 : 0 < dg) by (unfold dg; lia).
  unfold binary_round. fold dg.
  set (f := fexp64 (dg + e)).
  assert (Hf : f = Z.max (dg + e - 53) (-1074)) by apply fexp64_eq.
  destruct (shl_align_spec dd e f) as [Hfst Hsnd].
  destruct (shl_align dd e f) as [mz ez]. cbn [fst snd] in Hfst, Hsnd.
  destruct (Z.lt_ge_cases f e) as [HL|HR].
  - (* the value is shifted to a finer exponent *)
    replace (Z.max 0 (e - f)) with (e - f) in Hfst by lia.
    replace (Z.min e f) with f in Hsnd by lia. subst ez.
    assert (Hps : 0 < 2 ^ (e - f)) by (apply Z.pow_pos_nonneg; lia).
    assert (Hdz : Zpos (digits2_pos mz) = dg + (e - f)).
    { apply digits_of_bounds; [|lia]. rewrite Hfst.
      replace (dg + (e - f) - 1) with ((dg - 1) + (e - f)) by lia.
      rewrite !Z.pow_add_r by lia. nia. }
    assert (Hn1 : fexp64 (Zdigits2 (Zpos mz) + f) - f = 0).
    { simpl Zdigits2. rewrite Hdz.
      replace (dg + (e - f) + f) with (dg + e) by lia. fold f. lia. }
    rewrite binary_round_aux_exact; rewrite ?Hn1; try lia;
      change (Double.rne (Zpos mz) 0) with (Zpos mz); try lia.
    replace (f + Z.max 0 0) with f by lia.
    rewrite Hn1. change (Z.max 0 0) with 0.
    rewrite Z.pow_0_r, Z.div_1_r, Z.add_0_r.
    destruct (Z.leb_spec f (emax - prec)) as [_|Hbig];
      [|change (emax - prec) with 971 in Hbig; lia].
    exists mz, f. split; [reflexivity|]. left. split; assumption.
  - (* the value is rounded on a coarser exponent *)
    replace (Z.max 0 (e - f)) with 0 in Hfst by lia.
    rewrite Z.pow_0_r, Z.mul_1_r in Hfst. injection Hfst as ->.
    replace (Z.min e f) with e in Hsnd by lia. subst ez.
    assert (Hn1 : fexp64 (Zdigits2 (Zpos dd) + e) - e = f - e).
    { reflexivity. }
    destruct (Z.eq_dec f e) as [Hfe|Hfe].
    + (* no bit is dropped *)
      rewrite binary_round_aux_exact; rewrite ?Hn1; try lia;
        replace (f - e) with 0 by lia;
        change (Double.rne (Zpos dd) 0) with (Zpos dd); try lia.
      change (Z.max 0 0) with 0. rewrite Z.add_0_r.
      replace (fexp64 (Zdigits2 (Zpos dd) + e) - e) with 0
        by (rewrite Hn1; lia).
      change (Z.max 0 0) with 0.
      rewrite Z.pow_0_r, Z.div_1_r, Z.add_0_r.
      destruct (Z.leb_spec e (emax - prec)) as [_|Hbig];
        [|change (emax - prec) with 971 in Hbig; lia].
      exists dd, e. split; [reflexivity|]. right. split; [lia|]. left.
      rewrite Z.sub_diag, Z.pow_0_r. lia.
    + (* [k] bits are dropped *)
      set (k := f - e) in *.
      assert (Hk : 1 <= k) by (unfold k; lia).
      assert (Hdgk : dg = 53 + k) by (unfold k; lia).
      assert (HB : 0 < 2 ^ (k - 1)) by (apply Z.pow_pos_nonneg; lia).
      assert (Hpk : 2 ^ k = 2 * 2 ^ (k - 1)).
      { replace k with (Z.succ (k - 1)) at 1 by lia.
        apply Z.pow_succ_r. lia. }
      assert (Hlow' : 4503599627370496 * 2 ^ k <= Zpos dd).
      { replace (dg - 1) with (52 + k) in Hlow by lia.
        rewrite Z.pow_add_r in Hlow by lia. exact Hlow. }
      assert (Hhigh' : Zpos dd < 9007199254740992 * 2 ^ k).
      { rewrite Hdgk, Z.pow_add_r in Hhigh by lia. exact Hhigh. }
      pose proof (rne_error (M := Zpos dd) (Pos2Z.is_nonneg dd) Hk) as Herr.
      set (m2 := Double.rne (Zpos dd) k) in *.
      set (B := 2 ^ (k - 1)) in *.
      assert (Hm2 : 4503599627370496 <= m2 <= 9007199254740992) by nia.
      rewrite binary_round_aux_exact; rewrite ?Hn1; fold m2; try lia.
      replace (e + Z.max 0 k) with f by (unfold k; lia).
      destruct (Z.eq_dec m2 9007199254740992) as [Hcarry|Hnocarry].
      * (* the rounding carries to the next binade *)
        rewrite Hcarry.
        change (Zdigits2 9007199254740992) with 54.
        replace (Z.max 0 (fexp64 (54 + f) - f)) with 1
          by (rewrite fexp64_eq; lia).
        change (9007199254740992 / 2 ^ 1) with 4503599627370496.
        destruct (Z.leb_spec (f + 1) (emax - prec)) as [_|Hbig];
          [|change (emax - prec) with 971 in Hbig; lia].
        exists 4503599627370496%positive, (f + 1).
        split; [reflexivity|]. right. split; [lia|]. right.
        exists k. split; [unfold k; lia|].
        replace (f + 1 - e) with (k + 1) by (unfold k; lia).
        rewrite Z.pow_add_r, Z.pow_1_r by lia.
        rewrite Hpk. rewrite Hcarry in Herr. lia.
      * destruct m2 as [|p2|p2] eqn:Hm2eq; try lia.
        assert (Hd2 : Zdigits2 (Zpos p2) = 53).
        { apply Zdigits2_of_bounds; [|lia].
          change (2 ^ (53 - 1)) with 4503599627370496.
          change (2 ^ 53) with 9007199254740992. lia. }
        rewrite Hd2.
        replace (Z.max 0 (fexp64 (53 + f) - f)) with 0
          by (rewrite fexp64_eq; lia).
        rewrite Z.pow_0_r, Z.div_1_r, Z.add_0_r.
        destruct (Z.leb_spec f (emax - prec)) as [_|Hbig];
          [|change (emax - prec) with 971 in Hbig; lia].
        exists p2, f. split; [reflexivity|]. right. split; [lia|]. right.
        exists k. split; [unfold k; lia|].
        fold k. rewrite Hpk. lia.
Qed.


(** ** A double between [0] and [100] and its remainder add up to [100] *)

Lemma SFleb_finite_positive (m1 m2 : positive) (e1 e2 : Z) :
  SFleb (S754_finite false m1 e1) (S754_finite false m2 e2) = true <->
  e1 < e2 \/ (e1 = e2 /\ Zpos m1 <= Zpos m2).
Proof.
  unfold SFleb, SFcompare.
  destruct (Z.compare_spec e1 e2) as [Heq|Hlt|Hgt].
  - change (Pos.compare_cont Eq m1 m2) with (Pos.compare m1 m2).
    destruct (Pos.compare_spec m1 m2) as [H|H|H].
    + subst. split; [lia | reflexivity].
    + apply Pos2Z.pos_lt_pos in H. split; [lia | reflexivity].
    + apply Pos2Z.pos_lt_pos in H. split; [discriminate | lia].
  - split; [lia | reflexivity].
  - split; [discriminate | lia].
Qed.

Lemma SF64add_finite (sx sy : bool) (mx my : positive) (ex ey : Z) :
  SF64add (S754_finite sx mx ex) (S754_finite sy my ey) =
  binary_normalize prec emax
    (cond_Zopp sx (Zpos (fst (shl_align mx ex (Z.min ex ey))))
     + cond_Zopp sy (Zpos (fst (shl_align my ey (Z.min ex ey)))))
    (Z.min ex ey) false.
Proof. reflexivity. Qed.

Lemma add_sub_100 (p : float) :
  (0 <=? p)%float = true -> (p <=? 100)%float = true ->
  (p + (100 - p))%float = 100%float.
Proof.
  intros H0 H100. apply Prim2SF_inj.
  rewrite add_spec, sub_spec, Prim2SF_100.
  rewrite leb_spec, Prim2SF_0 in H0. rewrite leb_spec, Prim2SF_100 in H100.
  pose proof (Prim2SF_valid p) as Hvalid.
  destruct (Prim2SF p) as [s|s| |s m e].
  - destruct s; reflexivity.
  - destruct s; discriminate.
  - discriminate.
  - destruct s; [discriminate|].
    apply SFleb_finite_positive in H100.
    apply valid_finite in Hvalid. destruct Hvalid as (He & Hdm & _).
    destruct (digits2_pos_bounds m) as [_ Hm53].
    assert (Hm : Zpos m < 9007199254740992).
    { apply Z.lt_le_trans with (2 ^ Zpos (digits2_pos m)); [assumption|].
      change 9007199254740992 with (2 ^ 53). apply Z.pow_le_mono_r; lia. }
    clear Hm53 Hdm.
    set (j := -46 - e).
    assert (Hj : 0 <= j) by (unfold j; lia).
    assert (Hpj : 0 < 2 ^ j) by (apply Z.pow_pos_nonneg; lia).
    assert (Hj1 : 1 <= j -> 2 <= 2 ^ j).
    { intros H. change 2 with (2 ^ 1) at 1. apply Z.pow_le_mono_r; lia. }
    rewrite SF64sub_finite. replace (Z.min (-46) e) with e by lia.
    destruct (shl_align_spec 7036874417766400 (-46) e) as [Ha _].
    destruct (shl_align_spec m e e) as [Hb _].
    replace (Z.max 0 (-46 - e)) with j in Ha by (unfold j; lia).
    replace (Z.max 0 (e - e)) with 0 in Hb by lia.
    rewrite Z.pow_0_r, Z.mul_1_r in Hb. injection Hb as Hb.
    rewrite Hb. unfold cond_Zopp at 1 2.
    set (a := fst (shl_align 7036874417766400 (-46) e)) in *.
    destruct (Zpos a - Zpos m) as [|dd|dd] eqn:HD.
    + (* the difference is zero: [p] is [100] *)
      assert (j = 0) by nia.
      assert (e = -46) by (unfold j in *; lia). subst e.
      assert (Zpos m = 7036874417766400).
      { rewrite H in Ha. rewrite Z.pow_0_r in Ha. lia. }
      injection H1 as ->. reflexivity.
    + (* the difference is positive *)
      change (binary_normalize prec emax (Zpos dd) e false)
        with (binary_round prec emax false dd e).
      assert (Hdd : Zpos dd < 9007199254740992 * 2 ^ j) by nia.
      assert (Hdg : Zpos (digits2_pos dd) + e <= 7).
      { destruct (digits2_pos_bounds dd) as [Hlow _].
        assert (Hlt : 2 ^ (Zpos (digits2_pos dd) - 1) < 2 ^ (53 + j)).
        { rewrite (Z.pow_add_r 2 53 j) by lia.
          change (2 ^ 53) with 9007199254740992. lia. }
        apply Z.pow_lt_mono_r_iff in Hlt; [|lia|lia]. unfold j in Hlt. lia. }
      destruct (binary_round_repr dd (e := e)) as (m_r & e_r & -> & Hrepr);
        [lia | assumption |].
      rewrite SF64add_finite. unfold cond_Zopp.
      destruct Hrepr as [[Her Hmr]|[Her Hmr]].
      * (* the remainder is exact, on a finer exponent *)
        replace (Z.min e e_r) with e_r by lia.
        destruct (shl_align_spec m e e_r) as [Hx _].
        destruct (shl_align_spec m_r e_r e_r) as [Hy _].
        replace (Z.max 0 (e - e_r)) with (e - e_r) in Hx by lia.
        replace (Z.max 0 (e_r - e_r)) with 0 in Hy by lia.
        rewrite Z.pow_0_r, Z.mul_1_r in Hy.
        set (x := fst (shl_align m e e_r)) in *.
        set (y := fst (shl_align m_r e_r e_r)) in *.
        change (Zpos x + Zpos y) with (Zpos (x + y)).
        change (binary_normalize prec emax (Zpos (x + y)) e_r false)
          with (binary_round prec emax false (x + y) e_r).
        replace (binary_round prec emax false (x + y) e_r)
          with (binary_round prec emax false (x + y) (-46 - (j + (e - e_r))))
          by (f_equal; unfold j; lia).
        apply binary_round_100 with (T := 0).
        -- lia.
        -- rewrite Pos2Z.inj_add, Hx, Hy, Hmr.
           rewrite Z.pow_add_r by lia. lia.
        -- reflexivity.
        -- intros _. assert (0 < 2 ^ (j + (e - e_r) - 1))
             by (apply Z.pow_pos_nonneg; lia). lia.
      * (* the remainder is rounded, on a coarser exponent *)
        replace (Z.min e e_r) with e by lia.
        destruct (shl_align_spec m e e) as [Hx _].
        destruct (shl_align_spec m_r e_r e) as [Hy _].
        replace (Z.max 0 (e - e)) with 0 in Hx by lia.
        replace (Z.max 0 (e_r - e)) with (e_r - e) in Hy by lia.
        rewrite Z.pow_0_r, Z.mul_1_r in Hx.
        set (x := fst (shl_align m e e)) in *.
        set (y := fst (shl_align m_r e_r e)) in *.
        change (Zpos x + Zpos y) with (Zpos (x + y)).
        change (binary_normalize prec emax (Zpos (x + y)) e false)
          with (binary_round prec emax false (x + y) e).
        replace (binary_round prec emax false (x + y) e)
          with (binary_round prec emax false (x + y) (-46 - j))
          by (f_equal; unfold j; lia).
        apply binary_round_100
          with (T := Zpos m_r * 2 ^ (e_r - e) - Zpos dd).
        -- lia.
        -- rewrite Pos2Z.inj_add, Hx, Hy. lia.
        -- intros Hj0. destruct Hmr as [Hexact|(k & Hk & _)]; lia.
        -- intros Hj1'. destruct Hmr as [Hexact|(k & Hk & Hkb)].
           ++ assert (0 < 2 ^ (j - 1)) by (apply Z.pow_pos_nonneg; lia). lia.
           ++ assert (2 ^ (k - 1) <= 2 ^ (j - 1))
                by (apply Z.pow_le_mono_r; lia). lia.
    + (* the difference is not negative *)
      exfalso. destruct H100 as [Hlt|[Heq Hle]].
      * assert (1 <= j) by (unfold j; lia). specialize (Hj1 H). nia.
      * assert (j = 0) by (unfold j; lia). rewrite H in Ha.
        rewrite Z.pow_0_r in Ha. lia.
Qed.

End DoubleFacts.
(* ================================================================== *)
(** * Dictionaries: lookup, update, enumeration *)

Module JsFacts.

Section Dictionary.
Context {V : Type}.
Implicit Types (o : Js.object V) (k : string) (v : V).

Lemma get_set_same o k v : Js.get (Js.set o k v) k = Some v.
Proof.
  induction o as [|[k' v'] o IH]; simpl.
  - now rewrite String.eqb_refl.
  - destruct (String.eqb k' k) eqn:E; simpl; rewrite E; auto.
Qed.

Lemma get_set_other o k k' v : k' <> k -> Js.get (Js.set o k v) k' = Js.get o k'.
Proof.
  intros Hne. induction o as [|[k0 v0] o IH]; simpl.
  - destruct (String.eqb k k') eqn:E; auto.
    apply String.eqb_eq in E. congruence.
  - destruct (String.eqb k0 k) eqn:E; simpl.
    + apply String.eqb_eq in E. subst k0.
      destruct (String.eqb k k') eqn:E'; auto.
      apply String.eqb_eq in E'. congruence.
    + now rewrite IH.
Qed.

Lemma get_In o k v : Js.get o k = Some v -> In (k, v) o.
Proof.
  induction o as [|[k' v'] o IH]; simpl; [discriminate|].
  destruct (String.eqb k' k) eqn:E.
  - apply String.eqb_eq in E. intros [= ->]. left. congruence.
  - auto.
Qed.

Lemma get_None_not_In o k : Js.get o k = None -> ~ In k (map fst o).
Proof.
  induction o as [|[k' v'] o IH]; simpl; [tauto|].
  destruct (String.eqb k' k) eqn:E; [discriminate|].
  apply String.eqb_neq in E. intros H [Hk|Hk]; [congruence|]. now apply IH.
Qed.

Lemma In_get o k v : Js.wf o -> In (k, v) o -> Js.get o k = Some v.
Proof.
  unfold Js.wf. induction o as [|[k' v'] o IH]; simpl; [tauto|].
  intros Hnd [Heq|Hin].
  - injection Heq as -> ->. now rewrite String.eqb_refl.
  - inversion Hnd as [|? ? Hnot Hnd']; subst.
    destruct (String.eqb k' k) eqn:E.
    + apply String.eqb_eq in E. subst k'.
      exfalso. apply Hnot. now apply (in_map fst) in Hin.
    + auto.
Qed.

Lemma keys_set o k v :
  forall k', In k' (map fst (Js.set o k v)) <-> k' = k \/ In k' (map fst o).
Proof.
  intros k'. induction o as [|[k0 v0] o IH]; simpl.
  - intuition.
  - destruct (String.eqb k0 k) eqn:E; simpl.
    + apply String.eqb_eq in E. subst k0. intuition.
    + rewrite IH. intuition.
Qed.

Lemma wf_set o k v : Js.wf o -> Js.wf (Js.set o k v).
Proof.
  unfold Js.wf. induction o as [|[k0 v0] o IH]; simpl; intros Hnd.
  - constructor; [simpl; tauto | constructor].
  - inversion Hnd as [|? ? Hnot Hnd']; subst.
    destruct (String.eqb k0 k) eqn:E; simpl.
    + now constructor.
    + constructor; [|auto].
      rewrite keys_set. apply String.eqb_neq in E. intros [->|H]; tauto.
Qed.

Lemma wf_nil : Js.wf (@nil (string * V)).
Proof. constructor. Qed.

Lemma wf_singleton k v : Js.wf [(k, v)].
Proof. constructor; [simpl; tauto | constructor]. Qed.

(** *** Enumeration is a rearrangement of the properties *)

Lemma In_insert_by_index (e x : string * V) l :
  In e (Js.insert_by_index x l) <-> e = x \/ In e l.
Proof.
  induction l as [|y l IH]; simpl.
  - intuition.
  - destruct (N.leb _ _); simpl; [intuition|].
    rewrite IH. intuition.
Qed.

Lemma In_sort_by_index (e : string * V) l :
  In e (Js.sort_by_index l) <-> In e l.
Proof.
  induction l as [|y l IH]; simpl; [tauto|].
  rewrite In_insert_by_index, IH. intuition.
Qed.

Lemma In_Object_entries (e : string * V) o :
  In e (Js.Object_entries o) <-> In e o.
Proof.
  unfold Js.Object_entries.
  rewrite in_app_iff, In_sort_by_index, !filter_In.
  destruct (Js.is_array_index (fst e)); simpl; intuition congruence.
Qed.

(** An entry is enumerated exactly when it is the value of its key. *)
Lemma Object_entries_get o k v :
  Js.wf o -> (In (k, v) (Js.Object_entries o) <-> Js.get o k = Some v).
Proof.
  intros Hwf. rewrite In_Object_entries. split.
  - now apply In_get.
  - apply get_In.
Qed.

End Dictionary.

End JsFacts.
(* ================================================================== *)
(** * Comparisons of doubles *)

Module FloatFacts.

Lemma SFcompare_Eq_sym (a b : spec_float) :
  SFcompare a b = Some Eq -> SFcompare b a = Some Eq.
Proof.
  destruct a as [sa | sa | | sa ma ea], b as [sb | sb | | sb mb eb];
    simpl; try discriminate; try reflexivity;
    try (destruct sa; discriminate); try (destruct sb; discriminate).
  - destruct sa, sb; try discriminate; reflexivity.
  - destruct sa, sb; try discriminate;
      (destruct (Z.compare ea eb) eqn:He; try discriminate);
      apply Z.compare_eq in He; subst eb; rewrite Z.compare_refl;
      intros H; injection H as H.
    + apply CompOpp_iff in H. simpl in H.
      apply Pos.compare_eq in H. subst mb.
      change (Pos.compare_cont Eq ma ma) with (Pos.compare ma ma).
      now rewrite Pos.compare_refl.
    + apply Pos.compare_eq in H. subst mb.
      change (Pos.compare_cont Eq ma ma) with (Pos.compare ma ma).
      now rewrite Pos.compare_refl.
Qed.

(** [a == b] excludes both [a < b] and [a > b]. *)
Lemma eq_not_lt_gt (a b : float) :
  Js.eq a b = true -> Js.lt a b = false /\ Js.gt a b = false.
Proof.
  unfold Js.eq, Js.lt, Js.gt.
  rewrite eqb_spec, !ltb_spec. unfold SFeqb, SFltb.
  destruct (SFcompare (Prim2SF a) (Prim2SF b)) as [[ | | ] | ] eqn:Hab;
    try discriminate.
  intros _. now rewrite (SFcompare_Eq_sym _ _ Hab).
Qed.

End FloatFacts.

(* ================================================================== *)
(** * The gauge: threshold colouring, validation, slices *)

Section GaugeFacts.

Variable getUniqueAggregatesAndFacets : list ResultRow -> StringSet * StringSet.
Variable parseFloat : Js.value -> float.
Variable StringToNumber : string -> float.
Variables red6 green6 : string.
Variable props : Gauge.Props.

#[local] Abbreviation getColor := (Gauge.getColor parseFloat red6 green6 props).
#[local] Abbreviation transformData :=
  (Gauge.transformData parseFloat StringToNumber red6 green6 props).
#[local] Abbreviation nrqlInputIsValid :=
  (Gauge.nrqlInputIsValid getUniqueAggregatesAndFacets).
#[local] Abbreviation threshold :=
  (parseFloat (Gauge.criticalThreshold (Gauge.thresholds props))).
#[local] Abbreviation highValuesAreSuccess :=
  (Gauge.highValuesAreSuccess (Gauge.thresholds props)).

(** C1: when the configured threshold does not parse as a number,
    [getColor] returns the colour of the data unchanged.  Otherwise, with
    [highValuesAreSuccess] it returns the success colour when
    [percent > threshold] and the critical colour when not; without it, the
    success colour when [percent < threshold] and the critical colour when
    not.  Both comparisons are strict: a percent equal to the threshold
    gets the critical colour in both modes. *)
Theorem getColor_threshold_rule (percent : float) (colorFromData : string) :
  (PrimFloat.is_nan threshold = true ->
   getColor percent colorFromData = colorFromData) /\
  (PrimFloat.is_nan threshold = false ->
   (highValuesAreSuccess = true ->
    (Js.gt percent threshold = true -> getColor percent colorFromData = green6) /\
    (Js.gt percent threshold = false -> getColor percent colorFromData = red6)) /\
   (highValuesAreSuccess = false ->
    (Js.lt percent threshold = true -> getColor percent colorFromData = green6) /\
    (Js.lt percent threshold = false -> getColor percent colorFromData = red6)) /\
   (Js.eq percent threshold = true -> getColor percent colorFromData = red6)).
Proof.
  unfold Gauge.getColor.
  split.
  - intros ->. reflexivity.
  - intros ->. split; [|split].
    + intros ->. split; intros ->; reflexivity.
    + intros ->. split; intros ->; reflexivity.
    + intros Heq. destruct (FloatFacts.eq_not_lt_gt Heq) as [-> ->].
      now destruct (Gauge.highValuesAreSuccess _).
Qed.


(** C8, as the validator decides it: a non-empty result is accepted
    exactly when the classifier finds one aggregate and no facet and the
    first row holds exactly one data point. *)
Theorem gauge_validator_accepts_iff (row : ResultRow) (rest : list ResultRow) :
  exists accepted : bool,
    nrqlInputIsValid (row :: rest) = Js.Returns accepted /\
    (accepted = true <->
     size (fst (getUniqueAggregatesAndFacets (row :: rest))) = 1 /\
     size (snd (getUniqueAggregatesAndFacets (row :: rest))) = 0 /\
     List.length (data row) = 1).
Proof.
  unfold Gauge.nrqlInputIsValid.
  destruct (getUniqueAggregatesAndFacets (row :: rest)) as [ua uf]; simpl.
  eexists; split; [reflexivity|].
  rewrite !andb_true_iff, !Nat.eqb_eq.
  split; [intros [[H1 H2] H3] | intros (H1 & H2 & H3)]; auto.
Qed.

(** C10, as the slices are computed: a result whose first row starts with
    a data point of value [y] is turned into exactly two slices,
    [progress] with [percent = y * 100] and the colour of the threshold
    rule, and a transparent [remainder] with [100 - percent], both in
    double arithmetic.  Neither value is clamped: for [y > 1] the
    remainder is negative and for [y < 0] the progress is.  The two values
    add up to exactly [100] whenever the percent lies between [0] and
    [100]. *)
Theorem gauge_two_slices (row : ResultRow) (rest : list ResultRow)
  (point : DataPoint) (more : list DataPoint) :
  data row = point :: more ->
  let y := Js.ToNumber StringToNumber (Js.prop point "y") in
  let percent := (y * 100)%float in
  transformData (row :: rest) =
  Js.Returns
    {| Gauge.percent := percent;
       Gauge.label := name (metadata row);
       Gauge.series :=
         [ {| Gauge.x := "progress"; Gauge.y := percent;
              Gauge.color := getColor percent (color (metadata row)) |};
           {| Gauge.x := "remainder"; Gauge.y := (100 - percent)%float;
              Gauge.color := "transparent" |} ] |} /\
  (Js.gt y 1 = true -> Js.lt (100 - percent) 0 = true) /\
  (Js.lt y 0 = true -> Js.lt percent 0 = true) /\
  ((0 <=? percent)%float = true -> (percent <=? 100)%float = true ->
   (percent + (100 - percent))%float = 100%float).
Proof.
  intros Hdata y percent. split; [|split; [|split]].
  - unfold Gauge.transformData. rewrite Hdata. reflexivity.
  - apply DoubleFacts.gauge_signs.
  - apply DoubleFacts.gauge_signs.
  - apply DoubleFacts.add_sub_100.
Qed.

End GaugeFacts.

(* ================================================================== *)
(** * The stacked bar chart: what the transform keeps *)

Module ListFacts.


Lemma existsb_eqb_In (k : string) (l : list string) :
  existsb (String.eqb k) l = true <-> In k l.
Proof.
  rewrite existsb_exists. split.
  - intros (a & Ha & E). apply String.eqb_eq in E. now subst.
  - intros Hk. exists k. split; [assumption | apply String.eqb_refl].
Qed.

Lemma set_add_In (acc : StringSet) (k a : string) :
  In a (StackedBar.set_add acc k) <-> In a acc \/ a = k.
Proof.
  unfold StackedBar.set_add.
  destruct (existsb (String.eqb k) acc) eqn:E.
  - apply existsb_eqb_In in E. split; [tauto|]. intros [H| ->]; assumption.
  - rewrite in_app_iff. simpl. intuition.
Qed.

Lemma set_add_NoDup (acc : StringSet) (k : string) :
  NoDup acc -> NoDup (StackedBar.set_add acc k).
Proof.
  intros Hnd. unfold StackedBar.set_add.
  destruct (existsb (String.eqb k) acc) eqn:E; [assumption|].
  assert (Hk : ~ In k acc).
  { intros Hk. apply existsb_eqb_In in Hk. congruence. }
  apply NoDup_app; [assumption | constructor; [simpl; tauto | constructor] |].
  intros a Ha [<-|[]]. tauto.
Qed.

Lemma fold_set_add_spec (l : list string) :
  forall acc,
    NoDup acc ->
    NoDup (fold_left StackedBar.set_add l acc) /\
    (forall a, In a (fold_left StackedBar.set_add l acc) <-> In a acc \/ In a l).
Proof.
  induction l as [|k l IH]; simpl; intros acc Hnd.
  - split; [assumption|]. tauto.
  - destruct (IH _ (set_add_NoDup k Hnd)) as [H1 H2]. split; [assumption|].
    intros a. rewrite H2, set_add_In. intuition.
Qed.

End ListFacts.

Module StackedBarFacts.

(** [getBarCount] counts the distinct bar labels of the chart data. *)
Lemma getBarCount_distinct (out : list (list StackedBar.BarSegment)) :
  StackedBar.getBarCount out =
  List.length (nodup string_dec (StackedBar.barLabels out)).
Proof.
  unfold StackedBar.getBarCount, StackedBar.barLabels, size.
  assert (Hfold : forall acc,
             fold_left
               (fun acc series =>
                  fold_left (fun acc s => StackedBar.set_add acc (StackedBar.x s))
                            series acc) out acc =
             fold_left StackedBar.set_add (flat_map (map StackedBar.x) out) acc).
  { induction out as [|series out IH]; simpl; intros acc; [reflexivity|].
    rewrite fold_left_app, IH. f_equal.
    clear. revert acc. induction series as [|s series IH]; simpl; auto. }
  rewrite Hfold.
  destruct (ListFacts.fold_set_add_spec (flat_map (map StackedBar.x) out)
              (NoDup_nil string)) as [Hnd Hin].
  apply Nat.le_antisymm.
  - apply NoDup_incl_length; [assumption|].
    intros a Ha. apply nodup_In. apply Hin in Ha. simpl in Ha. tauto.
  - apply NoDup_incl_length; [apply NoDup_nodup|].
    intros a Ha. apply nodup_In in Ha. apply Hin. now right.
Qed.

Lemma lookup2_record acc segment bar y segment' bar' :
  StackedBar.lookup2 (StackedBar.record acc segment bar y) segment' bar' =
  if String.eqb segment segment' && String.eqb bar bar'
  then Some y
  else StackedBar.lookup2 acc segment' bar'.
Proof.
  unfold StackedBar.lookup2, StackedBar.record.
  destruct (String.eqb segment segment') eqn:Es; simpl.
  - apply String.eqb_eq in Es. subst segment'.
    destruct (Js.get acc segment) as [entry|] eqn:Hg;
      rewrite JsFacts.get_set_same.
    + destruct (String.eqb bar bar') eqn:Eb.
      * apply String.eqb_eq in Eb. subst. apply JsFacts.get_set_same.
      * apply String.eqb_neq in Eb. apply JsFacts.get_set_other. congruence.
    + simpl. destruct (String.eqb bar bar'); reflexivity.
  - apply String.eqb_neq in Es.
    destruct (Js.get acc segment) as [entry|];
      rewrite JsFacts.get_set_other by congruence; reflexivity.
Qed.

Lemma wf2_record acc segment bar y :
  StackedBar.wf2 acc -> StackedBar.wf2 (StackedBar.record acc segment bar y).
Proof.
  intros [Hacc Hentries]. unfold StackedBar.record.
  assert (Hnew : Js.wf match Js.get acc segment with
                       | Some entry => Js.set entry bar y
                       | None => [(bar, y)]
                       end).
  { destruct (Js.get acc segment) as [entry|] eqn:Hg.
    - apply JsFacts.wf_set. eauto.
    - apply JsFacts.wf_singleton. }
  assert (Hgoal : StackedBar.wf2
                    (Js.set acc segment
                       match Js.get acc segment with
                       | Some entry => Js.set entry bar y
                       | None => [(bar, y)]
                       end)).
  { split; [now apply JsFacts.wf_set|].
    intros segment' entry'.
    destruct (string_dec segment' segment) as [->|Hne].
    - rewrite JsFacts.get_set_same. intros [= <-]. exact Hnew.
    - rewrite JsFacts.get_set_other by assumption. apply Hentries. }
  destruct (Js.get acc segment); exact Hgoal.
Qed.

Lemma wf2_empty : StackedBar.wf2 [].
Proof. split; [constructor | discriminate]. Qed.

Section Transform.

Variable getFacetLabel : list Group -> string.
Variable typeToUnit : Js.value -> string.
Variable toLocaleString : Js.value -> string.
Variable props : StackedBar.Props.

#[local] Abbreviation labelsOf := (StackedBar.labelsOf getFacetLabel).
#[local] Abbreviation barLabelOf := (StackedBar.barLabelOf getFacetLabel).
#[local] Abbreviation valueOf := StackedBar.valueOf.
#[local] Abbreviation shown := (StackedBar.shown getFacetLabel props).
#[local] Abbreviation hasLabels := (StackedBar.hasLabels getFacetLabel).
#[local] Abbreviation supported := (StackedBar.supported getFacetLabel props).
#[local] Abbreviation lastValue := (StackedBar.lastValue getFacetLabel props).
#[local] Abbreviation breakdownStep := (StackedBar.breakdownStep getFacetLabel props).
#[local] Abbreviation facetBreakdown := (StackedBar.facetBreakdown getFacetLabel props).
#[local] Abbreviation segmentSeries := (StackedBar.segmentSeries typeToUnit toLocaleString).
#[local] Abbreviation transformData :=
  (StackedBar.transformData getFacetLabel typeToUnit toLocaleString props).

Lemma labelsOf_barLabel row labels :
  labelsOf row = Js.Returns labels ->
  StackedBar.barLabel labels = barLabelOf row.
Proof.
  unfold StackedBar.labelsOf, StackedBar.getFacetLabels, StackedBar.barLabelOf.
  destruct (nth_error _ _); [|discriminate].
  now intros [= <-].
Qed.

(** What one step of the reduction does. *)
Lemma breakdownStep_cases acc colors row :
  breakdownStep (acc, colors) row =
  match labelsOf row with
  | Js.Throws e => Js.Throws e
  | Js.Returns labels =>
      if negb (shown row) then Js.Returns (acc, colors)
      else if Js.inherited_key (StackedBar.facetSegmentLabel labels)
              || String.eqb (StackedBar.barLabel labels) "__proto__"
           then Js.Throws Js.PrototypeKey
           else match data row with
                | [] => Js.Throws Js.TypeError
                | _ :: _ =>
                    Js.Returns
                      (StackedBar.record acc
                         (StackedBar.facetSegmentLabel labels)
                         (StackedBar.barLabel labels) (valueOf row),
                       match Js.get colors (StackedBar.facetSegmentLabel labels) with
                       | Some _ => colors
                       | None => Js.set colors
                                   (StackedBar.facetSegmentLabel labels)
                                   (color (metadata row))
                       end)
                end
  end.
Proof.
  unfold StackedBar.breakdownStep. fold (labelsOf row).
  destruct (labelsOf row) as [labels|e] eqn:Hl; simpl; [|reflexivity].
  unfold StackedBar.shown. rewrite <- (labelsOf_barLabel _ Hl).
  rewrite negb_orb, negb_involutive.
  destruct (negb (StackedBar.visible (StackedBar.other props))
            && String.eqb (StackedBar.barLabel labels) "Other"); [reflexivity|].
  destruct (Js.inherited_key _ || _); [reflexivity|].
  unfold StackedBar.valueOf, StackedBar.record.
  destruct (data row) as [|point more]; [reflexivity|].
  destruct (Js.get acc _); reflexivity.
Qed.

Lemma facetBreakdown_cons st row rows :
  facetBreakdown st (row :: rows) =
  Js.bind (breakdownStep st row) (fun st' => facetBreakdown st' rows).
Proof. reflexivity. Qed.

Lemma hasLabels_iff row segment bar :
  hasLabels row segment bar = true <->
  labelsOf row =
  Js.Returns {| StackedBar.barLabel := bar;
                StackedBar.facetSegmentLabel := segment |}.
Proof.
  unfold StackedBar.hasLabels.
  destruct (labelsOf row) as [[b s]|e]; simpl.
  - rewrite andb_true_iff, !String.eqb_eq. split.
    + now intros [-> ->].
    + now intros [= -> ->].
  - split; discriminate.
Qed.

(** The dictionary after the reduction holds, for every pair of labels,
    the value of the last row that records it. *)
Lemma facetBreakdown_lookup rows :
  forall acc colors acc' colors',
    facetBreakdown (acc, colors) rows = Js.Returns (acc', colors') ->
    forall segment bar,
      StackedBar.lookup2 acc' segment bar =
      lastValue rows segment bar (StackedBar.lookup2 acc segment bar).
Proof.
  induction rows as [|row rows IH]; intros acc colors acc' colors' H segment bar.
  - simpl in *. now injection H as <- <-.
  - rewrite facetBreakdown_cons, breakdownStep_cases in H.
    cbn [StackedBar.lastValue].
    unfold StackedBar.hasLabels.
    destruct (labelsOf row) as [labels|e]; [|discriminate].
    destruct (shown row); simpl in *.
    + destruct (Js.inherited_key _ || _); [discriminate|].
      destruct (data row) as [|point more] eqn:Hd; [discriminate|].
      simpl in H. rewrite (IH _ _ _ _ H), lookup2_record. reflexivity.
    + apply (IH _ _ _ _ H).
Qed.

Lemma facetBreakdown_wf2 rows :
  forall acc colors acc' colors',
    facetBreakdown (acc, colors) rows = Js.Returns (acc', colors') ->
    StackedBar.wf2 acc -> StackedBar.wf2 acc'.
Proof.
  induction rows as [|row rows IH]; intros acc colors acc' colors' H Hwf.
  - simpl in *. now injection H as <- <-.
  - rewrite facetBreakdown_cons, breakdownStep_cases in H.
    destruct (labelsOf row) as [labels|e]; [|discriminate].
    destruct (shown row); simpl in *.
    + destruct (Js.inherited_key _ || _); [discriminate|].
      destruct (data row) as [|point more]; [discriminate|].
      simpl in H. apply (IH _ _ _ _ H). now apply wf2_record.
    + apply (IH _ _ _ _ H Hwf).
Qed.

(** The reduction goes through on supported rows. *)
Lemma facetBreakdown_returns rows :
  forallb supported rows = true ->
  forall st, exists st', facetBreakdown st rows = Js.Returns st'.
Proof.
  induction rows as [|row rows IH]; intros Hs [acc colors].
  - eexists; reflexivity.
  - simpl in Hs. apply andb_true_iff in Hs. destruct Hs as [Hrow Hrows].
    rewrite facetBreakdown_cons, breakdownStep_cases.
    unfold StackedBar.supported in Hrow.
    destruct (labelsOf row) as [labels|e]; [|discriminate].
    destruct (shown row); simpl in *.
    + apply andb_true_iff in Hrow. destruct Hrow as [Hrow Hdata].
      apply andb_true_iff in Hrow. destruct Hrow as [H1 H2].
      apply negb_true_iff in H1, H2. rewrite H1, H2. simpl.
      destruct (data row); [discriminate|]. simpl. apply (IH Hrows).
    + apply (IH Hrows).
Qed.

(** Rows that take no part in the chart do not change the reduction. *)
Lemma facetBreakdown_filter_shown rows :
  forallb supported rows = true ->
  forall st, facetBreakdown st rows = facetBreakdown st (filter shown rows).
Proof.
  induction rows as [|row rows IH]; intros Hs [acc colors]; [reflexivity|].
  simpl in Hs. apply andb_true_iff in Hs. destruct Hs as [Hrow Hrows].
  cbn [filter]. rewrite facetBreakdown_cons.
  destruct (shown row) eqn:Hshown.
  - rewrite facetBreakdown_cons.
    destruct (breakdownStep (acc, colors) row) as [st'|e]; simpl; auto.
  - rewrite breakdownStep_cases.
    unfold StackedBar.supported in Hrow.
    destruct (labelsOf row) as [labels|e]; [|discriminate].
    rewrite Hshown. simpl. auto.
Qed.

Lemma lastValue_app rows1 rows2 segment bar earlier :
  lastValue (rows1 ++ rows2) segment bar earlier =
  lastValue rows2 segment bar (lastValue rows1 segment bar earlier).
Proof.
  revert earlier. induction rows1 as [|row rows1 IH]; simpl; auto.
Qed.

Lemma lastValue_unchanged rows segment bar earlier :
  (forall row, In row rows -> shown row && hasLabels row segment bar = false) ->
  lastValue rows segment bar earlier = earlier.
Proof.
  induction rows as [|row rows IH]; simpl; intros H; [reflexivity|].
  rewrite (H row) by now left. apply IH. intros r Hr. apply H. now right.
Qed.

Lemma lastValue_origin rows segment bar v :
  forall earlier,
    lastValue rows segment bar earlier = Some v ->
    earlier = Some v \/
    exists row, In row rows /\ shown row = true /\
                hasLabels row segment bar = true /\ v = valueOf row.
Proof.
  induction rows as [|row rows IH]; simpl; intros earlier H; [now left|].
  destruct (IH _ H) as [Hnow|(r & Hin & Hr)].
  - destruct (shown row && hasLabels row segment bar) eqn:E; [|now left].
    apply andb_true_iff in E. destruct E as [E1 E2].
    right. exists row. injection Hnow as <-. auto.
  - right. exists r. destruct Hr as (H1 & H2 & H3). auto.
Qed.

Lemma lastValue_recorded rows segment bar row :
  In row rows -> shown row = true -> hasLabels row segment bar = true ->
  forall earlier, exists v, lastValue rows segment bar earlier = Some v.
Proof.
  induction rows as [|r rows IH]; simpl; intros Hin Hs Hl earlier; [tauto|].
  assert (Hkeep : forall e, e <> None ->
                            exists v, lastValue rows segment bar e = Some v).
  { clear. induction rows as [|r rows IH]; simpl; intros e He.
    - destruct e as [v|]; [eauto | congruence].
    - apply IH. destruct (_ && _); [discriminate | assumption]. }
  destruct Hin as [->|Hin].
  - rewrite Hs, Hl. simpl. apply Hkeep. discriminate.
  - now apply IH.
Qed.

(** The chart data lists exactly the entries of the dictionary. *)
Lemma shows_lookup2 acc colors unitType segment bar v :
  StackedBar.wf2 acc ->
  StackedBar.shows
    (map (fun '(segmentLabel, entry) =>
            segmentSeries colors unitType segmentLabel entry)
         (Js.Object_entries acc)) segment bar v <->
  StackedBar.lookup2 acc segment bar = Some v.
Proof.
  intros [Hacc Hentries]. unfold StackedBar.shows, StackedBar.lookup2. split.
  - intros (series & s & Hseries & Hs & Hseg & Hx & Hy).
    apply in_map_iff in Hseries. destruct Hseries as ([seg entry] & <- & Hin).
    unfold StackedBar.segmentSeries in Hs.
    apply in_map_iff in Hs. destruct Hs as ([b w] & <- & Hin').
    simpl in Hseg, Hx, Hy. subst seg b w.
    apply (JsFacts.Object_entries_get _ _ Hacc) in Hin. rewrite Hin.
    apply JsFacts.Object_entries_get; eauto.
  - destruct (Js.get acc segment) as [entry|] eqn:Hg; [|discriminate].
    intros Hb.
    exists (segmentSeries colors unitType segment entry).
    eexists. split; [|split].
    + apply in_map_iff. exists (segment, entry). split; [reflexivity|].
      now apply JsFacts.Object_entries_get.
    + unfold StackedBar.segmentSeries. apply in_map_iff.
      exists (bar, v). split; [reflexivity|].
      apply JsFacts.Object_entries_get; eauto.
    + simpl. auto.
Qed.

(** The transform returns on a non-empty set of supported rows, and its
    chart data shows the last recorded value of every pair of labels. *)
Lemma transformData_spec rows :
  rows <> [] -> forallb supported rows = true ->
  exists out,
    transformData rows = Js.Returns out /\
    forall segment bar v,
      StackedBar.shows out segment bar v <->
      lastValue rows segment bar None = Some v.
Proof.
  intros Hne Hs. unfold StackedBar.transformData.
  destruct (facetBreakdown_returns _ Hs ([], [])) as [[acc colors] Hfb].
  rewrite Hfb. simpl.
  destruct rows as [|first rest]; [congruence|].
  eexists. split; [reflexivity|].
  intros segment bar v.
  rewrite shows_lookup2 by (eapply facetBreakdown_wf2; [exact Hfb | apply wf2_empty]).
  rewrite (facetBreakdown_lookup _ _ _ Hfb). reflexivity.
Qed.

Lemma supported_labelsOf row :
  supported row = true -> exists labels, labelsOf row = Js.Returns labels.
Proof.
  unfold StackedBar.supported.
  destruct (labelsOf row) as [labels|e]; [eauto | discriminate].
Qed.

(** The bars of the chart are the bar labels of the rows that take part
    in it. *)
Lemma barLabels_shown rows out :
  forallb supported rows = true ->
  (forall segment bar v,
      StackedBar.shows out segment bar v <->
      lastValue rows segment bar None = Some v) ->
  forall b, In b (StackedBar.barLabels out) <->
            In b (map barLabelOf (filter shown rows)).
Proof.
  intros Hs Hout b. unfold StackedBar.barLabels. split.
  - intros Hb. apply in_flat_map in Hb. destruct Hb as (series & Hseries & Hb).
    apply in_map_iff in Hb. destruct Hb as (s & Hx & Hin).
    assert (Hshows : StackedBar.shows out (StackedBar.segmentLabel s) b
                                      (StackedBar.y s)).
    { exists series, s. auto. }
    apply Hout in Hshows.
    destruct (lastValue_origin _ _ _ _ Hshows) as [|(row & Hrow & Hsh & Hl & _)];
      [discriminate|].
    apply hasLabels_iff in Hl. apply labelsOf_barLabel in Hl. simpl in Hl.
    apply in_map_iff. exists row. split; [now symmetry|].
    apply filter_In. auto.
  - intros Hb. apply in_map_iff in Hb. destruct Hb as (row & <- & Hrow).
    apply filter_In in Hrow. destruct Hrow as [Hrow Hsh].
    assert (Hsup : supported row = true).
    { rewrite forallb_forall in Hs. auto. }
    destruct (supported_labelsOf _ Hsup) as [[bar segment] Hl].
    pose proof (labelsOf_barLabel _ Hl) as Hbar. simpl in Hbar. subst bar.
    apply hasLabels_iff in Hl.
    destruct (lastValue_recorded _ _ _ _ Hrow Hsh Hl None) as [v Hv].
    apply Hout in Hv. destruct Hv as (series & s & H1 & H2 & _ & Hx & _).
    apply in_flat_map. exists series. split; [assumption|].
    apply in_map_iff. eauto.
Qed.

(** C9, as the transform works: on supported rows, whose labels name no
    member inherited from [Object.prototype], when several rows that take
    part in the chart derive the same pair of segment and bar labels, the
    chart data keeps the [y] of the last of them in input order: that
    value is shown for the pair, and no other value is. *)
Theorem stacked_bar_last_row_wins (before after : list ResultRow)
  (row : ResultRow) (segment bar : string) :
  forallb supported (before ++ row :: after) = true ->
  shown row = true ->
  hasLabels row segment bar = true ->
  forallb (fun later => negb (shown later && hasLabels later segment bar))
          after = true ->
  exists out,
    transformData (before ++ row :: after) = Js.Returns out /\
    StackedBar.shows out segment bar (valueOf row) /\
    (forall v, StackedBar.shows out segment bar v -> v = valueOf row).
Proof.
  intros Hs Hshown Hlabels Hafter.
  assert (Hne : before ++ row :: after <> []).
  { destruct before; discriminate. }
  destruct (transformData_spec Hne Hs) as (out & Hout & Hshows).
  assert (Hlast : lastValue (before ++ row :: after) segment bar None =
                  Some (valueOf row)).
  { rewrite lastValue_app. cbn [StackedBar.lastValue].
    rewrite Hshown, Hlabels. simpl.
    apply lastValue_unchanged. intros later Hlater.
    rewrite forallb_forall in Hafter. apply Hafter in Hlater.
    now apply negb_true_iff in Hlater. }
  exists out. split; [assumption|]. split.
  - now apply Hshows.
  - intros v Hv. apply Hshows in Hv. congruence.
Qed.





End Transform.
End StackedBarFacts.

(* ================================================================== *)
(** * The scatter plot: mode selection, null filtering, ranges *)

Module ScatterFacts.

Lemma truthy_not_nullish (v : Js.value) :
  Js.truthy v = true -> Js.is_nullish v = false.
Proof. destruct v; simpl; congruence. Qed.

Lemma nullish_not_truthy (v : Js.value) :
  Js.is_nullish v = true -> Js.truthy v = false.
Proof. destruct v; simpl; congruence. Qed.

Section Transform.

Variable getUniqueAggregatesAndFacets : list ResultRow -> StringSet * StringSet.
Variable getUniqueNonAggregates : list ResultRow -> StringSet.
Variable getFacetLabel : list Group -> string.
Variable StringToNumber : string -> float.
Variable props : Scatter.Props.

#[local] Abbreviation Math_min := (Scatter.Math_min StringToNumber).
#[local] Abbreviation Math_max := (Scatter.Math_max StringToNumber).
#[local] Abbreviation shown := (Scatter.shown getFacetLabel props).
#[local] Abbreviation supported := (Scatter.supported getFacetLabel props).
#[local] Abbreviation facetGroupStep := (Scatter.facetGroupStep getFacetLabel props).
#[local] Abbreviation facetGroupData := (Scatter.facetGroupData getFacetLabel props).
#[local] Abbreviation getAggregatesData :=
  (Scatter.getAggregatesData getFacetLabel StringToNumber props).
#[local] Abbreviation getNonAggregatesData :=
  (Scatter.getNonAggregatesData getUniqueNonAggregates StringToNumber).
#[local] Abbreviation transformData :=
  (Scatter.transformData getUniqueAggregatesAndFacets getUniqueNonAggregates
                         getFacetLabel StringToNumber props).
#[local] Abbreviation nrqlInputIsValid :=
  (Scatter.nrqlInputIsValid getUniqueAggregatesAndFacets getUniqueNonAggregates).
#[local] Abbreviation widen := (Scatter.widen StringToNumber).
#[local] Abbreviation pointStep := (Scatter.pointStep StringToNumber).

(** C2: the transform takes the non-aggregate path whenever more than one
    non-aggregate attribute is found, whatever the number of aggregates;
    it takes the aggregate path when at most one non-aggregate attribute
    and more than one aggregate are found; otherwise it returns [null],
    which is the case exactly on the inputs the validator rejects. *)
Theorem scatter_mode_selection (rows : list ResultRow) :
  let nonAggregates := size (getUniqueNonAggregates rows) in
  let uniqueAggregates := fst (getUniqueAggregatesAndFacets rows) in
  (1 < nonAggregates ->
   transformData rows =
   Js.bind (getNonAggregatesData rows) (fun r => Js.Returns (Some r))) /\
  (nonAggregates <= 1 -> 1 < size uniqueAggregates ->
   transformData rows =
   Js.bind (getAggregatesData rows uniqueAggregates)
           (fun r => Js.Returns (Some r))) /\
  (nonAggregates <= 1 -> size uniqueAggregates <= 1 ->
   transformData rows = Js.Returns None) /\
  (transformData rows = Js.Returns None <-> nrqlInputIsValid rows = false).
Proof.
  cbv zeta. unfold Scatter.transformData, Scatter.nrqlInputIsValid.
  set (n := size (getUniqueNonAggregates rows)).
  set (ua := fst (getUniqueAggregatesAndFacets rows)).
  destruct (Nat.ltb_spec 1 n) as [Hn|Hn];
    destruct (Nat.ltb_spec 1 (size ua)) as [Ha|Ha].
  - repeat split; try reflexivity; try lia.
    + destruct (Scatter.getNonAggregatesData _ _ _); discriminate.
    + rewrite orb_false_iff, !Nat.leb_gt. lia.
  - repeat split; try reflexivity; try lia.
    + destruct (Scatter.getNonAggregatesData _ _ _); discriminate.
    + rewrite orb_false_iff, !Nat.leb_gt. lia.
  - repeat split; try reflexivity; try lia.
    + destruct (Scatter.getAggregatesData _ _ _ _ _); discriminate.
    + rewrite orb_false_iff, !Nat.leb_gt. lia.
  - repeat split; try reflexivity; try lia.
    rewrite orb_false_iff, !Nat.leb_gt. intros _. fold n. lia.
Qed.

Lemma facetGroupData_cons names acc row rows :
  facetGroupData names acc (row :: rows) =
  Js.bind (facetGroupStep names acc row)
          (fun acc' => facetGroupData names acc' rows).
Proof. reflexivity. Qed.

(** The grouping goes through on supported rows. *)
Lemma facetGroupData_returns names rows :
  forallb supported rows = true ->
  forall acc, exists grouped, facetGroupData names acc rows = Js.Returns grouped.
Proof.
  induction rows as [|row rows IH]; intros Hs acc.
  - eexists; reflexivity.
  - simpl in Hs. apply andb_true_iff in Hs. destruct Hs as [Hrow Hrows].
    rewrite facetGroupData_cons.
    unfold Scatter.facetGroupStep.
    unfold Scatter.supported, Scatter.shown in Hrow.
    rewrite negb_orb, negb_involutive in Hrow.
    destruct (negb (Scatter.visible (Scatter.other props))
              && String.eqb (getFacetLabel (groups (metadata row))) "Other");
      simpl in *; [apply (IH Hrows)|].
    apply negb_true_iff in Hrow. rewrite Hrow. simpl. apply (IH Hrows).
Qed.

Lemma mapPoints_pointStep xA yA zA xU yU zU color points :
  forall bounds,
    Scatter.mapPoints (pointStep xA yA zA xU yU zU color) bounds points =
    (map (Scatter.datapointOf xA yA zA xU yU zU color) points,
     fold_left (widen xA yA) points bounds).
Proof.
  induction points as [|point points IH]; intros bounds; [reflexivity|].
  cbn [Scatter.mapPoints map fold_left].
  unfold Scatter.pointStep at 1. now rewrite IH.
Qed.

Section Datapoint.

Variables xA yA zA : option string.
Variables xU yU zU : Js.value.
Variable color : string.
Variable point : DataPoint.

Let x := Js.prop point (Scatter.attribute_key xA).
Let y := Js.prop point (Scatter.attribute_key yA).
Let z := Js.prop point (Scatter.attribute_key zA).
Let datapoint := Scatter.datapointOf xA yA zA xU yU zU color point.

Lemma datapoint_xy : Js.prop datapoint "x" = x /\ Js.prop datapoint "y" = y.
Proof.
  unfold datapoint, Scatter.datapointOf. fold z.
  destruct (Js.truthy z); split; reflexivity.
Qed.

Lemma datapoint_z_truthy :
  Js.truthy z = true -> Js.prop datapoint "z" = z.
Proof.
  intros Hz. unfold datapoint, Scatter.datapointOf. fold z.
  rewrite Hz. reflexivity.
Qed.

Lemma datapoint_z_falsy :
  Js.truthy z = false -> Js.get datapoint "z" = None.
Proof.
  intros Hz. unfold datapoint, Scatter.datapointOf. fold z.
  rewrite Hz. reflexivity.
Qed.

Lemma entryHasNulls_without_z :
  Scatter.entryHasNulls datapoint false = Js.is_nullish x || Js.is_nullish y.
Proof.
  unfold Scatter.entryHasNulls.
  destruct datapoint_xy as [-> ->]. simpl. now rewrite orb_false_r.
Qed.

Lemma entryHasNulls_with_z :
  Scatter.entryHasNulls datapoint true =
  Js.is_nullish x || Js.is_nullish y || Js.is_nullish (Js.prop datapoint "z").
Proof.
  unfold Scatter.entryHasNulls.
  destruct datapoint_xy as [-> ->]. simpl.
  now rewrite orb_false_r, orb_assoc.
Qed.

End Datapoint.

(** C4, as the non-aggregate mode decides it, for attribute names that
    name no member inherited from [Object.prototype]: the series holds one
    datapoint per retained data point of the first row, in order.  With
    at most two attributes a point is dropped exactly when its [x] or [y]
    is [null] or [undefined].  With a third attribute, a point whose third
    value is [null] or absent carries no [z] and is dropped as well, and a
    point whose third value is truthy carries it as [z] and is dropped
    exactly when its [x] or [y] is [null] or [undefined]. *)
Theorem scatter_non_aggregate_points (row : ResultRow) (rest : list ResultRow) :
  let names := getUniqueNonAggregates (row :: rest) in
  let xA := nth_error names 0 in
  let yA := nth_error names 1 in
  let zA := nth_error names 2 in
  let queryHasZField := Nat.ltb 2 (size names) in
  let datapoint :=
    Scatter.datapointOf xA yA zA
      (unit_of (metadata row) (Scatter.attribute_key xA))
      (unit_of (metadata row) (Scatter.attribute_key yA))
      (unit_of (metadata row) (Scatter.attribute_key zA))
      (color (metadata row)) in
  let x point := Js.prop point (Scatter.attribute_key xA) in
  let y point := Js.prop point (Scatter.attribute_key yA) in
  let z point := Js.prop point (Scatter.attribute_key zA) in
  1 < size names ->
  existsb Js.inherited_key
    [Scatter.attribute_key xA; Scatter.attribute_key yA;
     Scatter.attribute_key zA] = false ->
  exists out,
    transformData (row :: rest) = Js.Returns (Some out) /\
    Scatter.series out =
    filter (fun entry => negb (Scatter.entryHasNulls entry queryHasZField))
           (map datapoint (data row)) /\
    (forall point,
        (Js.is_nullish (z point) = true -> Js.get (datapoint point) "z" = None) /\
        (Js.truthy (z point) = true -> Js.prop (datapoint point) "z" = z point)) /\
    (size names <= 2 ->
     forall point,
       Scatter.entryHasNulls (datapoint point) queryHasZField =
       Js.is_nullish (x point) || Js.is_nullish (y point)) /\
    (2 < size names ->
     forall point,
       (Js.is_nullish (z point) = true ->
        Scatter.entryHasNulls (datapoint point) queryHasZField = true) /\
       (Js.truthy (z point) = true ->
        Scatter.entryHasNulls (datapoint point) queryHasZField =
        Js.is_nullish (x point) || Js.is_nullish (y point))).
Proof.
  cbv zeta. intros Hsize Hkeys.
  unfold Scatter.transformData, Scatter.getNonAggregatesData.
  destruct (Nat.ltb_spec 1 (size (getUniqueNonAggregates (row :: rest))))
    as [_|Hle]; [|lia].
  rewrite Hkeys, mapPoints_pointStep. simpl.
  eexists. split; [reflexivity|]. split; [reflexivity|]. split; [|split].
  - intros point. split.
    + intros Hz. apply datapoint_z_falsy. now apply nullish_not_truthy.
    + apply datapoint_z_truthy.
  - intros Hle point.
    destruct (Nat.ltb_spec 2 (size (getUniqueNonAggregates (row :: rest))))
      as [Hlt|_]; [lia|].
    apply entryHasNulls_without_z.
  - intros Hlt point.
    destruct (Nat.ltb_spec 2 (size (getUniqueNonAggregates (row :: rest))))
      as [_|Hle]; [|lia].
    rewrite entryHasNulls_with_z. split.
    + intros Hz. unfold Js.prop at 3.
      rewrite datapoint_z_falsy by now apply nullish_not_truthy.
      simpl. now rewrite orb_true_r.
    + intros Hz. rewrite datapoint_z_truthy by assumption.
      rewrite (truthy_not_nullish _ Hz). now rewrite orb_false_r.
Qed.

(** The range of the non-aggregate mode is accumulated over every data
    point of the first row, before the points with missing values are
    filtered out of the series. *)
Lemma scatter_non_aggregate_range (row : ResultRow) (rest : list ResultRow)
  (out : Scatter.Transformed) :
  getNonAggregatesData (row :: rest) = Js.Returns out ->
  let names := getUniqueNonAggregates (row :: rest) in
  Scatter.range out =
  fold_left (widen (nth_error names 0) (nth_error names 1)) (data row)
            {| Scatter.xMin := Js.Undefined; Scatter.xMax := Js.Undefined;
               Scatter.yMin := Js.Undefined; Scatter.yMax := Js.Undefined |}.
Proof.
  unfold Scatter.getNonAggregatesData.
  destruct (existsb Js.inherited_key _); [discriminate|].
  rewrite mapPoints_pointStep. now intros [= <-].
Qed.

End Transform.
End ScatterFacts.

(* ================================================================== *)
(** * The worked examples *)

Module Worked.

Import Helpers Examples.

(** ** Gauge *)

(** The threshold rule on the values [60] and [50]: success with high
    values as success, critical without, and the colour of the data when
    the threshold is no number. *)
Example getColor_60_50 :
  Gauge.getColor parseFloat "red" "green" (gaugeProps (Js.Str "50") true)
                 60 "blue" = "green" /\
  Gauge.getColor parseFloat "red" "green" (gaugeProps (Js.Str "50") false)
                 60 "blue" = "red" /\
  Gauge.getColor parseFloat "red" "green"
                 (gaugeProps (Js.Str "not-a-number") true) 60 "blue" = "blue" /\
  Gauge.getColor parseFloat "red" "green"
                 (gaugeProps (Js.Str "not-a-number") false) 60 "blue" = "blue" /\
  Gauge.getColor parseFloat "red" "green" (gaugeProps (Js.Str "50") true)
                 50 "blue" = "red" /\
  Gauge.getColor parseFloat "red" "green" (gaugeProps (Js.Str "50") false)
                 50 "blue" = "red".
Proof. repeat split; reflexivity. Qed.

(** C8, against the rule on every row: the validator accepts a result of
    one aggregate and no facet whose first row holds one data point, though
    its second row holds two. *)
Lemma gauge_validator_reads_first_row_only :
  Gauge.nrqlInputIsValid getUniqueAggregatesAndFacets gaugeRowsWithLongerRow =
  Js.Returns true /\
  getUniqueAggregatesAndFacets gaugeRowsWithLongerRow = (["count"], []) /\
  map (fun row => List.length (data row)) gaugeRowsWithLongerRow = [1; 2].
Proof. repeat split; reflexivity. Qed.

(** C10, against the exact sum: for [y = -1.1] the validator accepts, the
    slices are [-110.00000000000001] and [210], and their sum is below
    [100]. *)
Lemma gauge_slices_sum_below_100 :
  Gauge.nrqlInputIsValid getUniqueAggregatesAndFacets (gaugeRows minus_1_1) =
  Js.Returns true /\
  exists out,
    Gauge.transformData parseFloat StringToNumber "red" "green"
      (gaugeProps (Js.Str "50") true) (gaugeRows minus_1_1) = Js.Returns out /\
    map Gauge.y (Gauge.series out) = [(minus_1_1 * 100)%float; 210%float] /\
    PrimFloat.eqb (minus_1_1 * 100 + 210) 100 = false /\
    PrimFloat.ltb (minus_1_1 * 100 + 210) 100 = true.
Proof.
  split; [reflexivity|]. eexists. split; [reflexivity|].
  repeat split; reflexivity.
Qed.

(** The slices for [y = 1.5]: the remainder is [-50]. *)
Lemma gauge_two_slices_witness :
  Gauge.transformData parseFloat StringToNumber "red" "green"
    (gaugeProps (Js.Str "50") true) (gaugeRows 1.5) =
  Js.Returns
    {| Gauge.percent := 150;
       Gauge.label := "";
       Gauge.series :=
         [ {| Gauge.x := "progress"; Gauge.y := 150;
              Gauge.color := "green" |};
           {| Gauge.x := "remainder"; Gauge.y := (-50)%float;
              Gauge.color := "transparent" |} ] |} /\
  Js.lt (100 - 1.5 * 100) 0 = true.
Proof.
  destruct (gauge_two_slices parseFloat StringToNumber "red" "green"
              (gaugeProps (Js.Str "50") true)
              (aggregateRow "blue" [fn "percentage"] (Js.Num 1.5)) []
              (point := [("y", Js.Num 1.5)]) (more := []) eq_refl)
    as (Hslices & Hremainder & _ & _).
  split; [exact Hslices | exact (Hremainder eq_refl)].
Defined.

(** The slices for [y = -0.5] and for [y = 0.5]: a progress of [-50], and
    two halves. *)
Example gauge_slices_negative_and_half :
  (exists out,
      Gauge.transformData parseFloat StringToNumber "red" "green"
        (gaugeProps Js.Undefined true) (gaugeRows (-0.5)) = Js.Returns out /\
      map Gauge.y (Gauge.series out) = [(-50)%float; 150%float]) /\
  (exists out,
      Gauge.transformData parseFloat StringToNumber "red" "green"
        (gaugeProps Js.Undefined true) (gaugeRows 0.5) = Js.Returns out /\
      map Gauge.y (Gauge.series out) = [50%float; 50%float]).
Proof. split; eexists; split; reflexivity. Qed.

(** ** Stacked bar *)

Lemma filter_all {A : Type} (f : A -> bool) (l : list A) :
  (forall a, In a l -> f a = true) -> filter f l = l.
Proof.
  induction l as [|a l IH]; simpl; intros H; [reflexivity|].
  rewrite (H a) by now left. f_equal. apply IH. intros b Hb. apply H. now right.
Qed.

(** C3, against the single segment group: the two rows of the example
    give two series, one per host, of one bar segment each. *)
Lemma stacked_bar_two_hosts_two_series :
  StackedBar.transformData getFacetLabel typeToUnit toLocaleString
    (otherVisible true) twoHosts =
  Js.Returns [ [segment "red" "a" "us" 5 "5"]; [segment "green" "b" "us" 7 "7"] ] /\
  (forall s1 s2 : StackedBar.BarSegment,
      [ [segment "red" "a" "us" 5 "5"]; [segment "green" "b" "us" 7 "7"] ]
      <> [ [s1; s2] ]).
Proof. split; [reflexivity | discriminate]. Qed.

(** C3, as the transform works: the bar label of a row is the
    comma-joined values of all its facet groups but the last and its
    segment label the value of the last facet group; the two rows of the
    example give two series, one per host ([a], then [b]), each of one
    bar segment for the bar [us], with the values [5] and [7]. *)
Theorem stacked_bar_two_hosts :
  (forall groups facets lastFacet,
      filter is_facet groups = facets ++ [lastFacet] ->
      StackedBar.getFacetLabels getFacetLabel groups =
      Js.Returns
        {| StackedBar.barLabel := String.concat ", " (map value facets);
           StackedBar.facetSegmentLabel := value lastFacet |}) /\
  StackedBar.transformData getFacetLabel typeToUnit toLocaleString
    (otherVisible true) twoHosts =
  Js.Returns [ [segment "red" "a" "us" 5 "5"]; [segment "green" "b" "us" 7 "7"] ].
Proof.
  split; [|reflexivity].
  intros groups facets lastFacet Hf.
  unfold StackedBar.getFacetLabels. rewrite Hf.
  rewrite length_app, Nat.add_sub. simpl List.length.
  rewrite nth_error_app2 by lia. rewrite Nat.sub_diag. simpl.
  rewrite removelast_last. unfold getFacetLabel.
  rewrite filter_all; [reflexivity|].
  intros g Hg.
  assert (Hin : In g (filter is_facet groups)).
  { rewrite Hf. apply in_or_app. now left. }
  apply filter_In in Hin. tauto.
Qed.

(** C9, against the last value kept for every pair: with the overflow
    bucket hidden, the two rows of the example derive the same pair of
    labels, [a] and [Other], and the transform returns chart data that
    keeps neither the value of the last of them nor any other. *)
Lemma stacked_bar_hidden_rows_keep_no_value :
  map (StackedBar.labelsOf getFacetLabel) overflowPair =
  [ Js.Returns {| StackedBar.barLabel := "Other";
                  StackedBar.facetSegmentLabel := "a" |};
    Js.Returns {| StackedBar.barLabel := "Other";
                  StackedBar.facetSegmentLabel := "a" |} ] /\
  map StackedBar.valueOf overflowPair = [Js.Num 5; Js.Num 7] /\
  StackedBar.transformData getFacetLabel typeToUnit toLocaleString
    (otherVisible false) overflowPair = Js.Returns [] /\
  (forall v, ~ StackedBar.shows [] "a" "Other" v).
Proof.
  split; [reflexivity|]. split; [reflexivity|]. split; [reflexivity|].
  intros v (series & s & [] & _).
Qed.

(** Two rows with the labels [a] and [us]: the chart shows [7], the value
    of the second, and nothing else for this pair. *)
Lemma stacked_bar_last_row_wins_witness :
  exists out,
    StackedBar.transformData getFacetLabel typeToUnit toLocaleString
      (otherVisible true) sameLabels = Js.Returns out /\
    StackedBar.shows out "a" "us" (Js.Num 7) /\
    (forall v, StackedBar.shows out "a" "us" v -> v = Js.Num 7).
Proof.
  exact (StackedBarFacts.stacked_bar_last_row_wins
           getFacetLabel typeToUnit toLocaleString (otherVisible true)
           [facetRow "red" "us" "a" 5] [] (facetRow "green" "us" "a" 7)
           "a" "us" eq_refl eq_refl eq_refl eq_refl).
Defined.

Example stacked_bar_same_labels :
  StackedBar.transformData getFacetLabel typeToUnit toLocaleString
    (otherVisible true) sameLabels =
  Js.Returns [ [segment "red" "a" "us" 7 "7"] ].
Proof. reflexivity. Qed.


Example stacked_bar_overflow_hidden_and_visible :
  StackedBar.transformData getFacetLabel typeToUnit toLocaleString
    (otherVisible false) withOverflow =
  Js.Returns [ [segment "red" "a" "us" 5 "5"]; [segment "green" "b" "eu" 7 "7"] ] /\
  StackedBar.transformData getFacetLabel typeToUnit toLocaleString
    (otherVisible true) withOverflow =
  Js.Returns [ [segment "red" "a" "us" 5 "5"; segment "red" "a" "Other" 1 "1"];
               [segment "green" "b" "eu" 7 "7"; segment "green" "b" "Other" 2 "2"] ] /\
  StackedBar.getBarCount
    [ [segment "red" "a" "us" 5 "5"; segment "red" "a" "Other" 1 "1"];
      [segment "green" "b" "eu" 7 "7"; segment "green" "b" "Other" 2 "2"] ] = 3.
Proof. repeat split; reflexivity. Qed.

(** Segment labels that are array indices come first, in numeric order:
    the series of the hosts [b], [10], [9] are those of [9], [10], [b]. *)
Example stacked_bar_numbered_hosts :
  StackedBar.transformData getFacetLabel typeToUnit toLocaleString
    (otherVisible true) numberedHosts =
  Js.Returns [ [segment "blue" "9" "us" 3 "3"];
               [segment "green" "10" "us" 2 "2"];
               [segment "red" "b" "us" 1 "1"] ].
Proof. reflexivity. Qed.

(** ** Scatter plot *)

(** C4, against the optional third value: with three attributes the
    second point, whose [x] and [y] are numbers and whose third value is
    [null], is dropped. *)
Lemma scatter_null_third_value_drops_point :
  forallb (fun point =>
             negb (Js.is_nullish (Js.prop point "duration"))
             && negb (Js.is_nullish (Js.prop point "externalDuration")))
          (flat_map data threeAttributes) = true /\
  List.length (flat_map data threeAttributes) = 2 /\
  exists out,
    Scatter.transformData getUniqueAggregatesAndFacets getUniqueNonAggregates
      getFacetLabel StringToNumber (scatterOther true) threeAttributes =
    Js.Returns (Some out) /\
    Scatter.series out =
    [ attributePoint (Js.Num 1) (Js.Num 2)
      ++ [ ("z", Js.Num 3); ("zDisplayName", Js.Str "databaseDuration");
           ("zUnitType", Js.Undefined) ] ].
Proof.
  split; [reflexivity|]. split; [reflexivity|].
  eexists. split; [vm_compute; reflexivity | reflexivity].
Qed.

(** Two attributes: of the two points of the example the second, whose
    [y] is [null], is dropped, and exactly one is retained. *)
Lemma scatter_non_aggregate_points_witness :
  exists out,
    Scatter.transformData getUniqueAggregatesAndFacets getUniqueNonAggregates
      getFacetLabel StringToNumber (scatterOther true) twoAttributes =
    Js.Returns (Some out) /\
    Scatter.series out = [ attributePoint (Js.Num 1) (Js.Num zero_2) ] /\
    List.length (Scatter.series out) = 1.
Proof.
  destruct (ScatterFacts.scatter_non_aggregate_points
              getUniqueAggregatesAndFacets getUniqueNonAggregates
              getFacetLabel StringToNumber (scatterOther true)
              (attributeRow
                 [ [("duration", Js.Num 1);
                    ("externalDuration", Js.Num zero_2)];
                   [("duration", Js.Num 2);
                    ("externalDuration", Js.Null)] ])
              [] (le_n 2) eq_refl)
    as (out & Hout & Hseries & _).
  exists out. split; [exact Hout|].
  rewrite Hseries. split; reflexivity.
Defined.

(** C5 in the non-aggregate mode: the second point is dropped for its
    [null] [y], yet its [x] gives [xMax = 100] and its [y] gives
    [yMin = 0]; the retained point alone would give [xMax = 1] and
    [yMin = 2]. *)
Theorem scatter_range_counts_dropped_point :
  Scatter.transformData getUniqueAggregatesAndFacets getUniqueNonAggregates
    getFacetLabel StringToNumber (scatterOther true) droppedPoint =
  Js.Returns
    (Some {| Scatter.series := [ attributePoint (Js.Num 1) (Js.Num 2) ];
             Scatter.range :=
               {| Scatter.xMin := Js.Num 1; Scatter.xMax := Js.Num 100;
                  Scatter.yMin := Js.Num 0; Scatter.yMax := Js.Num 2 |} |}).
Proof. reflexivity. Qed.

(** Both points are retained and the lowest [x] is [0], yet [xMin = 5]:
    a running bound of [0] is taken for a missing one. *)
Example scatter_range_forgets_zero :
  Scatter.transformData getUniqueAggregatesAndFacets getUniqueNonAggregates
    getFacetLabel StringToNumber (scatterOther true) zeroFirst =
  Js.Returns
    (Some {| Scatter.series := [ attributePoint (Js.Num 0) (Js.Num 1);
                                 attributePoint (Js.Num 5) (Js.Num 2) ];
             Scatter.range :=
               {| Scatter.xMin := Js.Num 5; Scatter.xMax := Js.Num 5;
                  Scatter.yMin := Js.Num 1; Scatter.yMax := Js.Num 2 |} |}).
Proof. reflexivity. Qed.

(** Retained [x] values [2], [5], [1]: [xMin = 1] and [xMax = 5]. *)
Example scatter_range_2_5_1 :
  exists out,
    Scatter.transformData getUniqueAggregatesAndFacets getUniqueNonAggregates
      getFacetLabel StringToNumber (scatterOther true) threePoints =
    Js.Returns (Some out) /\
    map (fun e => Js.prop e "x") (Scatter.series out) =
    [Js.Num 2; Js.Num 5; Js.Num 1] /\
    Scatter.xMin (Scatter.range out) = Js.Num 1 /\
    Scatter.xMax (Scatter.range out) = Js.Num 5.
Proof. eexists. split; [vm_compute; reflexivity | repeat split; reflexivity]. Qed.

(** C6 on a facet label that names a member every object inherits: the
    two rows of the method [valueOf] hold a count and an average, yet the
    aggregate mode returns no point for them and the range of no point,
    where the same rows under the label [run] give the point of [run]. *)
Theorem scatter_inherited_facet_label_has_no_point :
  map (fun row => (getFacetLabel (groups (metadata row)), Scatter.dataValueOf row))
      (byMethod "valueOf") =
  [ ("valueOf", Js.Num 2); ("valueOf", Js.Num 10) ] /\
  Scatter.transformData getUniqueAggregatesAndFacets getUniqueNonAggregates
    getFacetLabel StringToNumber (scatterOther true) (byMethod "valueOf") =
  Js.Returns
    (Some {| Scatter.series := [];
             Scatter.range :=
               {| Scatter.xMin := Js.Num PrimFloat.infinity;
                  Scatter.xMax := Js.Num PrimFloat.neg_infinity;
                  Scatter.yMin := Js.Num PrimFloat.infinity;
                  Scatter.yMax := Js.Num PrimFloat.neg_infinity |} |}) /\
  Scatter.transformData getUniqueAggregatesAndFacets getUniqueNonAggregates
    getFacetLabel StringToNumber (scatterOther true) (byMethod "run") =
  Js.Returns
    (Some {| Scatter.series := [ facetPoint "run" 2 10 ];
             Scatter.range :=
               {| Scatter.xMin := Js.Num 2; Scatter.xMax := Js.Num 2;
                  Scatter.yMin := Js.Num 10; Scatter.yMax := Js.Num 10 |} |}).
Proof. repeat split; vm_compute; reflexivity. Qed.

(** The transform of the same rows goes through the aggregate mode. *)
Example scatter_three_facets :
  exists out,
    Scatter.transformData getUniqueAggregatesAndFacets getUniqueNonAggregates
      getFacetLabel StringToNumber (scatterOther true) threeFacets =
    Js.Returns (Some out) /\
    Scatter.series out = [ facetPoint "a" 2 10; facetPoint "b" 5 30 ].
Proof. eexists. split; [vm_compute; reflexivity | reflexivity]. Qed.

End Worked.

(* ================================================================== *)
(** * The gauge: what the transform reads, and what is rendered *)

Module GaugeRender.

(** No number is below or above [NaN]. *)
Lemma lt_nan_l (t : float) : Js.lt PrimFloat.nan t = false.
Proof. unfold Js.lt. rewrite ltb_spec. reflexivity. Qed.

Lemma gt_nan_l (t : float) : Js.gt PrimFloat.nan t = false.
Proof.
  unfold Js.gt. rewrite ltb_spec. unfold SFltb.
  change (Prim2SF PrimFloat.nan) with S754_nan.
  now destruct (Prim2SF t).
Qed.

Section Facts.

Variable getUniqueAggregatesAndFacets : list ResultRow -> StringSet * StringSet.
Variable parseFloat : Js.value -> float.
Variable StringToNumber : string -> float.
Variables red6 green6 : string.
Variable props : Gauge.Props.

#[local] Abbreviation getColor := (Gauge.getColor parseFloat red6 green6 props).
#[local] Abbreviation transformData :=
  (Gauge.transformData parseFloat StringToNumber red6 green6 props).
#[local] Abbreviation nrqlInputIsValid :=
  (Gauge.nrqlInputIsValid getUniqueAggregatesAndFacets).
#[local] Abbreviation renderQuery :=
  (Gauge.renderQuery getUniqueAggregatesAndFacets parseFloat StringToNumber
                     red6 green6 props).
#[local] Abbreviation threshold :=
  (parseFloat (Gauge.criticalThreshold (Gauge.thresholds props))).

(** A result the validator accepts is one the transform goes through
    on. *)
Lemma valid_transforms (rows : list ResultRow) :
  nrqlInputIsValid rows = Js.Returns true ->
  exists transformed, transformData rows = Js.Returns transformed.
Proof.
  unfold Gauge.nrqlInputIsValid, Gauge.transformData.
  destruct rows as [|row rest]; [discriminate|].
  destruct (getUniqueAggregatesAndFacets (row :: rest)) as [ua uf].
  intros [= H]. apply andb_true_iff in H. destruct H as [_ H].
  destruct (data row) as [|point more]; [discriminate|].
  eexists; reflexivity.
Qed.

(** X1: The gauge transform reads the first data point of the first row and
    nothing else.  It throws a [TypeError] exactly when there is no such
    point: on an empty result, and on a first row without data points.
    The other rows and the other points of the first row never change its
    result. *)
Theorem gauge_transform_reads_first_point (rows : list ResultRow) :
  (transformData rows = Js.Throws Js.TypeError <->
   rows = [] \/ exists row rest, rows = row :: rest /\ data row = []) /\
  (forall e, transformData rows = Js.Throws e -> e = Js.TypeError) /\
  (forall row rest point more,
      rows = row :: rest -> data row = point :: more ->
      transformData rows =
      transformData [ {| data := [point]; metadata := metadata row |} ]).
Proof.
  unfold Gauge.transformData. split; [|split].
  - destruct rows as [|row rest].
    + split; [now left | reflexivity].
    + destruct (data row) as [|point more] eqn:Hd.
      * split; [|reflexivity]. intros _. right. now exists row, rest.
      * split; [discriminate|].
        intros [H|(row' & rest' & [= <- <-] & H)]; congruence.
  - intros e. destruct rows as [|row rest]; [now intros [= <-]|].
    destruct (data row); [now intros [= <-] | discriminate].
  - intros row rest point more -> Hd. now rewrite Hd.
Qed.

(** X2: A first data point without [y] makes both slices [NaN]; the progress
    slice is then critical under every threshold that parses, since [NaN]
    is neither above nor below a number.  A [y] of [null] counts as [0]:
    the slices are [0] and [100]. *)
Theorem gauge_value_missing_or_null (m : Metadata) (rest : list ResultRow)
  (point : DataPoint) (more : list DataPoint) :
  let rows := {| data := point :: more; metadata := m |} :: rest in
  (Js.get point "y" = None ->
   transformData rows =
   Js.Returns
     {| Gauge.percent := PrimFloat.nan;
        Gauge.label := name m;
        Gauge.series :=
          [ {| Gauge.x := "progress"; Gauge.y := PrimFloat.nan;
               Gauge.color :=
                 if PrimFloat.is_nan threshold then color m else red6 |};
            {| Gauge.x := "remainder"; Gauge.y := PrimFloat.nan;
               Gauge.color := "transparent" |} ] |}) /\
  (Js.get point "y" = Some Js.Null ->
   transformData rows =
   Js.Returns
     {| Gauge.percent := 0%float;
        Gauge.label := name m;
        Gauge.series :=
          [ {| Gauge.x := "progress"; Gauge.y := 0%float;
               Gauge.color := getColor 0%float (color m) |};
            {| Gauge.x := "remainder"; Gauge.y := 100%float;
               Gauge.color := "transparent" |} ] |}).
Proof.
  cbv zeta. unfold Gauge.transformData, Js.prop. simpl. split; intros ->; simpl.
  - change (PrimFloat.nan * 100)%float with PrimFloat.nan.
    change (100 - PrimFloat.nan)%float with PrimFloat.nan.
    unfold Gauge.getColor.
    rewrite lt_nan_l, gt_nan_l.
    now destruct (PrimFloat.is_nan threshold),
      (Gauge.highValuesAreSuccess (Gauge.thresholds props)).
  - change (PrimFloat.zero * 100)%float with 0%float.
    change (100 - 0)%float with 100%float.
    reflexivity.
Qed.

(** An error that comes with data plays no part. *)
Lemma gauge_renderQuery_data rows loading error :
  renderQuery {| NrqlQuery.data := Some rows; NrqlQuery.loading := loading;
                 NrqlQuery.error := error |} =
  renderQuery {| NrqlQuery.data := Some rows; NrqlQuery.loading := loading;
                 NrqlQuery.error := None |}.
Proof.
  unfold Gauge.renderQuery. simpl. destruct loading; [reflexivity|].
  now destruct error.
Qed.

(** For a loaded result with rows, the validator decides between the
    chart and the report of an unsupported query. *)
Lemma gauge_renderQuery_rows row rest error :
  let result := {| NrqlQuery.data := Some (row :: rest);
                   NrqlQuery.loading := false;
                   NrqlQuery.error := error |} in
  (nrqlInputIsValid (row :: rest) = Js.Returns true /\
   exists transformed,
     transformData (row :: rest) = Js.Returns transformed /\
     renderQuery result =
     Js.Returns (Gauge.Svg (Gauge.series transformed)
                           (Gauge.percent transformed)
                           (Gauge.label transformed))) \/
  (nrqlInputIsValid (row :: rest) = Js.Returns false /\
   exists title description,
     renderQuery result =
     Js.Returns (Gauge.NrqlQueryError title description)).
Proof.
  cbv zeta. rewrite gauge_renderQuery_data. unfold Gauge.renderQuery.
  cbn [NrqlQuery.loading NrqlQuery.data NrqlQuery.error List.length Nat.eqb].
  destruct (nrqlInputIsValid (row :: rest)) as [[|]|e] eqn:Hv.
  - left. split; [reflexivity|].
    destruct (valid_transforms _ Hv) as [t Ht]. exists t.
    split; [assumption|]. cbn [Js.bind negb]. now rewrite Ht.
  - right. split; [reflexivity|]. cbn [Js.bind negb]. eauto.
  - unfold Gauge.nrqlInputIsValid in Hv.
    destruct (getUniqueAggregatesAndFacets (row :: rest)); discriminate.
Qed.

(** X3: What the gauge renders for a query result.  The function given to
    [NrqlQuery] throws in one case only: no longer loading, no data and no
    error.  It shows the no-data state exactly for an empty result, and the
    chart exactly for a result that the validator accepts, with the output
    of the transform; the validator shields the transform, which never
    throws behind it.  An error that comes with data is not reported: the
    data is shown as if there were none. *)
Theorem gauge_render_outcomes (result : NrqlQuery.RenderProps) :
  ((exists view, renderQuery result = Js.Returns view) <->
   NrqlQuery.loading result = true \/
   NrqlQuery.data result <> None \/
   NrqlQuery.error result <> None) /\
  (renderQuery result = Js.Returns Gauge.NoDataState <->
   NrqlQuery.loading result = false /\ NrqlQuery.data result = Some []) /\
  (forall pie animated text,
      renderQuery result = Js.Returns (Gauge.Svg pie animated text) <->
      NrqlQuery.loading result = false /\
      exists rows,
        NrqlQuery.data result = Some rows /\
        nrqlInputIsValid rows = Js.Returns true /\
        transformData rows =
        Js.Returns {| Gauge.percent := animated; Gauge.label := text;
                      Gauge.series := pie |}) /\
  (forall rows,
      NrqlQuery.data result = Some rows ->
      renderQuery result =
      renderQuery {| NrqlQuery.data := Some rows;
                     NrqlQuery.loading := NrqlQuery.loading result;
                     NrqlQuery.error := None |}).
Proof.
  destruct result as [data loading error].
  cbn [NrqlQuery.loading NrqlQuery.data NrqlQuery.error].
  split; [|split; [|split]].
  - destruct loading; [split; [auto | intros _; eexists; reflexivity]|].
    destruct data as [[|row rest]|].
    + split; [intros _; right; left; discriminate|].
      intros _. eexists. rewrite gauge_renderQuery_data. reflexivity.
    + split; [intros _; right; left; discriminate|]. intros _.
      destruct (gauge_renderQuery_rows row rest error)
        as [(_ & t & _ & H)|(_ & title & description & H)];
        rewrite H; eauto.
    + destruct error as [message|].
      * split; [intros _; right; right; discriminate|].
        intros _. eexists. reflexivity.
      * split; [intros [view H]; discriminate|].
        intros [H|[H|H]]; congruence.
  - destruct loading; [split; [discriminate | intros [H _]; discriminate]|].
    destruct data as [[|row rest]|].
    + rewrite gauge_renderQuery_data. split; [auto | reflexivity].
    + split; [|intros [_ H]; discriminate].
      destruct (gauge_renderQuery_rows row rest error)
        as [(_ & t & _ & H)|(_ & title & description & H)];
        rewrite H; discriminate.
    + split; [|intros [_ H]; discriminate].
      destruct error; discriminate.
  - intros pie animated text.
    destruct loading; [split; [discriminate | intros [H _]; discriminate]|].
    destruct data as [[|row rest]|].
    + rewrite gauge_renderQuery_data.
      split; [discriminate|].
      intros [_ (rows & [= <-] & H & _)]. discriminate.
    + destruct (gauge_renderQuery_rows row rest error)
        as [(Hv & [p l s] & Ht & H)|(Hv & title & description & H)];
        rewrite H.
      * split.
        -- intros [= <- <- <-]. split; [reflexivity|].
           exists (row :: rest). auto.
        -- intros [_ (rows & [= <-] & _ & Ht')]. rewrite Ht in Ht'.
           now injection Ht' as -> -> ->.
      * split; [discriminate|].
        intros [_ (rows & [= <-] & Hv' & _)]. congruence.
    + split; [destruct error; discriminate|].
      intros [_ (rows & H & _)]. discriminate.
  - intros rows ->. apply gauge_renderQuery_data.
Qed.

End Facts.

End GaugeRender.

(* ================================================================== *)
(** * Enumeration order of dictionaries *)

Module EnumerationFacts.

Section Dictionary.
Context {V : Type}.
Implicit Types (o : Js.object V) (k : string) (v : V).

(** The order of the keys under assignment: an existing key keeps its
    place and a new one goes last. *)
Lemma keys_set_order o k v :
  map fst (Js.set o k v) = StackedBar.set_add (map fst o) k.
Proof.
  unfold StackedBar.set_add.
  induction o as [|[k0 v0] o IH]; simpl; [reflexivity|].
  rewrite (String.eqb_sym k k0).
  destruct (String.eqb k0 k) eqn:E; simpl; [reflexivity|].
  rewrite IH. now destruct (existsb (String.eqb k) (map fst o)).
Qed.

Lemma Permutation_insert_by_index (e : string * V) l :
  Permutation (Js.insert_by_index e l) (e :: l).
Proof.
  induction l as [|x l IH]; simpl; [reflexivity|].
  destruct (N.leb _ _); [reflexivity|].
  rewrite IH. apply perm_swap.
Qed.

Lemma Permutation_sort_by_index (l : list (string * V)) :
  Permutation (Js.sort_by_index l) l.
Proof.
  induction l as [|x l IH]; simpl; [reflexivity|].
  rewrite Permutation_insert_by_index. now constructor.
Qed.

Lemma Permutation_partition {A : Type} (f : A -> bool) (l : list A) :
  Permutation (filter f l ++ filter (fun a => negb (f a)) l) l.
Proof.
  induction l as [|a l IH]; simpl; [reflexivity|].
  destruct (f a); simpl.
  - now constructor.
  - rewrite <- Permutation_middle. now constructor.
Qed.

(** Enumeration rearranges the properties. *)
Lemma Permutation_Object_entries o : Permutation (Js.Object_entries o) o.
Proof.
  unfold Js.Object_entries.
  rewrite Permutation_sort_by_index.
  apply (Permutation_partition (fun e => Js.is_array_index (fst e))).
Qed.

Lemma Object_entries_wf o : Js.wf o -> NoDup (map fst (Js.Object_entries o)).
Proof.
  unfold Js.wf. intros H.
  eapply Permutation_NoDup; [|exact H].
  apply Permutation_map. symmetry. apply Permutation_Object_entries.
Qed.

Lemma Object_entries_nil o : Js.Object_entries o = [] -> o = [].
Proof.
  intros H. apply Permutation_nil.
  rewrite <- H. apply Permutation_Object_entries.
Qed.

(** The array indices come out in ascending order. *)
Lemma insert_by_index_sorted (e : string * V) l :
  StronglySorted (fun a b => (Js.index_of (fst a) <= Js.index_of (fst b))%N) l ->
  StronglySorted (fun a b => (Js.index_of (fst a) <= Js.index_of (fst b))%N)
                 (Js.insert_by_index e l).
Proof.
  induction 1 as [|x l Hl IH Hx]; simpl.
  - constructor; constructor.
  - destruct (N.leb_spec (Js.index_of (fst e)) (Js.index_of (fst x))) as [Hle|Hgt].
    + constructor; [now constructor|].
      constructor; [assumption|].
      rewrite Forall_forall in *. intros y Hy. specialize (Hx y Hy). lia.
    + constructor; [assumption|].
      rewrite Forall_forall in *. intros y Hy.
      apply (Permutation_in _ (Permutation_insert_by_index e l)) in Hy.
      destruct Hy as [<-|Hy]; [lia | auto].
Qed.

Lemma sort_by_index_sorted (l : list (string * V)) :
  StronglySorted (fun a b => (Js.index_of (fst a) <= Js.index_of (fst b))%N)
                 (Js.sort_by_index l).
Proof.
  induction l as [|x l IH]; simpl; [constructor|].
  now apply insert_by_index_sorted.
Qed.

Lemma map_fst_filter (p : string -> bool) (l : list (string * V)) :
  map fst (filter (fun e => p (fst e)) l) = filter p (map fst l).
Proof.
  induction l as [|[k v] l IH]; simpl; [reflexivity|].
  destruct (p k); simpl; now rewrite IH.
Qed.

(** The keys as they are enumerated: the array indices in ascending
    order, then the other keys in creation order. *)
Lemma Object_entries_keys o :
  exists indices,
    map fst (Js.Object_entries o) =
    indices ++ filter (fun k => negb (Js.is_array_index k)) (map fst o) /\
    Permutation indices (filter Js.is_array_index (map fst o)) /\
    StronglySorted (fun a b => (Js.index_of a <= Js.index_of b)%N) indices.
Proof.
  exists (map fst (Js.sort_by_index
                     (filter (fun e => Js.is_array_index (fst e)) o))).
  unfold Js.Object_entries. split; [|split].
  - rewrite map_app. f_equal.
    apply (map_fst_filter (fun k => negb (Js.is_array_index k))).
  - rewrite <- (map_fst_filter Js.is_array_index).
    apply Permutation_map, Permutation_sort_by_index.
  - generalize (sort_by_index_sorted
                  (filter (fun e => Js.is_array_index (fst e)) o)).
    generalize (Js.sort_by_index
                  (filter (fun e => Js.is_array_index (fst e)) o)).
    induction 1 as [|x l Hl IH Hx]; simpl; constructor; [assumption|].
    rewrite Forall_forall in *. intros k Hk.
    apply in_map_iff in Hk. destruct Hk as (y & <- & Hy). auto.
Qed.

(** Without array indices among the keys, enumeration follows creation
    order. *)
Lemma Object_entries_creation_order o :
  forallb (fun k => negb (Js.is_array_index k)) (map fst o) = true ->
  Js.Object_entries o = o.
Proof.
  intros H. unfold Js.Object_entries.
  assert (H1 : filter (fun e => Js.is_array_index (fst e)) o = []).
  { induction o as [|[k v] o IH]; simpl in *; [reflexivity|].
    apply andb_true_iff in H. destruct H as [Hk Ho].
    apply negb_true_iff in Hk. rewrite Hk. auto. }
  assert (H2 : filter (fun e => negb (Js.is_array_index (fst e))) o = o).
  { induction o as [|[k v] o IH]; simpl in *; [reflexivity|].
    apply andb_true_iff in H. destruct H as [Hk Ho].
    rewrite Hk. f_equal. apply IH; [assumption|].
    clear - Ho. induction o as [|[k' v'] o IH]; simpl in *; [reflexivity|].
    apply andb_true_iff in Ho. destruct Ho as [Hk Ho].
    apply negb_true_iff in Hk. rewrite Hk. auto. }
  now rewrite H1, H2.
Qed.

End Dictionary.

End EnumerationFacts.

(* ================================================================== *)
(** * The stacked bar chart: the shape of the chart data *)

Module StackedBarShape.

Lemma set_nonempty {V : Type} (o : Js.object V) k v : Js.set o k v <> [].
Proof. destruct o as [|[k' v'] o]; simpl; [|destruct (String.eqb k' k)]; discriminate. Qed.

Lemma record_keys acc segment bar y :
  map fst (StackedBar.record acc segment bar y) =
  StackedBar.set_add (map fst acc) segment.
Proof.
  unfold StackedBar.record.
  destruct (Js.get acc segment); apply EnumerationFacts.keys_set_order.
Qed.

Lemma record_populated (acc : Js.object (Js.object Js.value)) segment bar y :
  (forall L (entry : Js.object Js.value),
      Js.get acc L = Some entry -> entry <> []) ->
  forall L (entry : Js.object Js.value),
    Js.get (StackedBar.record acc segment bar y) L = Some entry -> entry <> [].
Proof.
  intros H L entry. unfold StackedBar.record.
  destruct (string_dec L segment) as [E|Hne].
  - subst L.
    destruct (Js.get acc segment);
      rewrite JsFacts.get_set_same; intros [= <-];
      [apply set_nonempty | discriminate].
  - destruct (Js.get acc segment);
      rewrite JsFacts.get_set_other by assumption; apply H.
Qed.

Section Transform.

Variable getFacetLabel : list Group -> string.
Variable typeToUnit : Js.value -> string.
Variable toLocaleString : Js.value -> string.
Variable props : StackedBar.Props.

#[local] Abbreviation labelsOf := (StackedBar.labelsOf getFacetLabel).
#[local] Abbreviation barLabelOf := (StackedBar.barLabelOf getFacetLabel).
#[local] Abbreviation segmentLabelOf := (StackedBar.segmentLabelOf getFacetLabel).
#[local] Abbreviation shown := (StackedBar.shown getFacetLabel props).
#[local] Abbreviation supported := (StackedBar.supported getFacetLabel props).
#[local] Abbreviation firstColor := (StackedBar.firstColor getFacetLabel props).
#[local] Abbreviation facetBreakdown := (StackedBar.facetBreakdown getFacetLabel props).
#[local] Abbreviation segmentSeries := (StackedBar.segmentSeries typeToUnit toLocaleString).
#[local] Abbreviation transformData :=
  (StackedBar.transformData getFacetLabel typeToUnit toLocaleString props).

(** The colour of a segment label in the side map, as the chart data
    carries it. *)
#[local] Abbreviation colourOf rows :=
  (fun L => match firstColor rows L with
            | Some c => Js.Str c
            | None => Js.Undefined
            end).

(** What the reduction leaves behind: it goes through on supported rows
    only; the segment labels are the keys of the dictionary in the order
    in which the rows that take part first bring them; the side map holds
    the colour of the first such row of each label; no entry of the
    dictionary is empty. *)
Lemma facetBreakdown_state rows :
  forall acc colors acc' colors',
    facetBreakdown (acc, colors) rows = Js.Returns (acc', colors') ->
    forallb supported rows = true /\
    map fst acc' =
    fold_left StackedBar.set_add (map segmentLabelOf (filter shown rows))
              (map fst acc) /\
    (forall L, Js.get colors' L =
               match Js.get colors L with
               | Some c => Some c
               | None => firstColor rows L
               end) /\
    ((forall L (entry : Js.object Js.value),
         Js.get acc L = Some entry -> entry <> []) ->
     forall L (entry : Js.object Js.value),
       Js.get acc' L = Some entry -> entry <> []).
Proof.
  induction rows as [|row rows IH]; intros acc colors acc' colors' H.
  - simpl in H. injection H as <- <-. simpl.
    repeat split; auto. intros L. now destruct (Js.get colors L).
  - rewrite StackedBarFacts.facetBreakdown_cons,
      StackedBarFacts.breakdownStep_cases in H.
    cbn [forallb filter StackedBar.firstColor].
    destruct (labelsOf row) as [labels|e] eqn:Hl; [|discriminate].
    assert (Hseg : segmentLabelOf row = StackedBar.facetSegmentLabel labels).
    { unfold StackedBar.segmentLabelOf. now rewrite Hl. }
    rewrite Hseg.
    destruct (shown row) eqn:Hs; cbn [negb] in H.
    + destruct (Js.inherited_key (StackedBar.facetSegmentLabel labels)) eqn:E1;
        [discriminate|].
      destruct (String.eqb (StackedBar.barLabel labels) "__proto__") eqn:E2;
        [discriminate|].
      cbn [orb] in H.
      destruct (data row) as [|point more] eqn:Hd; [discriminate|].
      cbn [Js.bind] in H.
      assert (Hsup : supported row = true).
      { unfold StackedBar.supported. now rewrite Hl, Hs, E1, E2, Hd. }
      destruct (IH _ _ _ _ H) as (H1 & H2 & H3 & H4).
      split; [|split; [|split]].
      * now rewrite Hsup, H1.
      * rewrite H2. cbn [map fold_left]. now rewrite record_keys, Hseg.
      * intros L. rewrite H3. cbn [andb].
        destruct (String.eqb (StackedBar.facetSegmentLabel labels) L) eqn:EL.
        -- apply String.eqb_eq in EL. subst L.
           destruct (Js.get colors (StackedBar.facetSegmentLabel labels)) eqn:Hc.
           ++ now rewrite Hc.
           ++ now rewrite JsFacts.get_set_same.
        -- apply String.eqb_neq in EL.
           destruct (Js.get colors (StackedBar.facetSegmentLabel labels)) eqn:Hc;
             [reflexivity|].
           rewrite JsFacts.get_set_other by congruence. reflexivity.
      * intros Hp. apply H4. now apply record_populated.
    + cbn [Js.bind] in H.
      assert (Hsup : supported row = true).
      { unfold StackedBar.supported. now rewrite Hl, Hs. }
      destruct (IH _ _ _ _ H) as (H1 & H2 & H3 & H4).
      rewrite Hsup, H1. cbn [andb]. auto.
Qed.

(** The chart data, from the state the reduction ends in. *)
Lemma transformData_out first rest acc colors :
  facetBreakdown ([], []) (first :: rest) = Js.Returns (acc, colors) ->
  transformData (first :: rest) =
  Js.Returns
    (map (fun '(L, entry) =>
            segmentSeries colors (unit_of (metadata first) "y") L entry)
         (Js.Object_entries acc)).
Proof.
  intros H. unfold StackedBar.transformData. now rewrite H.
Qed.

Lemma segmentSeries_x colors unitType L entry :
  map StackedBar.x (segmentSeries colors unitType L entry) =
  map fst (Js.Object_entries entry).
Proof.
  unfold StackedBar.segmentSeries. rewrite map_map.
  apply map_ext. now intros [b v].
Qed.

Lemma segmentSeries_labels colors unitType L entry s :
  In s (segmentSeries colors unitType L entry) ->
  StackedBar.segmentLabel s = L /\
  StackedBar.color s = match Js.get colors L with
                       | Some c => Js.Str c
                       | None => Js.Undefined
                       end.
Proof.
  unfold StackedBar.segmentSeries. intros Hs.
  apply in_map_iff in Hs. destruct Hs as ([b v] & <- & _). auto.
Qed.

Lemma segmentSeries_nonempty colors unitType L entry :
  entry <> [] -> segmentSeries colors unitType L entry <> [].
Proof.
  intros He Hs. apply He. apply EnumerationFacts.Object_entries_nil.
  unfold StackedBar.segmentSeries in Hs. now apply map_eq_nil in Hs.
Qed.

(** The segment labels of the chart data are the enumerated keys of the
    dictionary. *)
Lemma segmentLabels_entries colors unitType (entries : list (string * Js.object Js.value)) :
  (forall L entry, In (L, entry) entries -> entry <> []) ->
  StackedBar.segmentLabels
    (map (fun '(L, entry) => segmentSeries colors unitType L entry) entries) =
  map fst entries.
Proof.
  unfold StackedBar.segmentLabels.
  induction entries as [|[L entry] entries IH]; intros H; [reflexivity|].
  cbn [map flat_map fst].
  rewrite IH by (intros L' e' Hin; apply (H L' e'); now right).
  assert (He : entry <> []) by (apply (H L); now left).
  pose proof (segmentSeries_nonempty colors unitType L He) as Hne.
  destruct (segmentSeries colors unitType L entry) as [|s series] eqn:Es;
    [congruence|].
  assert (Hs : In s (segmentSeries colors unitType L entry))
    by (rewrite Es; now left).
  apply segmentSeries_labels in Hs. destruct Hs as [-> _]. reflexivity.
Qed.

(** The shape of the chart data of a non-empty set of supported rows. *)
Lemma transformData_shape rows :
  rows <> [] -> forallb supported rows = true ->
  exists acc colors out unitType,
    facetBreakdown ([], []) rows = Js.Returns (acc, colors) /\
    transformData rows = Js.Returns out /\
    out = map (fun '(L, entry) => segmentSeries colors unitType L entry)
              (Js.Object_entries acc) /\
    StackedBar.segmentLabels out = map fst (Js.Object_entries acc) /\
    StackedBar.wf2 acc /\
    (forall L (entry : Js.object Js.value),
        Js.get acc L = Some entry -> entry <> []) /\
    map fst acc =
    fold_left StackedBar.set_add (map segmentLabelOf (filter shown rows)) [] /\
    (forall L, Js.get colors L = firstColor rows L).
Proof.
  intros Hne Hs.
  destruct (StackedBarFacts.facetBreakdown_returns _ _ _ Hs ([], []))
    as [[acc colors] Hfb].
  destruct rows as [|first rest]; [congruence|].
  destruct (facetBreakdown_state _ _ _ Hfb) as (_ & Hkeys & Hcolors & Hpop).
  assert (Hwf : StackedBar.wf2 acc).
  { eapply StackedBarFacts.facetBreakdown_wf2;
      [exact Hfb | apply StackedBarFacts.wf2_empty]. }
  assert (Hpop' : forall L (entry : Js.object Js.value),
             Js.get acc L = Some entry -> entry <> []).
  { apply Hpop. discriminate. }
  exists acc, colors. eexists. exists (unit_of (metadata first) "y").
  split; [exact Hfb|]. split; [exact (transformData_out _ _ Hfb)|].
  split; [reflexivity|]. split; [|auto].
  apply segmentLabels_entries. intros L entry Hin.
  apply (Hpop' L). apply (JsFacts.Object_entries_get _ _ (proj1 Hwf)). exact Hin.
Qed.

End Transform.

End StackedBarShape.

(* ================================================================== *)
(** * The stacked bar chart: labels, colours, order, legend *)

Module StackedBarChartFacts.

Lemma Forall2_map_same {A B C : Type} (P : B -> C -> Prop)
  (f : A -> B) (g : A -> C) (l : list A) :
  (forall a, In a l -> P (f a) (g a)) -> Forall2 P (map f l) (map g l).
Proof.
  induction l as [|a l IH]; simpl; intros H; constructor.
  - apply H. now left.
  - apply IH. intros b Hb. apply H. now right.
Qed.

Lemma nth_error_last {A : Type} (l : list A) :
  nth_error l (List.length l - 1) = None <-> l = [].
Proof.
  destruct l as [|a l]; [split; reflexivity|].
  split; [|discriminate].
  intros H. apply nth_error_None in H. simpl in H. lia.
Qed.

Lemma filter_filter {A : Type} (f : A -> bool) (l : list A) :
  filter f (filter f l) = filter f l.
Proof.
  induction l as [|a l IH]; simpl; [reflexivity|].
  destruct (f a) eqn:E; simpl; [rewrite E|]; now rewrite ?IH.
Qed.

Lemma barLabels_concat (out : list (list StackedBar.BarSegment)) :
  StackedBar.barLabels out = map StackedBar.x (List.concat out).
Proof.
  unfold StackedBar.barLabels.
  induction out as [|series out IH]; simpl; [reflexivity|].
  now rewrite map_app, IH.
Qed.

Lemma nodup_length_le (l : list string) :
  List.length (nodup string_dec l) <= List.length l.
Proof.
  induction l as [|a l IH]; simpl; [lia|].
  destruct (in_dec string_dec a l); simpl; lia.
Qed.

Lemma nodup_nil_inv (l : list string) : nodup string_dec l = [] -> l = [].
Proof.
  destruct l as [|a l]; [reflexivity|]. intros H.
  assert (Ha : In a (nodup string_dec (a :: l))) by (apply nodup_In; now left).
  rewrite H in Ha. destruct Ha.
Qed.

(** X4: The bar count lies between the length of every series whose bar
    labels are pairwise distinct and the number of all segments, and it is
    zero only when there is no segment at all. *)
Theorem getBarCount_bounds (out : list (list StackedBar.BarSegment)) :
  StackedBar.getBarCount out <= List.length (List.concat out) /\
  (forall series,
      In series out -> NoDup (map StackedBar.x series) ->
      List.length series <= StackedBar.getBarCount out) /\
  (StackedBar.getBarCount out = 0 <-> List.concat out = []).
Proof.
  rewrite StackedBarFacts.getBarCount_distinct, barLabels_concat.
  split; [|split].
  - rewrite <- (length_map StackedBar.x (List.concat out)). apply nodup_length_le.
  - intros series Hin Hnd.
    rewrite <- (length_map StackedBar.x series).
    apply NoDup_incl_length; [assumption|].
    intros b Hb. apply nodup_In. apply in_map_iff in Hb.
    destruct Hb as (s & <- & Hs). apply in_map. apply in_concat. eauto.
  - split.
    + intros H. apply length_zero_iff_nil in H. apply nodup_nil_inv in H.
      now apply map_eq_nil in H.
    + now intros ->.
Qed.

Section Transform.

Variable getFacetLabel : list Group -> string.
Variable typeToUnit : Js.value -> string.
Variable toLocaleString : Js.value -> string.
Variable props : StackedBar.Props.

#[local] Abbreviation getFacetLabels := (StackedBar.getFacetLabels getFacetLabel).
#[local] Abbreviation labelsOf := (StackedBar.labelsOf getFacetLabel).
#[local] Abbreviation barLabelOf := (StackedBar.barLabelOf getFacetLabel).
#[local] Abbreviation segmentLabelOf := (StackedBar.segmentLabelOf getFacetLabel).
#[local] Abbreviation shown := (StackedBar.shown getFacetLabel props).
#[local] Abbreviation supported := (StackedBar.supported getFacetLabel props).
#[local] Abbreviation firstColor := (StackedBar.firstColor getFacetLabel props).
#[local] Abbreviation facetBreakdown := (StackedBar.facetBreakdown getFacetLabel props).
#[local] Abbreviation segmentSeries := (StackedBar.segmentSeries typeToUnit toLocaleString).
#[local] Abbreviation transformData :=
  (StackedBar.transformData getFacetLabel typeToUnit toLocaleString props).

(** X5: [getFacetLabels] reads the facet groups of a row and nothing else.  It
    throws, a [TypeError], exactly when the row has no facet group.  With
    a single facet group the bar label is the label of no group at all,
    the same for every row. *)
Theorem getFacetLabels_reads_facets (groups : list Group) :
  ((exists e, getFacetLabels groups = Js.Throws e) <->
   filter is_facet groups = []) /\
  (forall e, getFacetLabels groups = Js.Throws e -> e = Js.TypeError) /\
  getFacetLabels (filter is_facet groups) = getFacetLabels groups /\
  (forall g,
      filter is_facet groups = [g] ->
      getFacetLabels groups =
      Js.Returns {| StackedBar.barLabel := getFacetLabel [];
                    StackedBar.facetSegmentLabel := value g |}).
Proof.
  unfold StackedBar.getFacetLabels. split; [|split; [|split]].
  - destruct (nth_error _ _) eqn:E.
    + split; [intros [e H]; discriminate|].
      intros H. apply nth_error_last in H. congruence.
    + apply nth_error_last in E. split; eauto.
  - intros e. destruct (nth_error _ _); [discriminate | now intros [= <-]].
  - now rewrite filter_filter.
  - intros g ->. reflexivity.
Qed.


(** X7: First row wins for the colour.  On supported rows, whose labels
    name no member inherited from [Object.prototype], every segment of the
    series of a segment label carries the colour of the first row with
    this label that takes part in the chart, whatever the colours of the
    later rows. *)
Theorem stacked_bar_colour_of_first_row (before after : list ResultRow)
  (row : ResultRow) (segment : string) :
  forallb supported (before ++ row :: after) = true ->
  shown row = true ->
  segmentLabelOf row = segment ->
  forallb (fun earlier =>
             negb (shown earlier && String.eqb (segmentLabelOf earlier) segment))
          before = true ->
  exists out,
    transformData (before ++ row :: after) = Js.Returns out /\
    In segment (StackedBar.segmentLabels out) /\
    (forall series s,
        In series out -> In s series ->
        StackedBar.segmentLabel s = segment ->
        StackedBar.color s = Js.Str (color (metadata row))).
Proof.
  intros Hs Hshown Hseg Hbefore.
  assert (Hne : before ++ row :: after <> []) by (destruct before; discriminate).
  destruct (StackedBarShape.transformData_shape
              getFacetLabel typeToUnit toLocaleString props Hne Hs)
    as (acc & colors & out & unitType & Hfb & Hout & -> & Hlabels & Hwf & _
        & Hkeys & Hcolors).
  assert (Hfirst : firstColor (before ++ row :: after) segment =
                   Some (color (metadata row))).
  { clear - Hshown Hseg Hbefore.
    induction before as [|r before IH]; simpl in *.
    - now rewrite Hshown, Hseg, String.eqb_refl.
    - apply andb_true_iff in Hbefore. destruct Hbefore as [Hr Hbefore].
      apply negb_true_iff in Hr. rewrite Hr. auto. }
  eexists. split; [exact Hout|]. split.
  - rewrite Hlabels.
    assert (Hk : In segment (map fst acc)).
    { rewrite Hkeys.
      apply (ListFacts.fold_set_add_spec _ (NoDup_nil string)). right.
      apply in_map_iff. exists row. split; [assumption|].
      apply filter_In. split; [|assumption].
      apply in_or_app. right. now left. }
    apply in_map_iff in Hk. destruct Hk as ([L entry] & HL & Hin).
    simpl in HL. subst L.
    apply in_map_iff. exists (segment, entry). split; [reflexivity|].
    now apply JsFacts.In_Object_entries.
  - intros series s Hseries Hin Hlabel.
    apply in_map_iff in Hseries. destruct Hseries as ([L entry] & <- & _).
    apply StackedBarShape.segmentSeries_labels in Hin.
    destruct Hin as [HL Hc]. rewrite Hc, <- HL, Hlabel, Hcolors, Hfirst.
    reflexivity.
Qed.

(** X8: On a non-empty result of supported rows, whose labels name no
    member inherited from [Object.prototype], the chart data is one series
    per segment label: the series are not empty, no two series share a
    segment label, all the segments of a series carry its segment label
    and one colour, and no two of them belong to the same bar. *)
Theorem stacked_bar_series_structure (rows : list ResultRow) :
  rows <> [] -> forallb supported rows = true ->
  exists out,
    transformData rows = Js.Returns out /\
    NoDup (StackedBar.segmentLabels out) /\
    Forall2 (fun L series =>
               series <> [] /\
               NoDup (map StackedBar.x series) /\
               exists c, forall s,
                   In s series ->
                   StackedBar.segmentLabel s = L /\ StackedBar.color s = c)
            (StackedBar.segmentLabels out) out.
Proof.
  intros Hne Hs.
  destruct (StackedBarShape.transformData_shape
              getFacetLabel typeToUnit toLocaleString props Hne Hs)
    as (acc & colors & out & unitType & _ & Hout & -> & Hlabels & Hwf & Hpop & _).
  eexists. split; [exact Hout|]. rewrite Hlabels. split.
  - apply EnumerationFacts.Object_entries_wf, Hwf.
  - apply Forall2_map_same. intros [L entry] Hin. simpl.
    apply (JsFacts.Object_entries_get _ _ (proj1 Hwf)) in Hin.
    split; [|split].
    + apply StackedBarShape.segmentSeries_nonempty. eauto.
    + rewrite StackedBarShape.segmentSeries_x.
      apply EnumerationFacts.Object_entries_wf. apply (proj2 Hwf L entry Hin).
    + eexists. intros s. apply StackedBarShape.segmentSeries_labels.
Qed.

(** X9: On a non-empty result of supported rows, whose labels name no
    member inherited from [Object.prototype], the order of the series is
    the enumeration order of the segment labels: those that are array
    indices first, in ascending numeric order, then the others in the
    order in which the rows that take part in the chart first bring them.
    When no segment label is an array index the series follow the rows.
    There are as many series as distinct segment labels among these
    rows. *)
Theorem stacked_bar_series_order (rows : list ResultRow) :
  rows <> [] -> forallb supported rows = true ->
  let brought := map segmentLabelOf (filter shown rows) in
  let firstSeen := fold_left StackedBar.set_add brought [] in
  exists out,
    transformData rows = Js.Returns out /\
    (exists indices,
        StackedBar.segmentLabels out =
        indices ++ filter (fun k => negb (Js.is_array_index k)) firstSeen /\
        Permutation indices (filter Js.is_array_index firstSeen) /\
        StronglySorted (fun a b => (Js.index_of a <= Js.index_of b)%N) indices) /\
    (forallb (fun k => negb (Js.is_array_index k)) firstSeen = true ->
     StackedBar.segmentLabels out = firstSeen) /\
    List.length out = List.length (nodup string_dec brought).
Proof.
  intros Hne Hs. cbv zeta.
  destruct (StackedBarShape.transformData_shape
              getFacetLabel typeToUnit toLocaleString props Hne Hs)
    as (acc & colors & out & unitType & _ & Hout & Hmap & Hlabels & Hwf & _
        & Hkeys & _).
  exists out. split; [exact Hout|]. rewrite Hlabels, <- Hkeys.
  split; [apply EnumerationFacts.Object_entries_keys|]. split.
  - intros Hfree.
    now rewrite (EnumerationFacts.Object_entries_creation_order _ Hfree).
  - rewrite Hmap, length_map.
    rewrite (Permutation_length (EnumerationFacts.Permutation_Object_entries acc)).
    rewrite <- (length_map fst acc), Hkeys.
    destruct (ListFacts.fold_set_add_spec
                (map segmentLabelOf (filter shown rows)) (NoDup_nil string))
      as [Hnd Hin].
    apply Nat.le_antisymm.
    + apply NoDup_incl_length; [assumption|].
      intros a Ha. apply nodup_In. apply Hin in Ha. simpl in Ha. tauto.
    + apply NoDup_incl_length; [apply NoDup_nodup|].
      intros a Ha. apply nodup_In in Ha. apply Hin. now right.
Qed.

(** ** The legend *)

#[local] Abbreviation legendItem L c :=
  {| Legend.label := Js.Str L; Legend.color := c |}.

#[local] Abbreviation listed L :=
  (existsb (fun item => Js.strict_eq (Legend.label item) (Js.Str L))).

#[local] Abbreviation legendStep :=
  (fun (acc : list Legend.Item) (s : StackedBar.BarSegment) =>
     if listed (StackedBar.segmentLabel s) acc
     then acc
     else acc ++ [legendItem (StackedBar.segmentLabel s) (StackedBar.color s)]).

Lemma legend_series_listed (series : list StackedBar.BarSegment) L :
  (forall s, In s series -> StackedBar.segmentLabel s = L) ->
  forall acc, listed L acc = true -> fold_left legendStep series acc = acc.
Proof.
  induction series as [|s series IH]; simpl; intros H acc Hacc; [reflexivity|].
  rewrite (H s) by now left. rewrite Hacc. apply IH; auto.
Qed.

Lemma legend_series_new (series : list StackedBar.BarSegment) L c acc :
  series <> [] ->
  (forall s, In s series ->
             StackedBar.segmentLabel s = L /\ StackedBar.color s = c) ->
  listed L acc = false ->
  fold_left legendStep series acc = acc ++ [legendItem L c].
Proof.
  destruct series as [|s series]; [congruence|]. intros _ H Hacc. simpl.
  destruct (H s (or_introl eq_refl)) as [HL Hc]. rewrite HL, Hc, Hacc.
  apply legend_series_listed with (L := L).
  - intros s' Hs'. apply H. now right.
  - rewrite existsb_app. simpl. now rewrite String.eqb_refl, orb_true_r.
Qed.

(** One item per series, in the order of the series, when no two series
    share a segment label. *)
Lemma legendItems_series (colour : string -> Js.value) labels out :
  Forall2 (fun L series =>
             series <> [] /\
             forall s, In s series ->
                       StackedBar.segmentLabel s = L /\
                       StackedBar.color s = colour L)
          labels out ->
  NoDup labels ->
  forall acc,
    (forall L, In L labels -> listed L acc = false) ->
    fold_left (fun acc curr => fold_left legendStep curr acc) out acc =
    acc ++ map (fun L => legendItem L (colour L)) labels.
Proof.
  induction 1 as [|L series labels out [Hne Hseries] Hrest IH];
    intros Hnd acc Hacc; simpl.
  - now rewrite app_nil_r.
  - inversion Hnd as [|? ? Hnot Hnd']; subst.
    rewrite (legend_series_new _ Hne Hseries) by (apply Hacc; now left).
    rewrite IH; [now rewrite <- app_assoc | assumption |].
    intros L' HL'. rewrite existsb_app, Hacc by now right. simpl.
    rewrite orb_false_r. apply String.eqb_neq. intros ->. contradiction.
Qed.

(** X10: On a non-empty result of supported rows, whose labels name no
    member inherited from [Object.prototype], the legend of the chart
    lists the series in their order, each under its segment label and
    with the colour of the first row of this label that takes part in the
    chart. *)
Theorem stacked_bar_legend_lists_series (rows : list ResultRow) :
  rows <> [] -> forallb supported rows = true ->
  exists out,
    transformData rows = Js.Returns out /\
    StackedBar.legendItems out =
    map (fun L => {| Legend.label := Js.Str L;
                     Legend.color := match firstColor rows L with
                                     | Some c => Js.Str c
                                     | None => Js.Undefined
                                     end |})
        (StackedBar.segmentLabels out) /\
    List.length (StackedBar.legendItems out) = List.length out.
Proof.
  intros Hne Hs.
  destruct (StackedBarShape.transformData_shape
              getFacetLabel typeToUnit toLocaleString props Hne Hs)
    as (acc & colors & out & unitType & _ & Hout & Hmap & Hlabels & Hwf & Hpop
        & _ & Hcolors).
  assert (Hitems :
            StackedBar.legendItems out =
            map (fun L => legendItem L match firstColor rows L with
                                       | Some c => Js.Str c
                                       | None => Js.Undefined
                                       end)
                (StackedBar.segmentLabels out)).
  { unfold StackedBar.legendItems.
    rewrite (legendItems_series
               (fun L => match firstColor rows L with
                         | Some c => Js.Str c
                         | None => Js.Undefined
                         end)
               (labels := StackedBar.segmentLabels out));
      [reflexivity | | | reflexivity].
    - rewrite Hlabels, Hmap. apply Forall2_map_same. intros [L entry] Hin.
      simpl. apply (JsFacts.Object_entries_get _ _ (proj1 Hwf)) in Hin. split.
      + apply StackedBarShape.segmentSeries_nonempty. eauto.
      + intros s Hs'. apply StackedBarShape.segmentSeries_labels in Hs'.
        now rewrite <- Hcolors.
    - rewrite Hlabels. apply EnumerationFacts.Object_entries_wf, Hwf. }
  exists out. split; [exact Hout|]. split; [exact Hitems|].
  now rewrite Hitems, length_map, Hlabels, Hmap, !length_map.
Qed.

(** X12: A query with a single facet draws a single bar.  On a non-empty
    result of supported rows, whose labels name no member inherited from
    [Object.prototype], every row has the bar label of no group at all, so
    all the segments stack on one bar; and when that label is ["Other"]
    and the overflow bucket is hidden, no row takes part and there is no
    bar. *)
Theorem stacked_bar_single_facet_one_bar (rows : list ResultRow) :
  rows <> [] -> forallb supported rows = true ->
  (forall row, In row rows ->
               List.length (filter is_facet (groups (metadata row))) = 1) ->
  exists out,
    transformData rows = Js.Returns out /\
    (forall b, In b (StackedBar.barLabels out) -> b = getFacetLabel []) /\
    StackedBar.getBarCount out =
    if StackedBar.visible (StackedBar.other props)
       || negb (String.eqb (getFacetLabel []) "Other")
    then 1 else 0.
Proof.
  intros Hne Hs Hone.
  destruct (StackedBarFacts.transformData_spec
              getFacetLabel typeToUnit toLocaleString props Hne Hs)
    as (out & Hout & Hshows).
  pose proof (@StackedBarFacts.barLabels_shown getFacetLabel props rows out
                Hs Hshows) as Hbars.
  assert (Hbar : forall row, In row rows -> barLabelOf row = getFacetLabel []).
  { intros row Hin. unfold StackedBar.barLabelOf.
    specialize (Hone row Hin).
    destruct (filter is_facet (groups (metadata row))) as [|g [|g' l]];
      try discriminate. reflexivity. }
  assert (Hshown : forall row, In row rows ->
             shown row = StackedBar.visible (StackedBar.other props)
                         || negb (String.eqb (getFacetLabel []) "Other")).
  { intros row Hin. unfold StackedBar.shown. now rewrite (Hbar row Hin). }
  assert (Hall : forall b, In b (StackedBar.barLabels out) -> b = getFacetLabel []).
  { intros b Hb. apply Hbars in Hb. apply in_map_iff in Hb.
    destruct Hb as (row & <- & Hin). apply filter_In in Hin.
    apply Hbar, Hin. }
  exists out. split; [exact Hout|]. split; [exact Hall|].
  rewrite StackedBarFacts.getBarCount_distinct.
  destruct (StackedBar.visible (StackedBar.other props)
            || negb (String.eqb (getFacetLabel []) "Other")) eqn:E.
  - assert (Hin : In (getFacetLabel []) (StackedBar.barLabels out)).
    { destruct rows as [|row rest]; [congruence|].
      apply Hbars. apply in_map_iff. exists row.
      split; [apply Hbar; now left|].
      apply filter_In. split; [now left|]. rewrite Hshown by now left.
      reflexivity. }
    apply Nat.le_antisymm.
    + change 1 with (List.length [getFacetLabel []]).
      apply NoDup_incl_length; [apply NoDup_nodup|].
      intros b Hb. apply nodup_In in Hb. left. symmetry. now apply Hall.
    + change 1 with (List.length [getFacetLabel []]).
      apply NoDup_incl_length; [constructor; [simpl; tauto | constructor]|].
      intros b [<-|[]]. now apply nodup_In.
  - destruct (StackedBar.barLabels out) as [|b l] eqn:Eb; [reflexivity|].
    exfalso.
    assert (Hb : In b (map barLabelOf (filter shown rows))).
    { apply Hbars. now left. }
    apply in_map_iff in Hb. destruct Hb as (row & _ & Hin).
    apply filter_In in Hin. destruct Hin as [Hin Hsh].
    rewrite Hshown in Hsh by assumption. congruence.
Qed.

End Transform.

End StackedBarChartFacts.

(* ================================================================== *)
(** * The stacked bar chart: what is rendered *)

Module StackedBarRender.

Lemma find_filter {A : Type} (f : A -> bool) (l : list A) :
  find f l = hd_error (filter f l).
Proof.
  induction l as [|a l IH]; simpl; [reflexivity|].
  now destruct (f a).
Qed.

(** Dividing by zero gives no finite number. *)
Lemma div_zero_not_finite (x : float) :
  PrimFloat.is_finite (x / Js.of_nat 0) = false.
Proof.
  change (Js.of_nat 0) with PrimFloat.zero.
  assert (H : (x / PrimFloat.zero)%float = PrimFloat.nan \/
              (x / PrimFloat.zero)%float = PrimFloat.infinity \/
              (x / PrimFloat.zero)%float = PrimFloat.neg_infinity).
  { pose proof (div_spec x PrimFloat.zero) as Hd.
    change (Prim2SF PrimFloat.zero) with (S754_zero false) in Hd.
    destruct (Prim2SF x) as [s|s| |s m e]; simpl in Hd.
    - left. now apply Prim2SF_inj.
    - destruct s; [right; right | right; left]; now apply Prim2SF_inj.
    - left. now apply Prim2SF_inj.
    - destruct s; [right; right | right; left]; now apply Prim2SF_inj. }
  destruct H as [-> |[-> | ->]]; reflexivity.
Qed.

Section Render.

Variable getFacetLabel : list Group -> string.
Variable typeToUnit : Js.value -> string.
Variable toLocaleString : Js.value -> string.
Variable props : StackedBar.Props.
Variable parseFloat : Js.value -> float.
Variable yAxisConfig : StackedBar.YAxisConfig.t.

#[local] Abbreviation supported := (StackedBar.supported getFacetLabel props).
#[local] Abbreviation transformData :=
  (StackedBar.transformData getFacetLabel typeToUnit toLocaleString props).
#[local] Abbreviation renderQuery :=
  (StackedBar.renderQuery getFacetLabel typeToUnit toLocaleString props
                          parseFloat yAxisConfig).

(** X13: What the stacked bar chart renders for a query result.  While
    loading it shows the spinner, and after that any error wins over the
    data.  There is no no-data state: a result without rows, like a
    [null] one, makes the function given to [NrqlQuery] throw a
    [TypeError].  On a non-empty set of supported rows it never throws:
    the validator decides between the report of an unsupported query and
    the chart.  The chart is given the output of the transform, its
    legend and its bar count; a bound of the y axis that is [0] or not
    configured sets no domain; and without any bar the bar width is no
    finite number. *)
Theorem stacked_bar_render_outcomes (width height : float)
  (result : NrqlQuery.RenderProps) :
  (NrqlQuery.loading result = true ->
   renderQuery width height result = Js.Returns StackedBar.Spinner) /\
  (NrqlQuery.loading result = false -> NrqlQuery.error result <> None ->
   renderQuery width height result = Js.Returns StackedBar.ErrorState) /\
  (NrqlQuery.loading result = false -> NrqlQuery.error result = None ->
   NrqlQuery.data result = None \/ NrqlQuery.data result = Some [] ->
   renderQuery width height result = Js.Throws Js.TypeError) /\
  (forall rows,
      NrqlQuery.loading result = false -> NrqlQuery.error result = None ->
      NrqlQuery.data result = Some rows ->
      rows <> [] -> forallb supported rows = true ->
      exists accepted,
        StackedBar.validateNRQLInput rows = Js.Returns accepted /\
        if accepted
        then exists out chart,
            transformData rows = Js.Returns out /\
            renderQuery width height result =
            Js.Returns (StackedBar.VictoryChart chart) /\
            StackedBar.Chart.transformedData chart = out /\
            StackedBar.Chart.legendItems chart = StackedBar.legendItems out /\
            StackedBar.Chart.barCount chart = StackedBar.getBarCount out /\
            (Js.truthy (StackedBar.YAxisConfig.min yAxisConfig) = false ->
             StackedBar.Chart.minDomain chart = None) /\
            (Js.truthy (StackedBar.YAxisConfig.max yAxisConfig) = false ->
             StackedBar.Chart.maxDomain chart = None) /\
            (StackedBar.getBarCount out = 0 ->
             PrimFloat.is_finite (StackedBar.Chart.barWidth chart) = false)
        else exists description,
            renderQuery width height result =
            Js.Returns
              (StackedBar.NrqlQueryError "Unsupported NRQL query" description)).
Proof.
  destruct result as [data loading error].
  unfold StackedBar.renderQuery.
  cbn [NrqlQuery.loading NrqlQuery.data NrqlQuery.error].
  split; [|split; [|split]].
  - now intros ->.
  - intros -> He. destruct error; [reflexivity | congruence].
  - intros -> -> [-> | ->]; reflexivity.
  - intros rows -> -> [= ->] Hne Hs.
    destruct rows as [|first rest]; [congruence|].
    destruct (StackedBarFacts.transformData_spec
                getFacetLabel typeToUnit toLocaleString props Hne Hs)
      as (out & Hout & _).
    unfold StackedBar.validateNRQLInput.
    eexists. split; [reflexivity|]. cbn [Js.bind].
    destruct (Nat.eqb (List.length (filter is_function (groups (metadata first)))) 1)
      eqn:E1; cbn [andb negb]; [|eauto].
    destruct (Nat.ltb 0 _); cbn [negb]; [|eauto].
    rewrite Hout. cbn [Js.bind]. rewrite find_filter.
    apply Nat.eqb_eq in E1.
    destruct (filter is_function (groups (metadata first))) as [|g l];
      [discriminate|]. cbn [hd_error].
    exists out. eexists. split; [reflexivity|]. split; [reflexivity|].
    cbn [StackedBar.Chart.transformedData StackedBar.Chart.legendItems
         StackedBar.Chart.barCount StackedBar.Chart.minDomain
         StackedBar.Chart.maxDomain StackedBar.Chart.barWidth].
    repeat (split; [reflexivity|]).
    split; [now intros ->|]. split; [now intros ->|].
    intros ->. apply div_zero_not_finite.
Qed.

End Render.

End StackedBarRender.

(* ================================================================== *)
(** * The scatter plot: one point per facet *)

Module ScatterGroups.

Lemma get_app {V : Type} (o1 o2 : Js.object V) k :
  Js.get (o1 ++ o2) k =
  match Js.get o1 k with
  | Some v => Some v
  | None => Js.get o2 k
  end.
Proof.
  induction o1 as [|[k' v'] o1 IH]; simpl; [reflexivity|].
  now destruct (String.eqb k' k).
Qed.

(** After a sequence of assignments a property holds the value of the
    last assignment to it. *)
Lemma get_fold_set (ps : list (string * Js.value)) :
  forall (e : Scatter.Point) key,
    Js.get (fold_left (fun e '(p, v) => Js.set e p v) ps e) key =
    match Js.get (rev ps) key with
    | Some v => Some v
    | None => Js.get e key
    end.
Proof.
  induction ps as [|[p v] ps IH]; intros e key; [reflexivity|].
  cbn [fold_left rev]. rewrite IH, get_app. simpl.
  destruct (Js.get (rev ps) key); [reflexivity|].
  destruct (String.eqb p key) eqn:E.
  - apply String.eqb_eq in E. subst. apply JsFacts.get_set_same.
  - apply String.eqb_neq in E. apply JsFacts.get_set_other. congruence.
Qed.

Lemma set_same {V : Type} (o : Js.object V) k v :
  Js.get o k = Some v -> Js.set o k v = o.
Proof.
  induction o as [|[k' v'] o IH]; simpl; [discriminate|].
  destruct (String.eqb k' k) eqn:E.
  - now intros [= ->].
  - intros H. now rewrite IH.
Qed.

Lemma set_set {V : Type} (o : Js.object V) k v w :
  Js.set (Js.set o k v) k w = Js.set o k w.
Proof.
  induction o as [|[k' v'] o IH]; simpl.
  - now rewrite String.eqb_refl.
  - destruct (String.eqb k' k) eqn:E; simpl; rewrite E; [reflexivity|].
    now rewrite IH.
Qed.

Section Grouping.

Variable getFacetLabel : list Group -> string.
Variable StringToNumber : string -> float.
Variable props : Scatter.Props.

#[local] Abbreviation shown := (Scatter.shown getFacetLabel props).
#[local] Abbreviation supported := (Scatter.supported getFacetLabel props).
#[local] Abbreviation facetOf := (fun row : ResultRow => getFacetLabel (groups (metadata row))).
#[local] Abbreviation plots := (Scatter.plots getFacetLabel props).
#[local] Abbreviation lastRow := (Scatter.lastRow getFacetLabel props).
#[local] Abbreviation facetGroupStep := (Scatter.facetGroupStep getFacetLabel props).
#[local] Abbreviation facetGroupData := (Scatter.facetGroupData getFacetLabel props).
#[local] Abbreviation getAggregatesData :=
  (Scatter.getAggregatesData getFacetLabel StringToNumber props).

(** What one step of the grouping does. *)
Lemma facetGroupStep_cases names acc row :
  facetGroupStep names acc row =
  if negb (shown row) then Js.Returns acc
  else if Js.inherited_key (facetOf row)
       then if String.eqb (facetOf row) "__proto__"
            then Js.Throws Js.PrototypeKey
            else Js.Returns acc
       else Js.Returns
              (Js.set acc (facetOf row)
                 (fold_left (fun e '(p, v) => Js.set e p v)
                            (Scatter.assigned names row)
                            match Js.get acc (facetOf row) with
                            | Some e => e
                            | None => []
                            end)).
Proof.
  unfold Scatter.facetGroupStep, Scatter.shown, Scatter.assigned,
    Scatter.positionOf, Scatter.dataValueOf.
  rewrite negb_orb, negb_involutive.
  destruct (negb (Scatter.visible (Scatter.other props))
            && String.eqb (facetOf row) "Other"); [reflexivity|].
  cbn [negb].
  destruct (Js.inherited_key (facetOf row)); [reflexivity|].
  f_equal. unfold Scatter.assign.
  destruct (Js.get acc (facetOf row)) as [e|] eqn:Hg.
  - rewrite Hg.
    destruct (Scatter.indexOf names _) as [[|[|[|n]]]|]; try reflexivity;
      simpl; now rewrite set_same.
  - rewrite JsFacts.get_set_same.
    destruct (Scatter.indexOf names _) as [[|[|[|n]]]|]; try reflexivity;
      now rewrite set_set.
Qed.

Lemma lastRow_snoc names done row F k :
  lastRow names (done ++ [row]) F k =
  if plots names F k row then Some row else lastRow names done F k.
Proof. unfold Scatter.lastRow. now rewrite rev_unit. Qed.

#[local] Abbreviation displayNameOf :=
  (fun row : ResultRow =>
     match hd_error (filter is_function (groups (metadata row))) with
     | Some g => Js.Str (displayName g)
     | None => Js.Undefined
     end).
#[local] Abbreviation unitTypeOf :=
  (fun row : ResultRow => unit_of (metadata row) "y").

(** The properties of an axis among those a row assigns. *)
Lemma assigned_axis names row :
  let at_ k v := match Scatter.positionOf names row with
                 | Some p => if Nat.eqb p k then Some v else None
                 | None => None
                 end in
  Js.get (rev (Scatter.assigned names row)) "x" = at_ 0 (Scatter.dataValueOf row) /\
  Js.get (rev (Scatter.assigned names row)) "color" =
  at_ 0 (Js.Str (color (metadata row))) /\
  Js.get (rev (Scatter.assigned names row)) "y" = at_ 1 (Scatter.dataValueOf row) /\
  Js.get (rev (Scatter.assigned names row)) "z" = at_ 2 (Scatter.dataValueOf row) /\
  Js.get (rev (Scatter.assigned names row)) "xUnitType" = at_ 0 (unitTypeOf row) /\
  Js.get (rev (Scatter.assigned names row)) "xDisplayName" =
  at_ 0 (displayNameOf row) /\
  Js.get (rev (Scatter.assigned names row)) "yUnitType" = at_ 1 (unitTypeOf row) /\
  Js.get (rev (Scatter.assigned names row)) "yDisplayName" =
  at_ 1 (displayNameOf row) /\
  Js.get (rev (Scatter.assigned names row)) "zUnitType" = at_ 2 (unitTypeOf row) /\
  Js.get (rev (Scatter.assigned names row)) "zDisplayName" =
  at_ 2 (displayNameOf row).
Proof.
  unfold Scatter.assigned.
  destruct (Scatter.positionOf names row) as [[|[|[|n]]]|];
    repeat split; reflexivity.
Qed.

(** The state of the grouping after the rows [done]: the keys are
    pairwise distinct; a facet label without entry has no row yet; and
    the entry of a facet label holds, on each axis, the value, the unit
    type and the display name of the last row of this label and of the
    aggregate of the axis, and the colour of the last row of the first
    aggregate. *)
#[local] Abbreviation grouped_from names done acc :=
  (Js.wf acc /\
   (forall F, Js.get acc F = None -> forall k, lastRow names done F k = None) /\
   (forall F (e : Scatter.Point),
       Js.get acc F = Some e ->
       Js.get e "x" = option_map Scatter.dataValueOf (lastRow names done F 0) /\
       Js.get e "color" =
       option_map (fun r => Js.Str (color (metadata r))) (lastRow names done F 0) /\
       Js.get e "y" = option_map Scatter.dataValueOf (lastRow names done F 1) /\
       Js.get e "z" = option_map Scatter.dataValueOf (lastRow names done F 2) /\
       Js.get e "xUnitType" = option_map unitTypeOf (lastRow names done F 0) /\
       Js.get e "xDisplayName" =
       option_map displayNameOf (lastRow names done F 0) /\
       Js.get e "yUnitType" = option_map unitTypeOf (lastRow names done F 1) /\
       Js.get e "yDisplayName" =
       option_map displayNameOf (lastRow names done F 1) /\
       Js.get e "zUnitType" = option_map unitTypeOf (lastRow names done F 2) /\
       Js.get e "zDisplayName" =
       option_map displayNameOf (lastRow names done F 2))).

Lemma plots_facet names F k row :
  plots names F k row = true ->
  shown row = true /\ facetOf row = F /\ Scatter.positionOf names row = Some k.
Proof.
  unfold Scatter.plots. rewrite !andb_true_iff.
  intros [[H1 H2] H3]. apply String.eqb_eq in H2.
  destruct (Scatter.positionOf names row) as [p|]; [|discriminate].
  apply Nat.eqb_eq in H3. subst. auto.
Qed.

Lemma plots_position names row k :
  shown row = true ->
  plots names (facetOf row) k row =
  match Scatter.positionOf names row with
  | Some p => Nat.eqb p k
  | None => false
  end.
Proof.
  intros Hs. unfold Scatter.plots. now rewrite Hs, String.eqb_refl.
Qed.

Lemma grouped_step names done acc row acc' :
  supported row = true ->
  grouped_from names done acc ->
  facetGroupStep names acc row = Js.Returns acc' ->
  grouped_from names (done ++ [row]) acc'.
Proof.
  intros Hsup (Hwf & Hnone & Hsome). rewrite facetGroupStep_cases.
  unfold Scatter.supported in Hsup.
  destruct (shown row) eqn:Hs; cbn [negb].
  - simpl in Hsup. apply negb_true_iff in Hsup. rewrite Hsup.
    intros [= <-]. split; [now apply JsFacts.wf_set|]. split.
    + intros F HF k. rewrite lastRow_snoc.
      destruct (string_dec F (facetOf row)) as [->|Hne].
      * rewrite JsFacts.get_set_same in HF. discriminate.
      * rewrite JsFacts.get_set_other in HF by assumption.
        destruct (plots names F k row) eqn:Hp; [|auto].
        apply plots_facet in Hp. destruct Hp as (_ & Hp & _). congruence.
    + intros F e. rewrite !lastRow_snoc.
      destruct (string_dec F (facetOf row)) as [->|Hne].
      * rewrite JsFacts.get_set_same. intros [= <-].
        rewrite !get_fold_set, !plots_position by assumption.
        destruct (assigned_axis names row)
          as (-> & -> & -> & -> & -> & -> & -> & -> & -> & ->).
        assert (He0 :
                  forall key k (f : ResultRow -> Js.value),
                    (forall e0 : Scatter.Point,
                        Js.get acc (facetOf row) = Some e0 ->
                        Js.get e0 key =
                        option_map f (lastRow names done (facetOf row) k)) ->
                    Js.get match Js.get acc (facetOf row) with
                           | Some e0 => e0
                           | None => []
                           end key =
                    option_map f (lastRow names done (facetOf row) k)).
        { intros key k f H.
          destruct (Js.get acc (facetOf row)) as [e0|] eqn:Hg.
          - now apply H.
          - now rewrite (Hnone _ Hg). }
        destruct (Scatter.positionOf names row) as [p|].
        -- repeat split;
             (destruct (Nat.eqb p _); [reflexivity|]);
             apply He0; intros e0 H0; now apply Hsome in H0.
        -- repeat split; apply He0; intros e0 H0; now apply Hsome in H0.
      * rewrite JsFacts.get_set_other by assumption. intros He.
        assert (Hp : forall k, plots names F k row = false).
        { intros k. destruct (plots names F k row) eqn:Hp; [|reflexivity].
          apply plots_facet in Hp. destruct Hp as (_ & Hp & _). congruence. }
        rewrite !Hp. now apply Hsome.
  - intros [= <-]. split; [assumption|].
    assert (Hp : forall F k, plots names F k row = false).
    { intros F k. unfold Scatter.plots. now rewrite Hs. }
    split.
    + intros F HF k. rewrite lastRow_snoc, Hp. now apply Hnone.
    + intros F e He. rewrite !lastRow_snoc, !Hp. now apply Hsome.
Qed.

Lemma grouped_all names rest :
  forallb supported rest = true ->
  forall done acc acc',
    grouped_from names done acc ->
    facetGroupData names acc rest = Js.Returns acc' ->
    grouped_from names (done ++ rest) acc'.
Proof.
  induction rest as [|row rest IH]; intros Hs done acc acc' Hinv H.
  - simpl in H. injection H as <-. now rewrite app_nil_r.
  - simpl in Hs. apply andb_true_iff in Hs. destruct Hs as [Hrow Hrest].
    rewrite ScatterFacts.facetGroupData_cons in H.
    destruct (facetGroupStep names acc row) as [acc1|e] eqn:Hstep;
      [|discriminate].
    cbn [Js.bind] in H.
    replace (done ++ row :: rest) with ((done ++ [row]) ++ rest)
      by now rewrite <- app_assoc.
    eapply IH; [exact Hrest| |exact H]. eapply grouped_step; eauto.
Qed.

(** The grouping of a whole result. *)
Lemma grouped_rows names rows acc :
  forallb supported rows = true ->
  facetGroupData names [] rows = Js.Returns acc ->
  grouped_from names rows acc.
Proof.
  intros Hs H. change rows with ([] ++ rows).
  eapply grouped_all; [exact Hs| |exact H].
  split; [constructor|]. split; [reflexivity | discriminate].
Qed.

End Grouping.

End ScatterGroups.

Module ScatterAggregates.

Lemma NoDup_map_filter {A B : Type} (f : A -> B) (g : A -> bool) (l : list A) :
  NoDup (map f l) -> NoDup (map f (filter g l)).
Proof.
  induction l as [|a l IH]; simpl; intros H; [constructor|].
  inversion H as [|? ? Hnot Hnd]; subst.
  destruct (g a); simpl; [|auto].
  constructor; [|auto].
  intros Hin. apply Hnot. apply in_map_iff in Hin.
  destruct Hin as (b & Hb & Hin). apply filter_In in Hin.
  apply in_map_iff. exists b. tauto.
Qed.

Lemma NoDup_map_Str (l : list string) : NoDup l -> NoDup (map Js.Str l).
Proof.
  induction 1 as [|a l Hnot Hnd IH]; simpl; constructor; [|assumption].
  intros Hin. apply in_map_iff in Hin. destruct Hin as (b & [= ->] & Hb).
  contradiction.
Qed.

Lemma indexOf_lt (names : list string) v :
  forall k, Scatter.indexOf names v = Some k -> k < List.length names.
Proof.
  induction names as [|n names IH]; simpl; intros k; [discriminate|].
  destruct v as [| | |s]; try discriminate.
  destruct (String.eqb n s); [intros [= <-]; lia|].
  destruct (Scatter.indexOf names (Js.Str s)) as [j|]; [|discriminate].
  intros [= <-]. specialize (IH j eq_refl). lia.
Qed.

Lemma indexOf_nth (names : list string) v :
  forall k,
    Scatter.indexOf names v = Some k ->
    exists n, nth_error names k = Some n /\ v = Js.Str n.
Proof.
  induction names as [|n names IH]; simpl; intros k; [discriminate|].
  destruct v as [| | |s]; try discriminate.
  destruct (String.eqb n s) eqn:E.
  - intros [= <-]. apply String.eqb_eq in E. subst. now exists s.
  - destruct (Scatter.indexOf names (Js.Str s)) as [j|]; [|discriminate].
    intros [= <-]. exact (IH j eq_refl).
Qed.

Lemma prop_nullish_get (o : Js.object Js.value) k :
  Js.is_nullish (Js.prop o k) = false -> exists v, Js.get o k = Some v.
Proof.
  unfold Js.prop. destruct (Js.get o k); [eauto | discriminate].
Qed.

Section Aggregates.

Variable getFacetLabel : list Group -> string.
Variable StringToNumber : string -> float.
Variable props : Scatter.Props.
Variable typeToUnit : Js.value -> Js.value.
Variable toLocaleString : Js.value -> string.
Variable NumberToString : float -> string.

#[local] Abbreviation shown := (Scatter.shown getFacetLabel props).
#[local] Abbreviation supported := (Scatter.supported getFacetLabel props).
#[local] Abbreviation lastRow := (Scatter.lastRow getFacetLabel props).
#[local] Abbreviation facetGroupData := (Scatter.facetGroupData getFacetLabel props).
#[local] Abbreviation getAggregatesData :=
  (Scatter.getAggregatesData getFacetLabel StringToNumber props).
#[local] Abbreviation valueLabel :=
  (Scatter.valueLabel typeToUnit toLocaleString NumberToString).
#[local] Abbreviation tooltipLabel :=
  (Scatter.tooltipLabel typeToUnit toLocaleString NumberToString).
#[local] Abbreviation facetGroupName := (fun p : Scatter.Point => Js.prop p "facetGroupName").

(** The aggregate of the last row of a facet label at a position is the
    one declared at this position. *)
Lemma lastRow_name names rows F k r :
  lastRow names rows F k = Some r ->
  exists n,
    nth_error names k = Some n /\
    match hd_error (filter is_function (groups (metadata r))) with
    | Some g => Js.Str (displayName g)
    | None => Js.Undefined
    end = Js.Str n.
Proof.
  intros H. unfold Scatter.lastRow in H. apply find_some in H.
  destruct H as [_ H]. apply ScatterGroups.plots_facet in H.
  destruct H as (_ & _ & H). now apply indexOf_nth in H.
Qed.

(** The points of the aggregate mode, from the entries of the grouping. *)
Lemma aggregates_series rawData names :
  forallb supported rawData = true ->
  exists grouped out,
    facetGroupData names [] rawData = Js.Returns grouped /\
    getAggregatesData rawData names = Js.Returns out /\
    Scatter.series out =
    filter (fun entry =>
              negb (Scatter.entryHasNulls entry
                      (Nat.ltb 2 (List.length names))))
           (map (fun '(F, e) => ("facetGroupName", Js.Str F) :: e)
                (Js.Object_entries grouped)).
Proof.
  intros Hs.
  destruct (ScatterFacts.facetGroupData_returns
              getFacetLabel props names rawData Hs [])
    as [grouped Hg].
  exists grouped. unfold Scatter.getAggregatesData. rewrite Hg. simpl.
  eexists. split; [reflexivity|]. split; reflexivity.
Qed.

(** What a retained point of the aggregate mode is made of. *)
Lemma aggregates_point rawData names grouped p :
  forallb supported rawData = true ->
  facetGroupData names [] rawData = Js.Returns grouped ->
  In p (filter (fun entry =>
                  negb (Scatter.entryHasNulls entry
                          (Nat.ltb 2 (List.length names))))
               (map (fun '(F, e) => ("facetGroupName", Js.Str F) :: e)
                    (Js.Object_entries grouped))) ->
  exists F e,
    p = ("facetGroupName", Js.Str F) :: e /\
    Js.get grouped F = Some e /\
    Js.is_nullish (Js.prop e "x") = false /\
    Js.is_nullish (Js.prop e "y") = false /\
    (2 < List.length names -> Js.is_nullish (Js.prop e "z") = false).
Proof.
  intros Hs Hg Hp.
  destruct (ScatterGroups.grouped_rows _ _ _ _ Hs Hg) as (Hwf & _).
  apply filter_In in Hp. destruct Hp as [Hp Hnulls].
  apply in_map_iff in Hp. destruct Hp as ([F e] & <- & Hin).
  apply (JsFacts.Object_entries_get _ _ Hwf) in Hin.
  exists F, e. split; [reflexivity|]. split; [assumption|].
  apply negb_true_iff in Hnulls. unfold Scatter.entryHasNulls in Hnulls.
  change (Js.prop (("facetGroupName", Js.Str F) :: e) "x") with (Js.prop e "x")
    in Hnulls.
  change (Js.prop (("facetGroupName", Js.Str F) :: e) "y") with (Js.prop e "y")
    in Hnulls.
  change (Js.prop (("facetGroupName", Js.Str F) :: e) "z") with (Js.prop e "z")
    in Hnulls.
  destruct (Nat.ltb_spec 2 (List.length names)) as [Hz|Hz]; simpl in Hnulls;
    rewrite !orb_false_iff in Hnulls.
  - destruct Hnulls as (Hx & Hy & Hz' & _). auto.
  - destruct Hnulls as (Hx & Hy & _).
    split; [assumption|]. split; [assumption|]. intros Hlt. lia.
Qed.

(** X14: One point per facet label, for rows whose facet labels name no
    member inherited from [Object.prototype].  No two points of the
    aggregate mode share a facet group name.  The point of a facet label takes its [x]
    and its colour from the last row of this label with the first
    declared aggregate, its [y] from the last row with the second and its
    [z], if any, from the last row with the third; with the overflow
    bucket hidden no point is named ["Other"].  A facet label has a point
    exactly when these values are neither [null] nor [undefined], [z]
    counting only when more than two aggregates are declared. *)
Theorem scatter_aggregate_point_per_facet (rawData : list ResultRow)
  (names : list string) :
  forallb supported rawData = true ->
  exists out,
    getAggregatesData rawData names = Js.Returns out /\
    NoDup (map facetGroupName (Scatter.series out)) /\
    (forall p,
        In p (Scatter.series out) ->
        exists F rx ry,
          facetGroupName p = Js.Str F /\
          lastRow names rawData F 0 = Some rx /\
          lastRow names rawData F 1 = Some ry /\
          Js.prop p "x" = Scatter.dataValueOf rx /\
          Js.prop p "color" = Js.Str (color (metadata rx)) /\
          Js.prop p "y" = Scatter.dataValueOf ry /\
          Js.get p "z" =
          option_map Scatter.dataValueOf (lastRow names rawData F 2) /\
          (Scatter.visible (Scatter.other props) = false -> F <> "Other")) /\
    (forall F,
        let value k := match lastRow names rawData F k with
                       | Some r => Scatter.dataValueOf r
                       | None => Js.Undefined
                       end in
        (exists p, In p (Scatter.series out) /\ facetGroupName p = Js.Str F) <->
        Js.is_nullish (value 0) = false /\
        Js.is_nullish (value 1) = false /\
        (2 < List.length names -> Js.is_nullish (value 2) = false)).
Proof.
  intros Hs.
  destruct (aggregates_series rawData names Hs)
    as (grouped & out & Hg & Hout & Hseries).
  destruct (ScatterGroups.grouped_rows _ _ _ _ Hs Hg) as (Hwf & Hnone & Hsome).
  exists out. split; [exact Hout|]. rewrite Hseries. split; [|split].
  - apply NoDup_map_filter. rewrite map_map.
    rewrite (map_ext _ (fun e => Js.Str (fst e))) by now intros [F e].
    rewrite <- map_map. apply NoDup_map_Str.
    now apply EnumerationFacts.Object_entries_wf.
  - intros p Hp.
    destruct (aggregates_point _ _ _ Hs Hg Hp) as (F & e & -> & He & Hx & Hy & _).
    destruct (Hsome F e He) as (Hgx & Hgc & Hgy & Hgz & Hlabels).
    change (Js.prop (("facetGroupName", Js.Str F) :: e) "x") with (Js.prop e "x").
    change (Js.prop (("facetGroupName", Js.Str F) :: e) "y") with (Js.prop e "y").
    change (Js.prop (("facetGroupName", Js.Str F) :: e) "color")
      with (Js.prop e "color").
    change (Js.get (("facetGroupName", Js.Str F) :: e) "z") with (Js.get e "z").
    unfold Js.prop in *. rewrite Hgx in Hx. rewrite Hgy in Hy.
    rewrite Hgx, Hgc, Hgy, Hgz.
    destruct (lastRow names rawData F 0) as [rx|] eqn:Hrx; [|discriminate].
    destruct (lastRow names rawData F 1) as [ry|] eqn:Hry; [|discriminate].
    exists F, rx, ry.
    repeat (split; [first [reflexivity | assumption]|]).
    intros Hvis ->. unfold Scatter.lastRow in Hrx. apply find_some in Hrx.
    destruct Hrx as [_ Hrx]. apply ScatterGroups.plots_facet in Hrx.
    destruct Hrx as (Hsh & Hf & _). unfold Scatter.shown in Hsh.
    rewrite Hvis, Hf in Hsh. discriminate.
  - intros F value. split.
    + intros (p & Hp & HF).
      destruct (aggregates_point _ _ _ Hs Hg Hp) as (F' & e & -> & He & Hx & Hy & Hz).
      injection HF as ->.
      destruct (Hsome F e He) as (Hgx & _ & Hgy & Hgz & Hlabels).
      unfold Js.prop in Hx, Hy, Hz. rewrite Hgx in Hx. rewrite Hgy in Hy.
      rewrite Hgz in Hz. subst value. cbv beta.
      destruct (lastRow names rawData F 0); [|discriminate].
      destruct (lastRow names rawData F 1); [|discriminate].
      split; [assumption|]. split; [assumption|].
      intros Hlen. specialize (Hz Hlen).
      now destruct (lastRow names rawData F 2).
    + subst value. cbv beta. intros (Hx & Hy & Hz).
      destruct (Js.get grouped F) as [e|] eqn:He.
      * destruct (Hsome F e He) as (Hgx & _ & Hgy & Hgz & Hlabels).
        exists (("facetGroupName", Js.Str F) :: e). split; [|reflexivity].
        apply filter_In. split.
        -- apply in_map_iff. exists (F, e). split; [reflexivity|].
           now apply JsFacts.Object_entries_get.
        -- apply negb_true_iff. unfold Scatter.entryHasNulls.
           change (Js.prop (("facetGroupName", Js.Str F) :: e) "x")
             with (Js.prop e "x").
           change (Js.prop (("facetGroupName", Js.Str F) :: e) "y")
             with (Js.prop e "y").
           change (Js.prop (("facetGroupName", Js.Str F) :: e) "z")
             with (Js.prop e "z").
           unfold Js.prop. rewrite Hgx, Hgy, Hgz.
           destruct (lastRow names rawData F 0); [|discriminate].
           destruct (lastRow names rawData F 1); [|discriminate].
           destruct (Nat.ltb_spec 2 (List.length names)) as [Hlen|Hlen];
             simpl; rewrite Hx, Hy; [|reflexivity].
           specialize (Hz Hlen).
           destruct (lastRow names rawData F 2); simpl in *;
             [now rewrite Hz | discriminate].
      * rewrite (Hnone F He 0) in Hx. discriminate.
Qed.

(** X15: The tooltip of a point of the aggregate mode, for rows whose facet
    labels name no member inherited from [Object.prototype].  Its first
    line is the facet group name.  The second is the label of the first declared
    aggregate with the value and the unit of the last row of the facet
    label with this aggregate; the third is that of the second declared
    aggregate.  A fourth line, for the third declared aggregate, is there
    exactly when more than two aggregates are declared. *)
Theorem scatter_aggregate_tooltip (rawData : list ResultRow)
  (names : list string) :
  forallb supported rawData = true ->
  exists out,
    getAggregatesData rawData names = Js.Returns out /\
    forall p,
      In p (Scatter.series out) ->
      exists F rx ry n0 n1,
        facetGroupName p = Js.Str F /\
        lastRow names rawData F 0 = Some rx /\
        lastRow names rawData F 1 = Some ry /\
        nth_error names 0 = Some n0 /\
        nth_error names 1 = Some n1 /\
        (2 < List.length names -> lastRow names rawData F 2 <> None) /\
        tooltipLabel p =
        [ Js.Str F;
          Js.Str (valueLabel (Js.Str n0) (Scatter.dataValueOf rx)
                             (unit_of (metadata rx) "y"));
          Js.Str (valueLabel (Js.Str n1) (Scatter.dataValueOf ry)
                             (unit_of (metadata ry) "y")) ]
        ++ match nth_error names 2, lastRow names rawData F 2 with
           | Some n2, Some rz =>
               [ Js.Str (valueLabel (Js.Str n2) (Scatter.dataValueOf rz)
                                    (unit_of (metadata rz) "y")) ]
           | _, _ => []
           end.
Proof.
  intros Hs.
  destruct (aggregates_series rawData names Hs)
    as (grouped & out & Hg & Hout & Hseries).
  destruct (ScatterGroups.grouped_rows _ _ _ _ Hs Hg) as (Hwf & Hnone & Hsome).
  exists out. split; [exact Hout|]. rewrite Hseries. intros p Hp.
  destruct (aggregates_point _ _ _ Hs Hg Hp) as (F & e & -> & He & Hx & Hy & Hz).
  destruct (Hsome F e He)
    as (Hgx & _ & Hgy & Hgz & Hxu & Hxn & Hyu & Hyn & Hzu & Hzn).
  unfold Scatter.tooltipLabel.
  change (Js.has (("facetGroupName", Js.Str F) :: e) "facetGroupName") with true.
  change (Js.has (("facetGroupName", Js.Str F) :: e) "z") with (Js.has e "z").
  change (Js.prop (("facetGroupName", Js.Str F) :: e) "facetGroupName")
    with (Js.Str F).
  repeat match goal with
         | |- context [Js.prop (("facetGroupName", Js.Str F) :: e) ?k] =>
             change (Js.prop (("facetGroupName", Js.Str F) :: e) k)
               with (Js.prop e k)
         end.
  unfold Js.has, Js.prop in *.
  rewrite Hgx in Hx. rewrite Hgy in Hy. rewrite Hgz in Hz.
  rewrite Hgx, Hgy, Hgz, Hxu, Hxn, Hyu, Hyn, Hzu, Hzn.
  destruct (lastRow names rawData F 0) as [rx|] eqn:Hrx; [|discriminate].
  destruct (lastRow names rawData F 1) as [ry|] eqn:Hry; [|discriminate].
  destruct (lastRow_name _ _ _ _ Hrx) as (n0 & Hn0 & Hd0).
  destruct (lastRow_name _ _ _ _ Hry) as (n1 & Hn1 & Hd1).
  exists F, rx, ry, n0, n1.
  repeat (split; [first [reflexivity | assumption]|]).
  split.
  - intros Hlen H. specialize (Hz Hlen). rewrite H in Hz. discriminate.
  - cbn [option_map]. rewrite Hd0, Hd1.
    destruct (lastRow names rawData F 2) as [rz|] eqn:Hrz.
    + destruct (lastRow_name _ _ _ _ Hrz) as (n2 & Hn2 & Hd2).
      rewrite Hn2. cbn [option_map]. now rewrite Hd2.
    + now destruct (nth_error names 2).
Qed.

Lemma facetGroupData_shown names rows :
  forall acc,
    facetGroupData names acc rows = facetGroupData names acc (filter shown rows).
Proof.
  induction rows as [|row rows IH]; intros acc; [reflexivity|].
  cbn [filter]. destruct (shown row) eqn:Hs.
  - rewrite !ScatterFacts.facetGroupData_cons.
    destruct (Scatter.facetGroupStep getFacetLabel props names acc row);
      simpl; auto.
  - rewrite ScatterFacts.facetGroupData_cons,
      ScatterGroups.facetGroupStep_cases, Hs.
    simpl. apply IH.
Qed.

(** X16: The rows of the hidden overflow bucket play no part in the aggregate
    mode: with the bucket hidden, the result is that of the rows whose
    facet label is not ["Other"], whatever the hidden rows hold; with the
    bucket visible every row takes part. *)
Theorem scatter_aggregate_hides_overflow (rawData : list ResultRow)
  (names : list string) :
  getAggregatesData rawData names =
  getAggregatesData (filter shown rawData) names /\
  (Scatter.visible (Scatter.other props) = false ->
   filter shown rawData =
   filter (fun row =>
             negb (String.eqb (getFacetLabel (groups (metadata row))) "Other"))
          rawData) /\
  (Scatter.visible (Scatter.other props) = true ->
   filter shown rawData = rawData).
Proof.
  split; [|split].
  - unfold Scatter.getAggregatesData. now rewrite facetGroupData_shown.
  - intros Hvis. apply filter_ext. intros row. unfold Scatter.shown.
    now rewrite Hvis.
  - intros Hvis. induction rawData as [|row rows IH]; simpl; [reflexivity|].
    unfold Scatter.shown at 1. rewrite Hvis. simpl. now f_equal.
Qed.

(** ** The legend *)

#[local] Abbreviation legendStep :=
  (fun (acc : list Legend.Item) (curr : Scatter.Point) =>
     if existsb (fun item =>
                   Js.strict_eq (Legend.label item) (facetGroupName curr)) acc
     then acc
     else acc ++ [ {| Legend.label := facetGroupName curr;
                      Legend.color := Js.prop curr "color" |} ]).

Lemma legend_named_points (series : list Scatter.Point) :
  (forall p, In p series -> exists F, facetGroupName p = Js.Str F) ->
  NoDup (map facetGroupName series) ->
  forall acc,
    (forall p, In p series ->
               existsb (fun item =>
                          Js.strict_eq (Legend.label item) (facetGroupName p))
                       acc = false) ->
    fold_left legendStep series acc =
    acc ++ map (fun p => {| Legend.label := facetGroupName p;
                            Legend.color := Js.prop p "color" |}) series.
Proof.
  induction series as [|p series IH]; intros Hnamed Hnd acc Hacc; simpl.
  - now rewrite app_nil_r.
  - rewrite Hacc by now left.
    inversion Hnd as [|? ? Hnot Hnd']; subst.
    rewrite IH; [now rewrite <- app_assoc | auto with datatypes | assumption |].
    intros q Hq. rewrite existsb_app, Hacc by now right. simpl.
    rewrite orb_false_r.
    destruct (Hnamed p) as [F HF]; [now left|].
    destruct (Hnamed q) as [G HG]; [now right|].
    rewrite HF, HG. simpl. apply String.eqb_neq. intros ->.
    apply Hnot. rewrite HF, <- HG. apply in_map_iff. now exists q.
Qed.

(** X17: For rows whose facet labels name no member inherited from
    [Object.prototype], the legend of the aggregate mode lists the points
    in their order, each under its facet group name and with its
    colour. *)
Theorem scatter_aggregate_legend (rawData : list ResultRow)
  (names : list string) :
  forallb supported rawData = true ->
  exists out,
    getAggregatesData rawData names = Js.Returns out /\
    Scatter.legendItems (Scatter.series out) =
    map (fun p => {| Legend.label := facetGroupName p;
                     Legend.color := Js.prop p "color" |})
        (Scatter.series out).
Proof.
  intros Hs.
  destruct (aggregates_series rawData names Hs)
    as (grouped & out & Hg & Hout & Hseries).
  destruct (ScatterGroups.grouped_rows _ _ _ _ Hs Hg) as (Hwf & _).
  exists out. split; [exact Hout|]. rewrite Hseries.
  unfold Scatter.legendItems. rewrite legend_named_points; [reflexivity| | |].
  - intros p Hp.
    destruct (aggregates_point _ _ _ Hs Hg Hp) as (F & e & -> & _). now exists F.
  - apply NoDup_map_filter. rewrite map_map.
    rewrite (map_ext _ (fun e => Js.Str (fst e))) by now intros [F e].
    rewrite <- map_map. apply NoDup_map_Str.
    now apply EnumerationFacts.Object_entries_wf.
  - reflexivity.
Qed.

End Aggregates.

End ScatterAggregates.

(* ================================================================== *)
(** * The order of the doubles, and [Math.min] and [Math.max] *)

Module FloatOrder.

Local Open Scope Z_scope.

(** Comparison of doubles is comparison of their places. *)
Lemma SFcompare_key (x y : spec_float) :
  x <> S754_nan -> y <> S754_nan ->
  match SFcompare x y with
  | Some Lt => Double.lt_key (Double.key x) (Double.key y)
  | Some Eq => Double.key x = Double.key y
  | Some Gt => Double.lt_key (Double.key y) (Double.key x)
  | None => False
  end.
Proof.
  intros Hx Hy. unfold Double.lt_key.
  destruct x as [sx|sx| |sx mx ex]; try congruence;
    destruct y as [sy|sy| |sy my ey]; try congruence;
    repeat match goal with s : bool |- _ => destruct s end;
    simpl; try reflexivity; try lia.
  - destruct (Z.compare_spec ex ey); try lia.
    change (Pos.compare_cont Eq mx my) with (Pos.compare mx my).
    destruct (Pos.compare_spec mx my); simpl; try lia.
    subst. reflexivity.
  - destruct (Z.compare_spec ex ey); try lia.
    change (Pos.compare_cont Eq mx my) with (Pos.compare mx my).
    destruct (Pos.compare_spec mx my); simpl; try lia.
    subst. reflexivity.
Qed.

Lemma SFcompare_nan (x y : spec_float) :
  SFcompare x y <> None -> x <> S754_nan /\ y <> S754_nan.
Proof.
  destruct x, y; simpl; intros H; split; congruence.
Qed.

Local Close Scope Z_scope.

Lemma is_nan_false (x : float) :
  PrimFloat.is_nan x = false <-> Prim2SF x <> S754_nan.
Proof.
  unfold PrimFloat.is_nan. rewrite eqb_spec. unfold SFeqb. split.
  - intros H E. rewrite E in H. discriminate.
  - intros H. pose proof (SFcompare_key H H) as Hk.
    destruct (SFcompare (Prim2SF x) (Prim2SF x)) as [[| |]|];
      try reflexivity; try contradiction;
      destruct (Double.key (Prim2SF x)) as [[a b] c]; simpl in Hk; lia.
Qed.

Lemma leb_not_nan (x y : float) :
  (x <=? y)%float = true ->
  PrimFloat.is_nan x = false /\ PrimFloat.is_nan y = false.
Proof.
  rewrite leb_spec, !is_nan_false. unfold SFleb. intros H.
  apply SFcompare_nan. destruct (SFcompare _ _); congruence.
Qed.

Lemma leb_key (x y : float) :
  PrimFloat.is_nan x = false -> PrimFloat.is_nan y = false ->
  ((x <=? y)%float = true <->
   ~ Double.lt_key (Double.key (Prim2SF y)) (Double.key (Prim2SF x))).
Proof.
  rewrite !is_nan_false, leb_spec. unfold SFleb. intros Hx Hy.
  pose proof (SFcompare_key Hx Hy) as Hk.
  destruct (Double.key (Prim2SF x)) as [[a b] c],
           (Double.key (Prim2SF y)) as [[a' b'] c'].
  destruct (SFcompare (Prim2SF x) (Prim2SF y)) as [[| |]|]; simpl in *;
    try contradiction.
  - injection Hk as -> -> ->. split; [lia | reflexivity].
  - split; [lia | reflexivity].
  - split; [discriminate | lia].
Qed.

Lemma ltb_key (x y : float) :
  PrimFloat.is_nan x = false -> PrimFloat.is_nan y = false ->
  ((x <? y)%float = true <->
   Double.lt_key (Double.key (Prim2SF x)) (Double.key (Prim2SF y))).
Proof.
  rewrite !is_nan_false, ltb_spec. unfold SFltb. intros Hx Hy.
  pose proof (SFcompare_key Hx Hy) as Hk.
  destruct (Double.key (Prim2SF x)) as [[a b] c],
           (Double.key (Prim2SF y)) as [[a' b'] c'].
  destruct (SFcompare (Prim2SF x) (Prim2SF y)) as [[| |]|]; simpl in *;
    try contradiction.
  - injection Hk as -> -> ->. split; [discriminate | lia].
  - split; [lia | reflexivity].
  - split; [discriminate | lia].
Qed.

Lemma is_zero_key (x : float) :
  PrimFloat.is_zero x = true ->
  PrimFloat.is_nan x = false /\ Double.key (Prim2SF x) = (0, 0, 0)%Z.
Proof.
  unfold PrimFloat.is_zero. rewrite eqb_spec. unfold SFeqb.
  change (Prim2SF PrimFloat.zero) with (S754_zero false).
  destruct (Prim2SF x) as [s|s| |s m e] eqn:E; simpl; try discriminate;
    try (destruct s; discriminate).
  intros _. split; [|reflexivity]. apply is_nan_false. congruence.
Qed.

(** ** The order *)

Lemma leb_refl (x : float) :
  PrimFloat.is_nan x = false -> (x <=? x)%float = true.
Proof.
  intros Hx. apply leb_key; try assumption.
  destruct (Double.key (Prim2SF x)) as [[a b] c]. simpl. lia.
Qed.

Lemma leb_trans (x y z : float) :
  (x <=? y)%float = true -> (y <=? z)%float = true -> (x <=? z)%float = true.
Proof.
  intros Hxy Hyz.
  destruct (leb_not_nan Hxy) as [Hx Hy].
  destruct (leb_not_nan Hyz) as [_ Hz].
  apply leb_key in Hxy; try assumption.
  apply leb_key in Hyz; try assumption.
  apply leb_key; try assumption.
  destruct (Double.key (Prim2SF x)) as [[a b] c],
           (Double.key (Prim2SF y)) as [[a' b'] c'],
           (Double.key (Prim2SF z)) as [[a'' b''] c''].
  simpl in *. lia.
Qed.

Lemma ltb_leb (x y : float) : (x <? y)%float = true -> (x <=? y)%float = true.
Proof.
  rewrite ltb_spec, leb_spec. unfold SFltb, SFleb.
  now destruct (SFcompare _ _) as [[| |]|].
Qed.

Lemma not_ltb_leb (x y : float) :
  PrimFloat.is_nan x = false -> PrimFloat.is_nan y = false ->
  (x <? y)%float = false -> (y <=? x)%float = true.
Proof.
  intros Hx Hy H. apply leb_key; try assumption. intros Hk.
  apply ltb_key in Hk; try assumption. congruence.
Qed.

Lemma ltb_irrefl (x : float) : (x <? x)%float = false.
Proof.
  rewrite ltb_spec. unfold SFltb.
  destruct (Prim2SF x) as [s|s| |s m e]; simpl; try reflexivity;
    try (now destruct s).
  destruct s; rewrite Z.compare_refl;
    change (Pos.compare_cont Eq m m) with (Pos.compare m m);
    now rewrite Pos.compare_refl.
Qed.

Lemma zeros_leb (x y : float) :
  PrimFloat.is_zero x = true -> PrimFloat.is_zero y = true ->
  (x <=? y)%float = true.
Proof.
  intros Hx Hy.
  destruct (is_zero_key Hx) as [Hnx Hkx], (is_zero_key Hy) as [Hny Hky].
  apply leb_key; try assumption. rewrite Hkx, Hky. simpl. lia.
Qed.

(** Nothing but [+Infinity] is not below [+Infinity], and nothing but
    [-Infinity] not above [-Infinity]. *)
Lemma not_below_infinity (x : float) :
  PrimFloat.is_nan x = false -> (x <? PrimFloat.infinity)%float = false ->
  x = PrimFloat.infinity.
Proof.
  intros Hx H. apply Prim2SF_inj.
  change (Prim2SF PrimFloat.infinity) with (S754_infinity false).
  apply is_nan_false in Hx. rewrite ltb_spec in H. unfold SFltb in H.
  change (Prim2SF PrimFloat.infinity) with (S754_infinity false) in H.
  destruct (Prim2SF x) as [s|s| |s m e]; try congruence;
    destruct s; simpl in H; congruence.
Qed.

Lemma not_above_neg_infinity (x : float) :
  PrimFloat.is_nan x = false -> (PrimFloat.neg_infinity <? x)%float = false ->
  x = PrimFloat.neg_infinity.
Proof.
  intros Hx H. apply Prim2SF_inj.
  change (Prim2SF PrimFloat.neg_infinity) with (S754_infinity true).
  apply is_nan_false in Hx. rewrite ltb_spec in H. unfold SFltb in H.
  change (Prim2SF PrimFloat.neg_infinity) with (S754_infinity true) in H.
  destruct (Prim2SF x) as [s|s| |s m e]; try congruence;
    destruct s; simpl in H; congruence.
Qed.

End FloatOrder.

Module MathFacts.

Lemma leb_not_ltb (x y : float) :
  (x <=? y)%float = true -> (y <? x)%float = false.
Proof.
  intros H. destruct (FloatOrder.leb_not_nan H) as [Hx Hy].
  apply FloatOrder.leb_key in H; try assumption.
  destruct ((y <? x)%float) eqn:E; [|reflexivity].
  apply FloatOrder.ltb_key in E; try assumption. contradiction.
Qed.

#[local] Abbreviation min_step :=
  (fun lowest n : float =>
     if Js.lt n lowest || (Js.is_neg_zero n && Js.is_pos_zero lowest)
     then n else lowest).

#[local] Abbreviation max_step :=
  (fun highest n : float =>
     if Js.gt n highest || (Js.is_pos_zero n && Js.is_neg_zero highest)
     then n else highest).

Lemma existsb_nan_cons n l :
  existsb PrimFloat.is_nan (n :: l) = false ->
  PrimFloat.is_nan n = false /\ existsb PrimFloat.is_nan l = false.
Proof. simpl. now intros H%orb_false_iff. Qed.

(** The running lowest value is below the start and below every number
    met, and it is the start or one of these numbers. *)
Lemma min_fold (l : list float) :
  forall init,
    PrimFloat.is_nan init = false ->
    existsb PrimFloat.is_nan l = false ->
    PrimFloat.is_nan (fold_left min_step l init) = false /\
    (fold_left min_step l init <=? init)%float = true /\
    (forall n, In n l -> (fold_left min_step l init <=? n)%float = true) /\
    (fold_left min_step l init = init \/ In (fold_left min_step l init) l).
Proof.
  induction l as [|n l IH]; intros init Hinit Hl.
  - simpl. split; [assumption|]. split; [now apply FloatOrder.leb_refl|].
    split; [intros n []|now left].
  - apply existsb_nan_cons in Hl. destruct Hl as [Hn Hl].
    cbn [fold_left].
    set (next := min_step init n).
    assert (Hnext : PrimFloat.is_nan next = false /\
                    (next <=? init)%float = true /\
                    (next <=? n)%float = true /\
                    (next = init \/ next = n)).
    { unfold next, Js.lt, Js.is_neg_zero, Js.is_pos_zero.
      destruct ((n <? init)%float) eqn:Hlt; cbn [orb].
      - split; [assumption|]. split; [now apply FloatOrder.ltb_leb|].
        split; [now apply FloatOrder.leb_refl | now right].
      - destruct (PrimFloat.is_zero n && PrimFloat.get_sign n
                  && (PrimFloat.is_zero init && negb (PrimFloat.get_sign init)))
          eqn:Hz.
        + apply andb_true_iff in Hz. destruct Hz as [Hz1 Hz2].
          apply andb_true_iff in Hz1, Hz2.
          split; [assumption|].
          split; [apply FloatOrder.zeros_leb; tauto|].
          split; [now apply FloatOrder.leb_refl | now right].
        + split; [assumption|]. split; [now apply FloatOrder.leb_refl|].
          split; [now apply FloatOrder.not_ltb_leb | now left]. }
    destruct Hnext as (H1 & H2 & H3 & H4).
    destruct (IH next H1 Hl) as (I1 & I2 & I3 & I4).
    split; [assumption|].
    split; [eapply FloatOrder.leb_trans; eassumption|]. split.
    + intros m [<-|Hm]; [eapply FloatOrder.leb_trans; eassumption | auto].
    + destruct I4 as [I4|I4]; [|right; now right].
      rewrite I4. destruct H4 as [->| ->]; [now left | right; now left].
Qed.

Lemma max_fold (l : list float) :
  forall init,
    PrimFloat.is_nan init = false ->
    existsb PrimFloat.is_nan l = false ->
    PrimFloat.is_nan (fold_left max_step l init) = false /\
    (init <=? fold_left max_step l init)%float = true /\
    (forall n, In n l -> (n <=? fold_left max_step l init)%float = true) /\
    (fold_left max_step l init = init \/ In (fold_left max_step l init) l).
Proof.
  induction l as [|n l IH]; intros init Hinit Hl.
  - simpl. split; [assumption|]. split; [now apply FloatOrder.leb_refl|].
    split; [intros n []|now left].
  - apply existsb_nan_cons in Hl. destruct Hl as [Hn Hl].
    cbn [fold_left].
    set (next := max_step init n).
    assert (Hnext : PrimFloat.is_nan next = false /\
                    (init <=? next)%float = true /\
                    (n <=? next)%float = true /\
                    (next = init \/ next = n)).
    { unfold next, Js.gt, Js.is_neg_zero, Js.is_pos_zero.
      destruct ((init <? n)%float) eqn:Hlt; cbn [orb].
      - split; [assumption|]. split; [now apply FloatOrder.ltb_leb|].
        split; [now apply FloatOrder.leb_refl | now right].
      - destruct (PrimFloat.is_zero n && negb (PrimFloat.get_sign n)
                  && (PrimFloat.is_zero init && PrimFloat.get_sign init))
          eqn:Hz.
        + apply andb_true_iff in Hz. destruct Hz as [Hz1 Hz2].
          apply andb_true_iff in Hz1, Hz2.
          split; [assumption|].
          split; [apply FloatOrder.zeros_leb; tauto|].
          split; [now apply FloatOrder.leb_refl | now right].
        + split; [assumption|]. split; [now apply FloatOrder.leb_refl|].
          split; [now apply FloatOrder.not_ltb_leb | now left]. }
    destruct Hnext as (H1 & H2 & H3 & H4).
    destruct (IH next H1 Hl) as (I1 & I2 & I3 & I4).
    split; [assumption|].
    split; [eapply FloatOrder.leb_trans; eassumption|]. split.
    + intros m [<-|Hm]; [eapply FloatOrder.leb_trans; eassumption | auto].
    + destruct I4 as [I4|I4]; [|right; now right].
      rewrite I4. destruct H4 as [->| ->]; [now left | right; now left].
Qed.

(** [Math.min] of numbers, none of them [NaN]: a lower bound, and one of
    the numbers when there is any. *)
Lemma Math_min_spec (l : list float) :
  existsb PrimFloat.is_nan l = false ->
  PrimFloat.is_nan (Js.Math_min l) = false /\
  (forall n, In n l -> (Js.Math_min l <=? n)%float = true) /\
  (l <> [] -> In (Js.Math_min l) l).
Proof.
  intros Hl. unfold Js.Math_min. rewrite Hl.
  destruct (min_fold l PrimFloat.infinity eq_refl Hl) as (H1 & _ & H3 & H4).
  split; [assumption|]. split; [assumption|].
  intros Hne. destruct H4 as [H4|H4]; [|assumption].
  destruct l as [|n l]; [congruence|].
  assert (Hn : n = PrimFloat.infinity).
  { apply existsb_nan_cons in Hl.
    apply FloatOrder.not_below_infinity; [tauto|].
    apply leb_not_ltb. rewrite <- H4. apply H3. now left. }
  rewrite H4, <- Hn. now left.
Qed.

Lemma Math_max_spec (l : list float) :
  existsb PrimFloat.is_nan l = false ->
  PrimFloat.is_nan (Js.Math_max l) = false /\
  (forall n, In n l -> (n <=? Js.Math_max l)%float = true) /\
  (l <> [] -> In (Js.Math_max l) l).
Proof.
  intros Hl. unfold Js.Math_max. rewrite Hl.
  destruct (max_fold l PrimFloat.neg_infinity eq_refl Hl) as (H1 & _ & H3 & H4).
  split; [assumption|]. split; [assumption|].
  intros Hne. destruct H4 as [H4|H4]; [|assumption].
  destruct l as [|n l]; [congruence|].
  assert (Hn : n = PrimFloat.neg_infinity).
  { apply existsb_nan_cons in Hl.
    apply FloatOrder.not_above_neg_infinity; [tauto|].
    apply leb_not_ltb. rewrite <- H4. apply H3. now left. }
  rewrite H4, <- Hn. now left.
Qed.

End MathFacts.

(** * The running bounds of the scatter plot *)

Module RunningBounds.

#[local] Abbreviation min_step :=
  (fun lowest n : float =>
     if Js.lt n lowest || (Js.is_neg_zero n && Js.is_pos_zero lowest)
     then n else lowest).

#[local] Abbreviation max_step :=
  (fun highest n : float =>
     if Js.gt n highest || (Js.is_pos_zero n && Js.is_neg_zero highest)
     then n else highest).

Lemma min_step_infinity (n : float) :
  PrimFloat.is_nan n = false -> min_step PrimFloat.infinity n = n.
Proof.
  intros Hn. unfold Js.lt, Js.is_pos_zero.
  destruct ((n <? PrimFloat.infinity)%float) eqn:E; [reflexivity|].
  change (PrimFloat.is_zero PrimFloat.infinity) with false.
  rewrite andb_false_r. simpl. symmetry.
  now apply FloatOrder.not_below_infinity.
Qed.

Lemma max_step_neg_infinity (n : float) :
  PrimFloat.is_nan n = false -> max_step PrimFloat.neg_infinity n = n.
Proof.
  intros Hn. unfold Js.gt, Js.is_neg_zero.
  destruct ((PrimFloat.neg_infinity <? n)%float) eqn:E; [reflexivity|].
  change (PrimFloat.is_zero PrimFloat.neg_infinity) with false.
  rewrite andb_false_r. simpl. symmetry.
  now apply FloatOrder.not_above_neg_infinity.
Qed.

Lemma Math_min_pair (m n : float) :
  PrimFloat.is_nan m = false -> PrimFloat.is_nan n = false ->
  Js.Math_min [m; n] = min_step m n.
Proof.
  intros Hm Hn. unfold Js.Math_min. cbn [existsb]. rewrite Hm, Hn.
  cbn [orb fold_left]. now rewrite (min_step_infinity _ Hm).
Qed.

Lemma Math_max_pair (m n : float) :
  PrimFloat.is_nan m = false -> PrimFloat.is_nan n = false ->
  Js.Math_max [m; n] = max_step m n.
Proof.
  intros Hm Hn. unfold Js.Math_max. cbn [existsb]. rewrite Hm, Hn.
  cbn [orb fold_left]. now rewrite (max_step_neg_infinity _ Hm).
Qed.

Lemma existsb_nan_app l n :
  existsb PrimFloat.is_nan (l ++ [n]) = false ->
  existsb PrimFloat.is_nan l = false /\ PrimFloat.is_nan n = false.
Proof.
  rewrite existsb_app. simpl. rewrite orb_false_r. now intros H%orb_false_iff.
Qed.

(** One more number: the lowest of the lowest so far and the number. *)
Lemma Math_min_snoc (l : list float) (n : float) :
  existsb PrimFloat.is_nan (l ++ [n]) = false ->
  Js.Math_min (l ++ [n]) = Js.Math_min [Js.Math_min l; n].
Proof.
  intros H. destruct (existsb_nan_app _ _ H) as [Hl Hn].
  destruct (MathFacts.Math_min_spec l Hl) as (Hm & _).
  rewrite (Math_min_pair _ _ Hm Hn).
  unfold Js.Math_min. now rewrite H, Hl, fold_left_app.
Qed.

Lemma Math_max_snoc (l : list float) (n : float) :
  existsb PrimFloat.is_nan (l ++ [n]) = false ->
  Js.Math_max (l ++ [n]) = Js.Math_max [Js.Math_max l; n].
Proof.
  intros H. destruct (existsb_nan_app _ _ H) as [Hl Hn].
  destruct (MathFacts.Math_max_spec l Hl) as (Hm & _).
  rewrite (Math_max_pair _ _ Hm Hn).
  unfold Js.Math_max. now rewrite H, Hl, fold_left_app.
Qed.

Lemma Math_min_single (n : float) :
  PrimFloat.is_nan n = false -> Js.Math_min [n] = n.
Proof.
  intros Hn. unfold Js.Math_min. cbn [existsb]. rewrite Hn.
  cbn [orb fold_left]. now apply min_step_infinity.
Qed.

Lemma Math_max_single (n : float) :
  PrimFloat.is_nan n = false -> Js.Math_max [n] = n.
Proof.
  intros Hn. unfold Js.Math_max. cbn [existsb]. rewrite Hn.
  cbn [orb fold_left]. now apply max_step_neg_infinity.
Qed.

Lemma Math_min_twice (n : float) :
  PrimFloat.is_nan n = false -> Js.Math_min [n; n] = n.
Proof.
  intros Hn. rewrite (Math_min_pair _ _ Hn Hn).
  now destruct (Js.lt n n || Js.is_neg_zero n && Js.is_pos_zero n).
Qed.

Lemma Math_max_twice (n : float) :
  PrimFloat.is_nan n = false -> Js.Math_max [n; n] = n.
Proof.
  intros Hn. rewrite (Math_max_pair _ _ Hn Hn).
  now destruct (Js.gt n n || Js.is_pos_zero n && Js.is_neg_zero n).
Qed.

End RunningBounds.

(* ================================================================== *)
(** * The scatter plot: ranges *)

Module ScatterRange.

Section Range.

Variable getUniqueNonAggregates : list ResultRow -> StringSet.
Variable getFacetLabel : list Group -> string.
Variable StringToNumber : string -> float.
Variable props : Scatter.Props.

#[local] Abbreviation Math_min := (Scatter.Math_min StringToNumber).
#[local] Abbreviation Math_max := (Scatter.Math_max StringToNumber).
#[local] Abbreviation ToNumber := (Js.ToNumber StringToNumber).
#[local] Abbreviation supported := (Scatter.supported getFacetLabel props).
#[local] Abbreviation getAggregatesData :=
  (Scatter.getAggregatesData getFacetLabel StringToNumber props).
#[local] Abbreviation getNonAggregatesData :=
  (Scatter.getNonAggregatesData getUniqueNonAggregates StringToNumber).
#[local] Abbreviation widen := (Scatter.widen StringToNumber).

(** The values are numbers, none of them [NaN]. *)
#[local] Abbreviation numbers vals :=
  (forall v : Js.value,
      In v vals -> exists n, v = Js.Num n /\ PrimFloat.is_nan n = false).

Lemma numbers_no_nan (vals : list Js.value) :
  numbers vals -> existsb PrimFloat.is_nan (map ToNumber vals) = false.
Proof.
  induction vals as [|v vals IH]; intros H; [reflexivity|].
  simpl. destruct (H v) as (n & -> & Hn); [now left|]. simpl. rewrite Hn.
  apply IH. intros w Hw. apply H. now right.
Qed.

Lemma numbers_In (vals : list Js.value) n :
  numbers vals -> (In n (map ToNumber vals) <-> In (Js.Num n) vals).
Proof.
  intros H. rewrite in_map_iff. split.
  - intros (v & <- & Hv). destruct (H v Hv) as (m & -> & _). exact Hv.
  - intros Hn. now exists (Js.Num n).
Qed.

(** [Math.min] and [Math.max] of a non-empty list of numbers bound
    every one of them and are two of them. *)
Lemma axis_bounds (vals : list Js.value) :
  numbers vals -> vals <> [] ->
  exists lo hi,
    Math_min vals = Js.Num lo /\ Math_max vals = Js.Num hi /\
    In (Js.Num lo) vals /\ In (Js.Num hi) vals /\
    forall n, In (Js.Num n) vals ->
              (lo <=? n)%float = true /\ (n <=? hi)%float = true.
Proof.
  intros Hnum Hne.
  pose proof (numbers_no_nan _ Hnum) as Hnan.
  destruct (MathFacts.Math_min_spec _ Hnan) as (_ & Hlo & Hlo').
  destruct (MathFacts.Math_max_spec _ Hnan) as (_ & Hhi & Hhi').
  assert (Hne' : map ToNumber vals <> []).
  { intros E. apply map_eq_nil in E. contradiction. }
  exists (Js.Math_min (map ToNumber vals)), (Js.Math_max (map ToNumber vals)).
  split; [reflexivity|]. split; [reflexivity|].
  split; [apply (numbers_In _ _ Hnum); auto|].
  split; [apply (numbers_In _ _ Hnum); auto|].
  intros n Hn. apply (numbers_In _ _ Hnum) in Hn. auto.
Qed.

Lemma aggregates_range rawData names out :
  getAggregatesData rawData names = Js.Returns out ->
  Scatter.range out = Scatter.rangeOf StringToNumber (Scatter.series out).
Proof.
  unfold Scatter.getAggregatesData.
  destruct (Scatter.facetGroupData _ _ _ _ _); [|discriminate].
  now intros [= <-].
Qed.

(** X18: The range of the aggregate mode bounds the points, for rows whose
    facet labels name no member inherited from [Object.prototype].  When
    no point is retained the range is turned inside out: from [+Infinity] down to
    [-Infinity] on both axes.  When the retained points have numbers on
    an axis, the bounds of the axis are numbers; each of them is the
    value of a retained point, and every retained point lies between
    them. *)
Theorem scatter_aggregate_range_bounds (rawData : list ResultRow)
  (names : list string) :
  forallb supported rawData = true ->
  exists out,
    getAggregatesData rawData names = Js.Returns out /\
    (Scatter.series out = [] ->
     Scatter.range out =
     {| Scatter.xMin := Js.Num PrimFloat.infinity;
        Scatter.xMax := Js.Num PrimFloat.neg_infinity;
        Scatter.yMin := Js.Num PrimFloat.infinity;
        Scatter.yMax := Js.Num PrimFloat.neg_infinity |}) /\
    (Scatter.series out <> [] ->
     numbers (map (fun p => Js.prop p "x") (Scatter.series out)) ->
     exists lo hi,
       Scatter.xMin (Scatter.range out) = Js.Num lo /\
       Scatter.xMax (Scatter.range out) = Js.Num hi /\
       (exists p, In p (Scatter.series out) /\ Js.prop p "x" = Js.Num lo) /\
       (exists p, In p (Scatter.series out) /\ Js.prop p "x" = Js.Num hi) /\
       forall p n,
         In p (Scatter.series out) -> Js.prop p "x" = Js.Num n ->
         (lo <=? n)%float = true /\ (n <=? hi)%float = true) /\
    (Scatter.series out <> [] ->
     numbers (map (fun p => Js.prop p "y") (Scatter.series out)) ->
     exists lo hi,
       Scatter.yMin (Scatter.range out) = Js.Num lo /\
       Scatter.yMax (Scatter.range out) = Js.Num hi /\
       (exists p, In p (Scatter.series out) /\ Js.prop p "y" = Js.Num lo) /\
       (exists p, In p (Scatter.series out) /\ Js.prop p "y" = Js.Num hi) /\
       forall p n,
         In p (Scatter.series out) -> Js.prop p "y" = Js.Num n ->
         (lo <=? n)%float = true /\ (n <=? hi)%float = true).
Proof.
  intros Hs.
  destruct (ScatterFacts.facetGroupData_returns
              getFacetLabel props names rawData Hs [])
    as [grouped Hg].
  assert (Hout : exists out, getAggregatesData rawData names = Js.Returns out).
  { unfold Scatter.getAggregatesData. rewrite Hg. simpl. eauto. }
  destruct Hout as [out Hout]. exists out. split; [exact Hout|].
  rewrite (aggregates_range _ _ Hout).
  assert (Haxis :
            forall key,
              Scatter.series out <> [] ->
              numbers (map (fun p => Js.prop p key) (Scatter.series out)) ->
              exists lo hi,
                Math_min (map (fun p => Js.prop p key) (Scatter.series out)) =
                Js.Num lo /\
                Math_max (map (fun p => Js.prop p key) (Scatter.series out)) =
                Js.Num hi /\
                (exists p, In p (Scatter.series out) /\ Js.prop p key = Js.Num lo) /\
                (exists p, In p (Scatter.series out) /\ Js.prop p key = Js.Num hi) /\
                forall p n,
                  In p (Scatter.series out) -> Js.prop p key = Js.Num n ->
                  (lo <=? n)%float = true /\ (n <=? hi)%float = true).
  { intros key Hne Hnum.
    assert (Hne' : map (fun p => Js.prop p key) (Scatter.series out) <> []).
    { intros E. apply map_eq_nil in E. contradiction. }
    destruct (axis_bounds Hnum Hne') as (lo & hi & H1 & H2 & H3 & H4 & H5).
    exists lo, hi. split; [assumption|]. split; [assumption|].
    apply in_map_iff in H3, H4.
    destruct H3 as (p & Hp & Hin), H4 as (q & Hq & Hin').
    split; [now exists p|]. split; [now exists q|].
    intros r n Hr Hn. apply H5. apply in_map_iff. now exists r. }
  split; [|split].
  - intros ->. reflexivity.
  - apply (Haxis "x").
  - apply (Haxis "y").
Qed.

(** ** The non-aggregate mode *)

#[local] Abbreviation running_min :=
  (fun (bound v : Js.value) => Math_min [Js.or bound v; v]).
#[local] Abbreviation running_max :=
  (fun (bound v : Js.value) => Math_max [Js.or bound v; v]).

(** The four bounds run independently over the values of their axis. *)
Lemma widen_axes xA yA points :
  forall bounds,
    let x point := Js.prop point (Scatter.attribute_key xA) in
    let y point := Js.prop point (Scatter.attribute_key yA) in
    fold_left (widen xA yA) points bounds =
    {| Scatter.xMin := fold_left running_min (map x points) (Scatter.xMin bounds);
       Scatter.xMax := fold_left running_max (map x points) (Scatter.xMax bounds);
       Scatter.yMin := fold_left running_min (map y points) (Scatter.yMin bounds);
       Scatter.yMax := fold_left running_max (map y points) (Scatter.yMax bounds) |}.
Proof.
  induction points as [|point points IH]; intros bounds; cbv zeta.
  - now destruct bounds.
  - cbn [fold_left map]. rewrite IH. reflexivity.
Qed.

(** The values are numbers, none of them [NaN] or zero. *)
#[local] Abbreviation nonzero_numbers vals :=
  (forall v : Js.value,
      In v vals ->
      exists n, v = Js.Num n /\ PrimFloat.is_nan n = false /\
                PrimFloat.is_zero n = false).

Lemma nonzero_numbers_numbers (vals : list Js.value) :
  nonzero_numbers vals -> numbers vals.
Proof. intros H v Hv. destruct (H v Hv) as (n & -> & Hn & _). eauto. Qed.

(** Over numbers that are not zero, the running bounds are [Math.min]
    and [Math.max] of all the values. *)
Lemma running_bounds (vals : list Js.value) :
  nonzero_numbers vals -> vals <> [] ->
  fold_left running_min vals Js.Undefined = Math_min vals /\
  fold_left running_max vals Js.Undefined = Math_max vals.
Proof.
  induction vals as [|v vals IH] using rev_ind; intros Hnum Hne; [congruence|].
  rewrite !fold_left_app. cbn [fold_left].
  assert (Hvals : nonzero_numbers vals).
  { intros w Hw. apply Hnum. apply in_or_app. now left. }
  destruct (Hnum v) as (n & -> & Hn & Hz); [apply in_or_app; right; now left|].
  destruct vals as [|w vals'] eqn:E.
  - simpl. unfold Scatter.Math_min, Scatter.Math_max. simpl.
    rewrite (RunningBounds.Math_min_twice _ Hn),
      (RunningBounds.Math_max_twice _ Hn),
      (RunningBounds.Math_min_single _ Hn),
      (RunningBounds.Math_max_single _ Hn).
    split; reflexivity.
  - rewrite <- E in *.
    assert (Hne' : vals <> []) by (rewrite E; discriminate).
    destruct (IH Hvals Hne') as [-> ->].
    pose proof (numbers_no_nan _ (nonzero_numbers_numbers _ Hvals)) as Hnan.
    assert (Hne'' : map ToNumber vals <> []).
    { intros E'. apply map_eq_nil in E'. contradiction. }
    destruct (MathFacts.Math_min_spec _ Hnan) as (Hlo & _ & Hlo').
    destruct (MathFacts.Math_max_spec _ Hnan) as (Hhi & _ & Hhi').
    assert (Htruthy : forall m, In m (map ToNumber vals) ->
                                PrimFloat.is_nan m = false ->
                                Js.truthy (Js.Num m) = true).
    { intros m Hm Hm'. apply in_map_iff in Hm. destruct Hm as (u & <- & Hu).
      destruct (Hvals u Hu) as (k & -> & Hk & Hk'). simpl.
      now rewrite Hk, Hk'. }
    assert (Hmin : Js.or (Math_min vals) (Js.Num n) = Math_min vals).
    { unfold Js.or, Scatter.Math_min.
      now rewrite (Htruthy _ (Hlo' Hne'') Hlo). }
    assert (Hmax : Js.or (Math_max vals) (Js.Num n) = Math_max vals).
    { unfold Js.or, Scatter.Math_max.
      now rewrite (Htruthy _ (Hhi' Hne'') Hhi). }
    rewrite Hmin, Hmax.
    unfold Scatter.Math_min, Scatter.Math_max.
    rewrite map_app. cbn [map Js.ToNumber].
    rewrite RunningBounds.Math_min_snoc, RunningBounds.Math_max_snoc;
      [split; reflexivity | |];
      rewrite existsb_app, Hnan; simpl; now rewrite Hn.
Qed.

(** X19: For attribute names that name no member inherited from
    [Object.prototype], the range of the non-aggregate mode is taken over
    all the data points of the first row, dropped or not.  Without data points the
    four bounds stay [undefined].  When the values on an axis are numbers
    and none of them is zero, the bounds of this axis are [Math.min] and
    [Math.max] of the values of all the points. *)
Theorem scatter_non_aggregate_range_of_all_points (row : ResultRow)
  (rest : list ResultRow) :
  let names := getUniqueNonAggregates (row :: rest) in
  let xA := nth_error names 0 in
  let yA := nth_error names 1 in
  let zA := nth_error names 2 in
  let x point := Js.prop point (Scatter.attribute_key xA) in
  let y point := Js.prop point (Scatter.attribute_key yA) in
  existsb Js.inherited_key
    [Scatter.attribute_key xA; Scatter.attribute_key yA;
     Scatter.attribute_key zA] = false ->
  exists out,
    getNonAggregatesData (row :: rest) = Js.Returns out /\
    (data row = [] ->
     Scatter.series out = [] /\
     Scatter.range out =
     {| Scatter.xMin := Js.Undefined; Scatter.xMax := Js.Undefined;
        Scatter.yMin := Js.Undefined; Scatter.yMax := Js.Undefined |}) /\
    (data row <> [] -> nonzero_numbers (map x (data row)) ->
     Scatter.xMin (Scatter.range out) = Math_min (map x (data row)) /\
     Scatter.xMax (Scatter.range out) = Math_max (map x (data row))) /\
    (data row <> [] -> nonzero_numbers (map y (data row)) ->
     Scatter.yMin (Scatter.range out) = Math_min (map y (data row)) /\
     Scatter.yMax (Scatter.range out) = Math_max (map y (data row))).
Proof.
  cbv zeta. intros Hkeys. unfold Scatter.getNonAggregatesData.
  rewrite Hkeys, ScatterFacts.mapPoints_pointStep.
  eexists. split; [reflexivity|]. cbn [Scatter.series Scatter.range].
  rewrite widen_axes. cbn [Scatter.xMin Scatter.xMax Scatter.yMin Scatter.yMax].
  split; [|split].
  - intros ->. split; reflexivity.
  - intros Hne Hnum. apply running_bounds; [assumption|].
    intros E. apply map_eq_nil in E. contradiction.
  - intros Hne Hnum. apply running_bounds; [assumption|].
    intros E. apply map_eq_nil in E. contradiction.
Qed.

End Range.

End ScatterRange.

(* ================================================================== *)
(** * The scatter plot: tooltips of the non-aggregate mode, rendering *)

Module ScatterRender.

Section Render.

Variable getUniqueAggregatesAndFacets : list ResultRow -> StringSet * StringSet.
Variable getUniqueNonAggregates : list ResultRow -> StringSet.
Variable getFacetLabel : list Group -> string.
Variable StringToNumber : string -> float.
Variable props : Scatter.Props.
Variable typeToUnit : Js.value -> Js.value.
Variable formatNumberTicks : Js.value -> float -> float -> string.
Variable toLocaleString : Js.value -> string.
Variable NumberToString : float -> string.
Variable Math_round : float -> float.

#[local] Abbreviation supported := (Scatter.supported getFacetLabel props).
#[local] Abbreviation getAggregatesData :=
  (Scatter.getAggregatesData getFacetLabel StringToNumber props).
#[local] Abbreviation getNonAggregatesData :=
  (Scatter.getNonAggregatesData getUniqueNonAggregates StringToNumber).
#[local] Abbreviation transformData :=
  (Scatter.transformData getUniqueAggregatesAndFacets getUniqueNonAggregates
                         getFacetLabel StringToNumber props).
#[local] Abbreviation nrqlInputIsValid :=
  (Scatter.nrqlInputIsValid getUniqueAggregatesAndFacets getUniqueNonAggregates).
#[local] Abbreviation valueLabel :=
  (Scatter.valueLabel typeToUnit toLocaleString NumberToString).
#[local] Abbreviation tooltipLabel :=
  (Scatter.tooltipLabel typeToUnit toLocaleString NumberToString).
#[local] Abbreviation renderQuery :=
  (Scatter.renderQuery getUniqueAggregatesAndFacets getUniqueNonAggregates
                       getFacetLabel StringToNumber props typeToUnit
                       formatNumberTicks toLocaleString NumberToString
                       Math_round).

(** The attribute names read as property keys name no inherited
    member. *)
#[local] Abbreviation plain_attributes rows :=
  (existsb Js.inherited_key
     [ Scatter.attribute_key (nth_error (getUniqueNonAggregates rows) 0);
       Scatter.attribute_key (nth_error (getUniqueNonAggregates rows) 1);
       Scatter.attribute_key (nth_error (getUniqueNonAggregates rows) 2) ]
   = false).

(** X20: For attribute names that name no member inherited from
    [Object.prototype], the tooltip of a point of the non-aggregate mode
    has no line for a facet group name.  Its lines are those of the [x] and [y] values,
    under the names of the first two attributes, and that of the [z]
    value when the point has one, which is the case of every retained
    point when there is a third attribute. *)
Theorem scatter_non_aggregate_tooltip (row : ResultRow) (rest : list ResultRow) :
  let names := getUniqueNonAggregates (row :: rest) in
  let xA := nth_error names 0 in
  let yA := nth_error names 1 in
  let zA := nth_error names 2 in
  plain_attributes (row :: rest) ->
  exists out,
    getNonAggregatesData (row :: rest) = Js.Returns out /\
    forall p,
      In p (Scatter.series out) ->
      Js.has p "facetGroupName" = false /\
      (2 < size names -> Js.has p "z" = true) /\
      tooltipLabel p =
      [ Js.Str (valueLabel (Scatter.attribute_value xA) (Js.prop p "x")
                           (Js.prop p "xUnitType"));
        Js.Str (valueLabel (Scatter.attribute_value yA) (Js.prop p "y")
                           (Js.prop p "yUnitType")) ]
      ++ (if Js.has p "z"
          then [ Js.Str (valueLabel (Scatter.attribute_value zA) (Js.prop p "z")
                                    (Js.prop p "zUnitType")) ]
          else []).
Proof.
  cbv zeta. intros Hkeys. unfold Scatter.getNonAggregatesData.
  rewrite Hkeys, ScatterFacts.mapPoints_pointStep.
  eexists. split; [reflexivity|]. cbn [Scatter.series].
  intros p Hp. apply filter_In in Hp. destruct Hp as [Hp Hnulls].
  apply in_map_iff in Hp. destruct Hp as (point & <- & _).
  apply negb_true_iff in Hnulls. split; [|split].
  - unfold Scatter.datapointOf. now destruct (Js.truthy _).
  - intros Hsize.
    destruct (Nat.ltb_spec 2 (size (getUniqueNonAggregates (row :: rest))))
      as [_|Hle]; [|lia].
    unfold Scatter.entryHasNulls in Hnulls. simpl in Hnulls.
    rewrite !orb_false_iff in Hnulls. destruct Hnulls as (_ & _ & Hz & _).
    unfold Js.has. unfold Js.prop in Hz.
    now destruct (Js.get _ "z").
  - unfold Scatter.tooltipLabel, Scatter.datapointOf.
    destruct (Js.truthy _); reflexivity.
Qed.

Lemma filter_map {A B : Type} (f : B -> bool) (g : A -> B) (l : list A) :
  filter f (map g l) = map g (filter (fun a => f (g a)) l).
Proof.
  induction l as [|a l IH]; simpl; [reflexivity|].
  destruct (f (g a)); simpl; now rewrite IH.
Qed.

(** X21: For attribute names that name no member inherited from
    [Object.prototype], the points the non-aggregate mode retains are
    those of the first row whose [x] and [y] are neither [null] nor
    [undefined] and, when there is a third attribute, whose third value is
    truthy: a third value of [0], like an empty or a missing one, drops
    the point. *)
Theorem scatter_non_aggregate_retained (row : ResultRow) (rest : list ResultRow) :
  let names := getUniqueNonAggregates (row :: rest) in
  let xA := nth_error names 0 in
  let yA := nth_error names 1 in
  let zA := nth_error names 2 in
  let datapoint :=
    Scatter.datapointOf xA yA zA
      (unit_of (metadata row) (Scatter.attribute_key xA))
      (unit_of (metadata row) (Scatter.attribute_key yA))
      (unit_of (metadata row) (Scatter.attribute_key zA))
      (color (metadata row)) in
  let x point := Js.prop point (Scatter.attribute_key xA) in
  let y point := Js.prop point (Scatter.attribute_key yA) in
  let z point := Js.prop point (Scatter.attribute_key zA) in
  plain_attributes (row :: rest) ->
  exists out,
    getNonAggregatesData (row :: rest) = Js.Returns out /\
    Scatter.series out =
    map datapoint
        (filter (fun point =>
                   negb (Js.is_nullish (x point))
                   && negb (Js.is_nullish (y point))
                   && (negb (Nat.ltb 2 (size names)) || Js.truthy (z point)))
                (data row)) /\
    (2 < size names ->
     forall point,
       Js.truthy (z point) = false -> ~ In (datapoint point) (Scatter.series out)).
Proof.
  cbv zeta. intros Hkeys. unfold Scatter.getNonAggregatesData.
  rewrite Hkeys, ScatterFacts.mapPoints_pointStep.
  eexists. split; [reflexivity|]. cbn [Scatter.series].
  rewrite filter_map.
  assert (Hkeep :
            forall point,
              negb (Scatter.entryHasNulls
                      (Scatter.datapointOf
                         (nth_error (getUniqueNonAggregates (row :: rest)) 0)
                         (nth_error (getUniqueNonAggregates (row :: rest)) 1)
                         (nth_error (getUniqueNonAggregates (row :: rest)) 2)
                         (unit_of (metadata row)
                            (Scatter.attribute_key
                               (nth_error (getUniqueNonAggregates (row :: rest)) 0)))
                         (unit_of (metadata row)
                            (Scatter.attribute_key
                               (nth_error (getUniqueNonAggregates (row :: rest)) 1)))
                         (unit_of (metadata row)
                            (Scatter.attribute_key
                               (nth_error (getUniqueNonAggregates (row :: rest)) 2)))
                         (color (metadata row)) point)
                      (Nat.ltb 2 (size (getUniqueNonAggregates (row :: rest))))) =
              negb (Js.is_nullish
                      (Js.prop point
                         (Scatter.attribute_key
                            (nth_error (getUniqueNonAggregates (row :: rest)) 0))))
              && negb (Js.is_nullish
                         (Js.prop point
                            (Scatter.attribute_key
                               (nth_error (getUniqueNonAggregates (row :: rest)) 1))))
              && (negb (Nat.ltb 2 (size (getUniqueNonAggregates (row :: rest))))
                  || Js.truthy
                       (Js.prop point
                          (Scatter.attribute_key
                             (nth_error (getUniqueNonAggregates (row :: rest)) 2))))).
  { intros point.
    destruct (Nat.ltb 2 (size (getUniqueNonAggregates (row :: rest)))).
    - rewrite ScatterFacts.entryHasNulls_with_z. cbn [negb orb].
      destruct (Js.truthy
                  (Js.prop point
                     (Scatter.attribute_key
                        (nth_error (getUniqueNonAggregates (row :: rest)) 2))))
        eqn:Hz.
      + rewrite ScatterFacts.datapoint_z_truthy by assumption.
        rewrite (ScatterFacts.truthy_not_nullish _ Hz).
        now rewrite orb_false_r, negb_orb, andb_true_r.
      + unfold Js.prop at 3.
        rewrite ScatterFacts.datapoint_z_falsy by assumption.
        cbn [Js.is_nullish]. now rewrite orb_true_r, andb_false_r.
    - rewrite ScatterFacts.entryHasNulls_without_z. cbn [negb orb].
      now rewrite negb_orb, andb_true_r. }
  split.
  - f_equal. apply filter_ext. exact Hkeep.
  - intros Hsize point Hz Hin.
    apply in_map_iff in Hin. destruct Hin as (point' & Heq & Hin).
    apply filter_In in Hin. destruct Hin as [_ Hkept].
    rewrite Hkeep in Hkept.
    destruct (Nat.ltb_spec 2 (size (getUniqueNonAggregates (row :: rest))))
      as [_|Hle]; [|lia].
    cbn [negb orb] in Hkept. apply andb_true_iff in Hkept.
    destruct Hkept as [_ Hz'].
    apply (f_equal (fun p => Js.get p "z")) in Heq.
    rewrite (ScatterFacts.datapoint_z_falsy _ _ _ _ _ _ _ _ Hz) in Heq.
    pose proof (ScatterFacts.datapoint_z_truthy
                  (nth_error (getUniqueNonAggregates (row :: rest)) 0)
                  (nth_error (getUniqueNonAggregates (row :: rest)) 1)
                  _
                  (unit_of (metadata row)
                     (Scatter.attribute_key
                        (nth_error (getUniqueNonAggregates (row :: rest)) 0)))
                  (unit_of (metadata row)
                     (Scatter.attribute_key
                        (nth_error (getUniqueNonAggregates (row :: rest)) 1)))
                  (unit_of (metadata row)
                     (Scatter.attribute_key
                        (nth_error (getUniqueNonAggregates (row :: rest)) 2)))
                  (color (metadata row)) _ Hz') as Hp.
    unfold Js.prop at 1 in Hp. rewrite Heq in Hp.
    rewrite <- Hp in Hz'. discriminate.
Qed.

(** On rows, the transform of the scatter plot goes through when the
    facet labels and the attribute names name no inherited member. *)
Lemma transformData_returns (rows : list ResultRow) :
  rows <> [] -> forallb supported rows = true -> plain_attributes rows ->
  exists transformed, transformData rows = Js.Returns transformed.
Proof.
  intros Hne Hs Hkeys. unfold Scatter.transformData.
  destruct (Nat.ltb 1 (size (getUniqueNonAggregates rows))).
  - unfold Scatter.getNonAggregatesData.
    destruct rows as [|row rest]; [congruence|].
    rewrite Hkeys, ScatterFacts.mapPoints_pointStep. simpl. eauto.
  - destruct (Nat.ltb 1 _); [|eauto].
    unfold Scatter.getAggregatesData.
    destruct (ScatterFacts.facetGroupData_returns
                getFacetLabel props
                (fst (getUniqueAggregatesAndFacets rows)) rows Hs [])
      as [grouped ->].
    simpl. eauto.
Qed.

Lemma valid_transformed (rows : list ResultRow) transformed :
  nrqlInputIsValid rows = true ->
  transformData rows = Js.Returns transformed ->
  exists out, transformed = Some out.
Proof.
  unfold Scatter.nrqlInputIsValid, Scatter.transformData.
  intros Hv.
  destruct (Nat.ltb_spec 1 (size (getUniqueNonAggregates rows))) as [H1|H1].
  - destruct (Scatter.getNonAggregatesData _ _ _); [|discriminate].
    intros [= <-]. eauto.
  - destruct (Nat.ltb_spec 1 (size (fst (getUniqueAggregatesAndFacets rows))))
      as [H2|H2].
    + destruct (Scatter.getAggregatesData _ _ _ _ _); [|discriminate].
      intros [= <-]. eauto.
    + apply orb_true_iff in Hv. rewrite !Nat.leb_le in Hv. lia.
Qed.

(** An error that comes with data plays no part. *)
Lemma scatter_renderQuery_data width height rows loading error :
  renderQuery width height
    {| NrqlQuery.data := Some rows; NrqlQuery.loading := loading;
       NrqlQuery.error := error |} =
  renderQuery width height
    {| NrqlQuery.data := Some rows; NrqlQuery.loading := loading;
       NrqlQuery.error := None |}.
Proof.
  unfold Scatter.renderQuery. simpl. destruct loading; [reflexivity|].
  now destruct error.
Qed.

(** X22: What the scatter plot renders for a query result.  While loading it
    shows the spinner.  After that, a [null] result is reported as a
    syntax error when there is an error and makes the function given to
    [NrqlQuery] throw when there is none.  On rows whose labels name no
    inherited member it never throws: it shows the no-data state for an
    empty result and for a supported query of which no point is retained,
    the report of an unsupported query when the validator rejects the
    rows, and otherwise the chart, which is given the retained points, the
    tooltip function, the legend collected from the points, and shows the
    legend exactly when more than one aggregate is found. *)
Theorem scatter_render_outcomes (width height : float)
  (result : NrqlQuery.RenderProps) :
  (NrqlQuery.loading result = true ->
   renderQuery width height result = Js.Returns Scatter.Spinner) /\
  (NrqlQuery.loading result = false -> NrqlQuery.data result = None ->
   renderQuery width height result =
   match NrqlQuery.error result with
   | Some message =>
       Js.Returns (Scatter.NrqlQueryError "NRQL Syntax Error" message)
   | None => Js.Throws Js.TypeError
   end) /\
  (forall rows,
      NrqlQuery.loading result = false -> NrqlQuery.data result = Some rows ->
      forallb supported rows = true -> plain_attributes rows ->
      exists view,
        renderQuery width height result = Js.Returns view /\
        match view with
        | Scatter.Spinner => False
        | Scatter.NoDataState =>
            rows = [] \/
            (nrqlInputIsValid rows = true /\
             exists out,
               transformData rows = Js.Returns (Some out) /\
               Scatter.series out = [])
        | Scatter.NrqlQueryError title _ =>
            rows <> [] /\ nrqlInputIsValid rows = false /\
            title = "Unsupported NRQL query"
        | Scatter.VictoryChart chart =>
            nrqlInputIsValid rows = true /\
            exists out,
              transformData rows = Js.Returns (Some out) /\
              Scatter.series out <> [] /\
              Scatter.Chart.series chart = Scatter.series out /\
              (forall p, Scatter.Chart.labels chart p = tooltipLabel p) /\
              Scatter.Chart.legendItems chart =
              Scatter.legendItems (Scatter.series out) /\
              Scatter.Chart.legendShown chart =
              Nat.ltb 1 (size (fst (getUniqueAggregatesAndFacets rows)))
        end).
Proof.
  destruct result as [data loading error].
  cbn [NrqlQuery.loading NrqlQuery.data NrqlQuery.error].
  split; [|split].
  - now intros ->.
  - intros -> ->. unfold Scatter.renderQuery. simpl. now destruct error.
  - intros rows -> [= ->] Hs Hkeys. rewrite scatter_renderQuery_data.
    unfold Scatter.renderQuery.
    cbn [NrqlQuery.loading NrqlQuery.data NrqlQuery.error].
    destruct rows as [|row rest].
    { exists Scatter.NoDataState. split; [reflexivity | now left]. }
    set (rows := row :: rest) in *.
    assert (Hne : rows <> []) by discriminate.
    destruct (transformData_returns Hne Hs Hkeys) as [transformed Ht].
    cbn [List.length Nat.eqb rows]. fold rows.
    destruct (nrqlInputIsValid rows) eqn:Hv; cbn [negb].
    + destruct (valid_transformed _ Hv Ht) as [out ->].
      rewrite Ht. cbn [Js.bind].
      destruct (Scatter.series out) as [|first more] eqn:Hseries.
      * exists Scatter.NoDataState. split; [reflexivity|].
        right. split; [reflexivity|]. exists out. auto.
      * eexists. split; [reflexivity|].
        cbn [Scatter.Chart.series Scatter.Chart.labels
             Scatter.Chart.legendItems Scatter.Chart.legendShown].
        split; [reflexivity|]. exists out. rewrite Hseries.
        split; [reflexivity|]. split; [discriminate|].
        repeat split; reflexivity.
    + eexists. split; [reflexivity|]. cbv beta iota. auto.
Qed.

End Render.

End ScatterRender.

(* ================================================================== *)
(** * More worked examples *)

Module WorkedCharts.

Import Helpers Examples.

(** ** Stacked bar *)

(** Two rows of the host [a], red then green: both segments of the
    series [a] are red. *)
Lemma stacked_bar_colour_of_first_row_witness :
  exists out,
    StackedBar.transformData getFacetLabel typeToUnit toLocaleString
      (otherVisible true) repainted = Js.Returns out /\
    out = [ [segment "red" "a" "us" 5 "5"; segment "red" "a" "eu" 7 "7"] ] /\
    (forall series s,
        In series out -> In s series ->
        StackedBar.segmentLabel s = "a" ->
        StackedBar.color s = Js.Str "red").
Proof.
  destruct (@StackedBarChartFacts.stacked_bar_colour_of_first_row
              getFacetLabel typeToUnit toLocaleString (otherVisible true)
              [] [facetRow "green" "eu" "a" 7] (facetRow "red" "us" "a" 5)
              "a" eq_refl eq_refl eq_refl eq_refl)
    as (out & Hout & _ & Hcolour).
  exists out. split; [exact Hout|]. split; [|exact Hcolour].
  vm_compute in Hout. now injection Hout as <-.
Defined.

(** The rows of the hosts [a] and [b]: two series, each of one segment. *)
Lemma stacked_bar_series_structure_witness :
  exists out,
    StackedBar.transformData getFacetLabel typeToUnit toLocaleString
      (otherVisible true) twoHosts = Js.Returns out /\
    StackedBar.segmentLabels out = ["a"; "b"] /\
    NoDup (StackedBar.segmentLabels out) /\
    Forall (fun series => series <> [] /\ NoDup (map StackedBar.x series)) out.
Proof.
  destruct (StackedBarChartFacts.stacked_bar_series_structure
              getFacetLabel typeToUnit toLocaleString (otherVisible true)
              (rows := twoHosts) (fun H => nil_cons (eq_sym H)) eq_refl)
    as (out & Hout & Hnd & Hall).
  exists out. split; [exact Hout|]. split; [|split; [exact Hnd|]].
  - vm_compute in Hout. now injection Hout as <-.
  - clear - Hall. induction Hall as [|L series labels out H _ IH];
      constructor; [tauto | exact IH].
Defined.

(** The hosts [b], [10] and [9], in this order in the rows: the series
    are those of [9], [10] and [b]. *)
Lemma stacked_bar_series_order_witness :
  exists out,
    StackedBar.transformData getFacetLabel typeToUnit toLocaleString
      (otherVisible true) numberedHosts = Js.Returns out /\
    StackedBar.segmentLabels out = ["9"; "10"; "b"] /\
    List.length out = 3.
Proof.
  destruct (StackedBarChartFacts.stacked_bar_series_order
              getFacetLabel typeToUnit toLocaleString (otherVisible true)
              (rows := numberedHosts) (fun H => nil_cons (eq_sym H)) eq_refl)
    as (out & Hout & _ & _ & Hlength).
  exists out. split; [exact Hout|]. split; [|exact Hlength].
  vm_compute in Hout. now injection Hout as <-.
Defined.

(** The legend of the two rows of the host [a]: one red item. *)
Lemma stacked_bar_legend_lists_series_witness :
  exists out,
    StackedBar.transformData getFacetLabel typeToUnit toLocaleString
      (otherVisible true) repainted = Js.Returns out /\
    StackedBar.legendItems out =
    [ {| Legend.label := Js.Str "a"; Legend.color := Js.Str "red" |} ].
Proof.
  destruct (StackedBarChartFacts.stacked_bar_legend_lists_series
              getFacetLabel typeToUnit toLocaleString (otherVisible true)
              (rows := repainted) (fun H => nil_cons (eq_sym H)) eq_refl)
    as (out & Hout & Hitems & _).
  exists out. split; [exact Hout|]. rewrite Hitems.
  vm_compute in Hout. now injection Hout as <-.
Defined.

(** A count by status alone: one bar for the two series. *)
Lemma stacked_bar_single_facet_one_bar_witness :
  exists out,
    StackedBar.transformData getFacetLabel typeToUnit toLocaleString
      (otherVisible false) byStatus = Js.Returns out /\
    StackedBar.barLabels out = [""; ""] /\
    StackedBar.segmentLabels out = ["200"; "404"] /\
    StackedBar.getBarCount out = 1.
Proof.
  destruct (StackedBarChartFacts.stacked_bar_single_facet_one_bar
              getFacetLabel typeToUnit toLocaleString (otherVisible false)
              (rows := byStatus) (fun H => nil_cons (eq_sym H)) eq_refl)
    as (out & Hout & _ & Hcount).
  - intros row [<-|[<-|[]]]; reflexivity.
  - exists out. split; [exact Hout|]. rewrite Hcount.
    vm_compute in Hout. injection Hout as <-. repeat split; reflexivity.
Defined.

(** ** Scatter plot *)

(** A count and an average by [appName]: the points of [a] and [b]. *)
Lemma scatter_aggregate_point_per_facet_witness :
  exists out,
    Scatter.getAggregatesData getFacetLabel StringToNumber (scatterOther true)
      threeFacets ["count"; "average"] = Js.Returns out /\
    map (fun p => Js.prop p "facetGroupName") (Scatter.series out) =
    [Js.Str "a"; Js.Str "b"] /\
    NoDup (map (fun p => Js.prop p "facetGroupName") (Scatter.series out)) /\
    Scatter.lastRow getFacetLabel (scatterOther true) ["count"; "average"]
                    threeFacets "b" 0 = Some (countRow "b" (Js.Num 5)) /\
    ~ (exists p, In p (Scatter.series out) /\
                 Js.prop p "facetGroupName" = Js.Str "c").
Proof.
  destruct (ScatterAggregates.scatter_aggregate_point_per_facet
              getFacetLabel StringToNumber (scatterOther true)
              threeFacets ["count"; "average"] eq_refl)
    as (out & Hout & Hnd & _ & Hfacets).
  exists out. split; [exact Hout|].
  split; [|split; [exact Hnd|split; [reflexivity|]]].
  - vm_compute in Hout. now injection Hout as <-.
  - intros H. apply (Hfacets "c") in H. destruct H as (_ & H & _).
    discriminate.
Defined.

(** The tooltips of these points have three lines. *)
Lemma scatter_aggregate_tooltip_witness :
  exists out,
    Scatter.getAggregatesData getFacetLabel StringToNumber (scatterOther true)
      threeFacets ["count"; "average"] = Js.Returns out /\
    map (Scatter.tooltipLabel unitText toLocaleString NumberToString)
        (Scatter.series out) =
    [ [Js.Str "a"; Js.Str "count: 2"; Js.Str "average: 10"];
      [Js.Str "b"; Js.Str "count: 5"; Js.Str "average: 30"] ] /\
    forall p, In p (Scatter.series out) ->
              List.length
                (Scatter.tooltipLabel unitText toLocaleString NumberToString p)
              = 3.
Proof.
  destruct (ScatterAggregates.scatter_aggregate_tooltip
              getFacetLabel StringToNumber (scatterOther true)
              unitText toLocaleString NumberToString
              threeFacets ["count"; "average"] eq_refl)
    as (out & Hout & Hlines).
  exists out. split; [exact Hout|]. split.
  - vm_compute in Hout. now injection Hout as <-.
  - intros p Hp.
    destruct (Hlines p Hp) as (F & rx & ry & n0 & n1 & _ & _ & _ & _ & _ & _ & ->).
    reflexivity.
Defined.

(** The legend of these points: one blue item for each. *)
Lemma scatter_aggregate_legend_witness :
  exists out,
    Scatter.getAggregatesData getFacetLabel StringToNumber (scatterOther true)
      threeFacets ["count"; "average"] = Js.Returns out /\
    Scatter.legendItems (Scatter.series out) =
    [ {| Legend.label := Js.Str "a"; Legend.color := Js.Str "blue" |};
      {| Legend.label := Js.Str "b"; Legend.color := Js.Str "blue" |} ].
Proof.
  destruct (ScatterAggregates.scatter_aggregate_legend
              getFacetLabel StringToNumber (scatterOther true)
              threeFacets ["count"; "average"] eq_refl)
    as (out & Hout & Hitems).
  exists out. split; [exact Hout|]. rewrite Hitems.
  vm_compute in Hout. now injection Hout as <-.
Defined.

(** The range of these points: [2] to [5] and [10] to [30]. *)
Lemma scatter_aggregate_range_bounds_witness :
  exists out,
    Scatter.getAggregatesData getFacetLabel StringToNumber (scatterOther true)
      threeFacets ["count"; "average"] = Js.Returns out /\
    Scatter.range out =
    {| Scatter.xMin := Js.Num 2; Scatter.xMax := Js.Num 5;
       Scatter.yMin := Js.Num 10; Scatter.yMax := Js.Num 30 |} /\
    exists lo hi,
      Scatter.xMin (Scatter.range out) = Js.Num lo /\
      Scatter.xMax (Scatter.range out) = Js.Num hi /\
      forall p n,
        In p (Scatter.series out) -> Js.prop p "x" = Js.Num n ->
        (lo <=? n)%float = true /\ (n <=? hi)%float = true.
Proof.
  destruct (ScatterRange.scatter_aggregate_range_bounds
              getFacetLabel StringToNumber (scatterOther true)
              threeFacets ["count"; "average"] eq_refl)
    as (out & Hout & _ & Hx & _).
  exists out. split; [exact Hout|].
  assert (Hseries : Scatter.series out = [facetPoint "a" 2 10; facetPoint "b" 5 30]
                    /\ Scatter.range out =
                       {| Scatter.xMin := Js.Num 2; Scatter.xMax := Js.Num 5;
                          Scatter.yMin := Js.Num 10; Scatter.yMax := Js.Num 30 |}).
  { vm_compute in Hout. injection Hout as <-. split; reflexivity. }
  destruct Hseries as [Hseries Hrange]. split; [exact Hrange|].
  destruct Hx as (lo & hi & Hlo & Hhi & _ & _ & Hbounds).
  - rewrite Hseries. discriminate.
  - rewrite Hseries. intros v [<-|[<-|[]]]; eexists; split; reflexivity.
  - exists lo, hi. auto.
Defined.

(** The second point is dropped, and its [x] of [100] is the upper
    bound. *)
Lemma scatter_non_aggregate_range_of_all_points_witness :
  exists out,
    Scatter.getNonAggregatesData getUniqueNonAggregates StringToNumber
      droppedPoint = Js.Returns out /\
    List.length (Scatter.series out) = 1 /\
    Scatter.xMin (Scatter.range out) = Js.Num 1 /\
    Scatter.xMax (Scatter.range out) = Js.Num 100.
Proof.
  destruct (ScatterRange.scatter_non_aggregate_range_of_all_points
              getUniqueNonAggregates StringToNumber
              (attributeRow
                 [ [("duration", Js.Num 1); ("externalDuration", Js.Num 2)];
                   [("duration", Js.Num 100); ("externalDuration", Js.Null)] ])
              [] eq_refl)
    as (out & Hout & _ & Hx & _).
  exists out. split; [exact Hout|].
  destruct Hx as [Hmin Hmax].
  - discriminate.
  - intros v [<-|[<-|[]]]; eexists; repeat split; reflexivity.
  - rewrite Hmin, Hmax. vm_compute in Hout. injection Hout as <-.
    repeat split; reflexivity.
Defined.

(** The tooltip of the retained point of two attributes has two lines. *)
Lemma scatter_non_aggregate_tooltip_witness :
  exists out,
    Scatter.getNonAggregatesData getUniqueNonAggregates StringToNumber
      twoAttributes = Js.Returns out /\
    map (Scatter.tooltipLabel unitText toLocaleString NumberToString)
        (Scatter.series out) =
    [ [Js.Str "duration: 1"; Js.Str "externalDuration: 0.2"] ].
Proof.
  destruct (ScatterRender.scatter_non_aggregate_tooltip
              getUniqueNonAggregates StringToNumber
              unitText toLocaleString NumberToString
              (attributeRow
                 [ [("duration", Js.Num 1);
                    ("externalDuration", Js.Num zero_2)];
                   [("duration", Js.Num 2);
                    ("externalDuration", Js.Null)] ])
              [] eq_refl)
    as (out & Hout & _).
  exists out. split; [exact Hout|].
  vm_compute in Hout. now injection Hout as <-.
Defined.

(** With three attributes, the point whose third value is [0] is
    dropped. *)
Lemma scatter_non_aggregate_retained_witness :
  exists out,
    Scatter.getNonAggregatesData getUniqueNonAggregates StringToNumber
      zeroThird = Js.Returns out /\
    map (fun p => Js.prop p "x") (Scatter.series out) = [Js.Num 4] /\
    map (fun p => Js.prop p "z") (Scatter.series out) = [Js.Num 6].
Proof.
  destruct (ScatterRender.scatter_non_aggregate_retained
              getUniqueNonAggregates StringToNumber
              (attributeRow
                 [ [("duration", Js.Num 1); ("externalDuration", Js.Num 2);
                    ("databaseDuration", Js.Num 0)];
                   [("duration", Js.Num 4); ("externalDuration", Js.Num 5);
                    ("databaseDuration", Js.Num 6)] ])
              [] eq_refl)
    as (out & Hout & Hseries & _).
  exists out. split; [exact Hout|]. rewrite Hseries. split; reflexivity.
Defined.

End WorkedCharts.
